(** * Porg backend: liquidation planning-and-pricing engine

    A shallow embedding of the TypeScript services of the Porg backend
    (price oracle, portfolio service, liquidate service, Jupiter service,
    program instructions, transaction parser and transaction service),
    and the properties the specification states about them.

    Conventions of the embedding.
    - A JavaScript [number] is an element of a type [N] with the
      operations of the interface [JsNumber]; the program runs on the
      instance [float] (IEEE-754 binary64, Rocq's primitive floats).
    - Times are milliseconds since the epoch, in [Z].
    - A module-level object used as a dictionary is a [gmap]; a database
      table is the list of its rows, in insertion order, each row as the
      table holds it.
    - The database client does not throw: a query answers or comes back
      with an error, a write is accepted or refused with an error.
      Whether it answers, and what a column makes of a number, belong to
      the collaborators.
    - An [async] function that may throw is a computation [M A]: it takes
      the world (process memory and database) and returns a completion,
      normal or abrupt, with the new world. *)

From Stdlib Require Import ZArith Floats Uint63 Ascii String.
From stdpp Require Import base option list gmap strings.

Local Open Scope string_scope.
Local Open Scope Z_scope.
Local Open Scope list_scope.

(** ** JavaScript numbers *)

(** The numeric operations and literals the services use. *)
Class JsNumber (N : Type) := {
  lit_0 : N;        (* 0 *)
  lit_1 : N;        (* 1.0 *)
  lit_10 : N;       (* 10 *)
  lit_50 : N;       (* 50 *)
  lit_100 : N;      (* 100 *)
  lit_0_01 : N;     (* 0.01 *)
  num_add : N -> N -> N;
  num_sub : N -> N -> N;
  num_mul : N -> N -> N;
  num_div : N -> N -> N;
  num_lt : N -> N -> bool;      (* a < b *)
  num_truthy : N -> bool;       (* ToBoolean: false on +0, -0 and NaN *)
}.

(** [a > b] is [b < a]. *)
Definition num_gt {N} `{JsNumber N} (a b : N) : bool := num_lt b a.

(** [x || d] on an optional numeric field: [undefined], [0] and [NaN]
    are falsy and give [d]. *)
Definition or_default {N} `{JsNumber N} (x : option N) (d : N) : N :=
  match x with
  | Some v => if num_truthy v then v else d
  | None => d
  end.

(** [l.reduce((sum, x) => sum + x, 0)]. *)
Definition num_sum {N} `{JsNumber N} (l : list N) : N :=
  fold_left num_add l lit_0.

(** The program's numbers: IEEE-754 doubles. *)
#[export] Instance float_JsNumber : JsNumber float := {|
  lit_0 := 0%float;
  lit_1 := 1%float;
  lit_10 := 10%float;
  lit_50 := 50%float;
  lit_100 := 100%float;
  lit_0_01 := 0x1.47ae147ae147bp-7%float;
  num_add := PrimFloat.add;
  num_sub := PrimFloat.sub;
  num_mul := PrimFloat.mul;
  num_div := PrimFloat.div;
  num_lt := PrimFloat.ltb;
  num_truthy := fun x => negb (PrimFloat.eqb x 0%float || PrimFloat.is_nan x);
|}.

(** The specification's tolerance, 1e-6 (the nearest double). *)
Definition TOLERANCE : float := 0x1.0c6f7a0b5ed8dp-20%float.

(** [|a - b| < tol] on doubles. *)
Definition float_within (tol a b : float) : bool :=
  PrimFloat.ltb (PrimFloat.abs (PrimFloat.sub a b)) tol.

(** ** BigInt(string)

    StringToBigInt: surrounding white space is dropped; the empty string
    is [0n]; a decimal literal may carry a sign; [0x], [0o] and [0b]
    literals carry none; anything else is a SyntaxError ([None]).  White
    space is the ASCII part of the StrWhiteSpaceChar class. *)

Definition is_white_space (c : ascii) : bool :=
  let n := nat_of_ascii c in
  (Nat.eqb n 32 || Nat.eqb n 9 || Nat.eqb n 10 || Nat.eqb n 11
   || Nat.eqb n 12 || Nat.eqb n 13)%bool.

Fixpoint trim_start (s : string) : string :=
  match s with
  | String c r => if is_white_space c then trim_start r else s
  | EmptyString => EmptyString
  end.

Fixpoint trim_end (s : string) : string :=
  match s with
  | String c r =>
      match trim_end r with
      | EmptyString => if is_white_space c then EmptyString else String c EmptyString
      | r' => String c r'
      end
  | EmptyString => EmptyString
  end.

Definition digit_value (c : ascii) : option Z :=
  let n := Z.of_nat (nat_of_ascii c) in
  if (48 <=? n) && (n <=? 57) then Some (n - 48)
  else if (97 <=? n) && (n <=? 102) then Some (n - 87)
  else if (65 <=? n) && (n <=? 70) then Some (n - 55)
  else None.

Fixpoint digits_value (base : Z) (s : string) (acc : Z) : option Z :=
  match s with
  | EmptyString => Some acc
  | String c r =>
      match digit_value c with
      | Some d => if d <? base then digits_value base r (acc * base + d) else None
      | None => None
      end
  end.

(** A non-empty run of digits of the base. *)
Definition digits (base : Z) (s : string) : option Z :=
  match s with
  | EmptyString => None
  | _ => digits_value base s 0
  end.

Definition BigInt (s : string) : option Z :=
  match trim_end (trim_start s) with
  | EmptyString => Some 0
  | String "0" (String "x" r) | String "0" (String "X" r) => digits 16 r
  | String "0" (String "o" r) | String "0" (String "O" r) => digits 8 r
  | String "0" (String "b" r) | String "0" (String "B" r) => digits 2 r
  | String "+" r => digits 10 r
  | String "-" r => Z.opp <$> digits 10 r
  | t => digits 10 t
  end.

(** ** Completions and computations *)

(** A JavaScript [Error] value. *)
Record JsError := Error { message : string }.

Inductive Completion (A : Type) : Type :=
| Normal (a : A)
| Throw (e : JsError).
Arguments Normal {A} a.
Arguments Throw {A} e.

(** A computation over a world [W]: state passing with abrupt
    completion.  The world a [throw] leaves behind is kept. *)
Definition M (W A : Type) : Type := W -> Completion A * W.

Definition ret {W A} (a : A) : M W A := fun w => (Normal a, w).

Definition throw {W A} (e : JsError) : M W A := fun w => (Throw e, w).

Definition bind {W A B} (m : M W A) (k : A -> M W B) : M W B :=
  fun w =>
    match m w with
    | (Normal a, w1) => k a w1
    | (Throw e, w1) => (Throw e, w1)
    end.

(** [try { m } catch (error) { h error }]. *)
Definition try_catch {W A} (m : M W A) (h : JsError -> M W A) : M W A :=
  fun w =>
    match m w with
    | (Normal a, w1) => (Normal a, w1)
    | (Throw e, w1) => h e w1
    end.

Definition gets {W A} (f : W -> A) : M W A := fun w => (Normal (f w), w).

Definition modify {W} (f : W -> W) : M W unit := fun w => (Normal tt, f w).

(** An external call that fails throws. *)
Definition call {W A} (r : option A) (e : JsError) : M W A :=
  match r with
  | Some a => ret a
  | None => throw e
  end.

Declare Scope js_scope.
Delimit Scope js_scope with js.
Notation "x <- m ;; k" := (bind m (fun x => k))
  (at level 100, m at next level, right associativity) : js_scope.
Notation "m ;;; k" := (bind m (fun _ => k))
  (at level 100, right associativity) : js_scope.
Local Open Scope js_scope.

(** ** Data model *)

Set Implicit Arguments.
Set Maximal Implicit Insertion.

(** token.model.ts *)
Record TokenInfo (N : Type) := {
  symbol : string;
  name : string;
  mint : string;
  decimals : N;
  balance : N;
  value : N;
  percentage : N;
  icon : string;
}.

Record TokenMetadata (N : Type) := {
  md_symbol : string;
  md_name : string;
  md_icon : option string;
  md_decimals : N;
}.

(** portfolio.model.ts *)
Record Portfolio (N : Type) := {
  totalValue : N;
  tokens : list (TokenInfo N);
}.

(** [parsed.info] of an account of getParsedTokenAccountsByOwner;
    [uiAmount] is [number | null]. *)
Record ParsedTokenAccount (N : Type) := {
  info_mint : string;
  uiAmount : option N;
  tokenAmount_decimals : N;
}.

(** An entry of the price oracle's in-memory [tokenPriceCache]. *)
Record PriceEntry (N : Type) := {
  price : N;
  timestamp : Z;
}.

(** A row of table [token_prices] (the serial [id] is left out). *)
Record TokenPriceRow (N : Type) := {
  tp_mint : string;
  tp_price : N;
  tp_updated_at : Z;
}.

(** A row of table [portfolio_cache]. *)
Record PortfolioCacheRow (N : Type) := {
  pc_wallet_address : string;
  pc_total_value : N;
  pc_tokens : list (TokenInfo N);
  pc_created_at : Z;
}.

(** jupiter.model.ts (the fields the services read). *)
Record JupiterQuoteParams (N : Type) := {
  qp_inputMint : string;
  qp_outputMint : string;
  qp_amount : string;
  qp_slippageBps : N;
}.

Record JupiterQuoteResponse (N : Type) := {
  inputMint : string;
  outputMint : string;
  inAmount : string;
  outAmount : string;
  otherAmountThreshold : string;
  outputDecimals : N;
  feeAmount : string;
}.

(** liquidate.model.ts *)
Record LiquidateOptions (N : Type) := {
  targetToken : string;
  includeDust : bool;
  minTokenValueUsd : option N;
  slippageBps : option N;
}.

Record SimulationResult (N : Type) := {
  sim_inputTokens : list (TokenInfo N);
  sim_totalInputValue : N;
  sim_targetToken : string;
  sim_totalOutputAmount : N;
  sim_jupiterFees : N;
  sim_porgFee : N;
  sim_finalOutputAmount : N;
  sim_quotes : list (JupiterQuoteResponse N);
}.

(** web3.js: an instruction and a transaction before serialisation. *)
Record AccountMeta := {
  pubkey : string;
  isSigner : bool;
  isWritable : bool;
}.

Record TransactionInstruction := {
  programId : string;
  keys : list AccountMeta;
  data : list Z;
}.

Record Transaction := {
  instructions : list TransactionInstruction;
  recentBlockhash : string;
  feePayer : string;
}.

(** ** The world and the collaborators *)

(** Process memory and database, with the log of the calls made to the
    origin price API. *)
Record World (N : Type) := {
  tokenPriceCache : gmap string (PriceEntry N);
  token_prices : list (TokenPriceRow N);
  portfolio_cache : list (PortfolioCacheRow N);
  price_api_calls : list string;
}.

(** What the services receive from outside: the clock, the JavaScript
    built-ins on numbers that are not modelled, the external
    collaborators ([None] is a call that throws) and the database.
    - [Date_now] is the clock where an operation reads [now]
      ([Date.now()], [new Date().getTime()]), and [new_Date] the clock
      where it stamps a row it writes ([new Date().toISOString()]).
    - [getTokenMetadata] is the answer of the metadata resolver
      (utils/token-metadata.ts), which never throws.
    - [select_token_prices_ok mint] and [select_portfolio_cache_ok
      walletAddress] tell whether the query comes back without an
      error; [upsert_token_prices_ok row] and
      [insert_portfolio_cache_ok row] whether the write is accepted.
    - [NUMERIC_20_8 x] is the number a NUMERIC(20, 8) column gives back
      for [x], and [JSONB_number x] the number a JSONB column gives back
      for [x]. *)
Record Env (N : Type) := {
  Date_now : Z;
  new_Date : Z;
  parseFloat : string -> N;
  Math_pow : N -> N -> N;
  Number_toString : N -> string;
  isPublicKey : string -> bool;
  price_api : string -> option N;
  getTokenMetadata : string -> TokenMetadata N;
  getParsedTokenAccountsByOwner : string -> option (list (ParsedTokenAccount N));
  getTokenAccountsByMint : string -> string -> option (list string);
  jupiter_quote_api : JupiterQuoteParams N -> option (JupiterQuoteResponse N);
  jupiter_swap_api : JupiterQuoteResponse N -> string -> option string;
  getLatestBlockhash : option string;
  select_token_prices_ok : string -> bool;
  upsert_token_prices_ok : TokenPriceRow N -> bool;
  select_portfolio_cache_ok : string -> bool;
  insert_portfolio_cache_ok : PortfolioCacheRow N -> bool;
  NUMERIC_20_8 : N -> N;
  JSONB_number : N -> N;
}.

Unset Maximal Implicit Insertion.
Unset Implicit Arguments.

(** [new PublicKey(s)]. *)
Definition new_PublicKey {N W} (E : Env N) (s : string) : M W string :=
  if isPublicKey E s then ret s else throw (Error "Invalid public key input").

(** [.order(column, { ascending: false }).limit(1).single()] over the
    rows already filtered: the row with the greatest key, or no row. *)
Definition latest_by {A} (key : A -> Z) (rows : list A) : option A :=
  fold_left
    (fun best r =>
       match best with
       | Some b => if key b <? key r then Some r else Some b
       | None => Some r
       end)
    rows None.

(** ** Price oracle (utils/price-oracle.ts) *)

Section Services.
Context {N : Type} `{JsNumber N} (E : Env N).

(** Cache expiration time (5 minutes). *)
Definition CACHE_EXPIRATION : Z := 5 * 60 * 1000.

(** [tokenPriceCache[mint] = entry]. *)
Definition set_tokenPriceCache (mint : string) (entry : PriceEntry N) : M (World N) unit :=
  modify (fun w =>
    {| tokenPriceCache := <[mint := entry]> (tokenPriceCache w);
       token_prices := token_prices w;
       portfolio_cache := portfolio_cache w;
       price_api_calls := price_api_calls w |}).

(** [axios.get] on the price API: the call is logged, and throws when
    the origin fails. *)
Definition axios_get_price (mint : string) : M (World N) N :=
  modify (fun w =>
    {| tokenPriceCache := tokenPriceCache w;
       token_prices := token_prices w;
       portfolio_cache := portfolio_cache w;
       price_api_calls := price_api_calls w ++ [mint] |}) ;;;
  call (price_api E mint) (Error "Request failed").

(** [supabase.from("token_prices").upsert(row)], whose result the
    oracle does not read.  The row carries no [id], so it is inserted,
    with its price as the NUMERIC(20, 8) column keeps it; a write that
    is refused, or that breaks UNIQUE(mint, updated_at), stores
    nothing. *)
Definition upsert_token_prices (row : TokenPriceRow N) : M (World N) unit :=
  modify (fun w =>
    {| tokenPriceCache := tokenPriceCache w;
       token_prices :=
         if upsert_token_prices_ok E row
            && negb (existsb (fun r => String.eqb (tp_mint r) (tp_mint row)
                                       && (tp_updated_at r =? tp_updated_at row))
                       (token_prices w))
         then token_prices w ++
              [{| tp_mint := tp_mint row;
                  tp_price := NUMERIC_20_8 E (tp_price row);
                  tp_updated_at := tp_updated_at row |}]
         else token_prices w;
       portfolio_cache := portfolio_cache w;
       price_api_calls := price_api_calls w |}).

(** The rows of
    [select("*").eq("mint", mint).order("updated_at", desc).limit(1).single()]:
    the latest row of the mint. *)
Definition select_token_price (mint : string) (rows : list (TokenPriceRow N))
  : option (TokenPriceRow N) :=
  latest_by tp_updated_at (List.filter (fun r => String.eqb (tp_mint r) mint) rows).

(** [const { data: cachedPrice, error } = await supabase...single()]
    under [cachedPrice && !error]: the latest row, when the query
    answers and there is one. *)
Definition cachedPrice (mint : string) (rows : list (TokenPriceRow N))
  : option (TokenPriceRow N) :=
  if select_token_prices_ok E mint then select_token_price mint rows else None.

(** The [try]/[catch] statement of [getTokenPrice], reached when the
    in-memory entry is missing or stale. *)
Definition getTokenPrice_lookup (mint : string) (now : Z) : M (World N) N :=
  try_catch
    ((* Check database cache *)
     rows <- gets token_prices ;;
     fresh <-
       match cachedPrice mint rows with
       | Some cachedPrice =>
           (* If cache is fresh (less than 5 minutes old), use it *)
           if now - tp_updated_at cachedPrice <? CACHE_EXPIRATION
           then
             (set_tokenPriceCache mint
                {| price := tp_price cachedPrice; timestamp := now |} ;;;
              ret (Some (tp_price cachedPrice)))
           else ret None
       | None => ret None
       end ;;
     match fresh with
     | Some p => ret p
     | None =>
         (* Fetch from price API if not in cache or cache is stale *)
         p <- axios_get_price mint ;;
         (upsert_token_prices
            {| tp_mint := mint; tp_price := p; tp_updated_at := new_Date E |} ;;;
          set_tokenPriceCache mint {| price := p; timestamp := now |} ;;;
          ret p)
     end)
    (fun _ =>
       (* If we have a stale cache, use it rather than returning a default *)
       cache <- gets tokenPriceCache ;;
       match cache !! mint with
       | Some entry => ret (price entry)
       | None => ret lit_1
       end).

Definition getTokenPrice (mint : string) : M (World N) N :=
  (* Check in-memory cache first *)
  let now := Date_now E in
  cache <- gets tokenPriceCache ;;
  match cache !! mint with
  | Some entry =>
      if now - timestamp entry <? CACHE_EXPIRATION then ret (price entry)
      else getTokenPrice_lookup mint now
  | None => getTokenPrice_lookup mint now
  end.

(** ** Portfolio service (services/portfolio.service.ts) *)

(** The rows of
    [select("*").eq("wallet_address", w).order("created_at", desc).limit(1).single()]:
    the latest snapshot of the wallet. *)
Definition select_portfolio_cache (walletAddress : string)
  (rows : list (PortfolioCacheRow N)) : option (PortfolioCacheRow N) :=
  latest_by pc_created_at
    (List.filter (fun r => String.eqb (pc_wallet_address r) walletAddress) rows).

(** [const { data: cachedPortfolio, error } = await supabase...single()]
    under [cachedPortfolio && !error]. *)
Definition cachedPortfolio (walletAddress : string)
  (rows : list (PortfolioCacheRow N)) : option (PortfolioCacheRow N) :=
  if select_portfolio_cache_ok E walletAddress
  then select_portfolio_cache walletAddress rows
  else None.

(** A token as the JSONB column [tokens] gives it back. *)
Definition JSONB_token (token : TokenInfo N) : TokenInfo N :=
  {| symbol := symbol token;
     name := name token;
     mint := mint token;
     decimals := JSONB_number E (decimals token);
     balance := JSONB_number E (balance token);
     value := JSONB_number E (value token);
     percentage := JSONB_number E (percentage token);
     icon := icon token |}.

(** [supabase.from("portfolio_cache").insert(row)], whose result the
    service does not read: the row is stored with [total_value] as the
    NUMERIC(20, 8) column keeps it and [tokens] as the JSONB column
    keeps them; a write that is refused stores nothing. *)
Definition insert_portfolio_cache (row : PortfolioCacheRow N) : M (World N) unit :=
  modify (fun w =>
    {| tokenPriceCache := tokenPriceCache w;
       token_prices := token_prices w;
       portfolio_cache :=
         if insert_portfolio_cache_ok E row
         then portfolio_cache w ++
              [{| pc_wallet_address := pc_wallet_address row;
                  pc_total_value := NUMERIC_20_8 E (pc_total_value row);
                  pc_tokens := map JSONB_token (pc_tokens row);
                  pc_created_at := pc_created_at row |}]
         else portfolio_cache w;
       price_api_calls := price_api_calls w |}).

(** The loop over [tokenAccounts.value], with its two accumulators. *)
Fixpoint valuate_accounts (accounts : list (ParsedTokenAccount N))
  (tokens : list (TokenInfo N)) (totalValue : N)
  : M (World N) (list (TokenInfo N) * N) :=
  match accounts with
  | [] => ret (tokens, totalValue)
  | parsedInfo :: rest =>
      let mint := info_mint parsedInfo in
      match uiAmount parsedInfo with
      | Some balance =>
          if num_gt balance lit_0 then
            (* Get token metadata and price *)
            let tokenMetadata := getTokenMetadata E mint in
            price <- getTokenPrice mint ;;
            let value := num_mul price balance in
            valuate_accounts rest
              (tokens ++
               [{| symbol := md_symbol tokenMetadata;
                   name := md_name tokenMetadata;
                   mint := mint;
                   decimals := tokenAmount_decimals parsedInfo;
                   balance := balance;
                   value := value;
                   percentage := lit_0; (* Will calculate after getting total *)
                   icon := default "" (md_icon tokenMetadata) |}])
              (num_add totalValue value)
          else valuate_accounts rest tokens totalValue
      | None => valuate_accounts rest tokens totalValue
      end
  end.

(** [token.percentage = totalValue > 0 ? (token.value / totalValue) * 100 : 0]. *)
Definition set_percentage (totalValue : N) (token : TokenInfo N) : TokenInfo N :=
  {| symbol := symbol token;
     name := name token;
     mint := mint token;
     decimals := decimals token;
     balance := balance token;
     value := value token;
     percentage :=
       if num_gt totalValue lit_0
       then num_mul (num_div (value token) totalValue) lit_100
       else lit_0;
     icon := icon token |}.

(** [Array.prototype.sort(compareFn)]: a stable sort; [a] is moved
    behind [b] only when [compareFn(a, b) > 0].  (For a comparator that
    is not a consistent order, as with NaN, the order JavaScript gives
    is implementation-defined; this is one of the allowed ones.) *)
Fixpoint sort_insert {A} (compareFn : A -> A -> N) (a : A) (l : list A) : list A :=
  match l with
  | [] => [a]
  | b :: l' =>
      if num_gt (compareFn a b) lit_0 then b :: sort_insert compareFn a l'
      else a :: b :: l'
  end.

Definition Array_sort {A} (compareFn : A -> A -> N) (l : list A) : list A :=
  fold_right (sort_insert compareFn) [] l.

(** The body of [getPortfolio] after the cache check. *)
Definition getPortfolio_fresh (walletAddress : string) : M (World N) (Portfolio N) :=
  publicKey <- new_PublicKey E walletAddress ;;
  (* Get all token accounts for the wallet *)
  tokenAccounts <-
    call (getParsedTokenAccountsByOwner E publicKey) (Error "failed to get token accounts") ;;
  (* Process token accounts to get balances *)
  r <- valuate_accounts tokenAccounts [] lit_0 ;;
  let totalValue := snd r in
  (* Calculate percentages *)
  let tokens := map (set_percentage totalValue) (fst r) in
  (* Sort by value (highest first) *)
  let tokens := Array_sort (fun a b => num_sub (value b) (value a)) tokens in
  (* Cache the portfolio *)
  (insert_portfolio_cache
     {| pc_wallet_address := walletAddress;
        pc_total_value := totalValue;
        pc_tokens := tokens;
        pc_created_at := new_Date E |} ;;;
   ret {| totalValue := totalValue; tokens := tokens |}).

Definition getPortfolio (walletAddress : string) : M (World N) (Portfolio N) :=
  try_catch
    ((* Check if we have a recent portfolio in the cache *)
     rows <- gets portfolio_cache ;;
     match cachedPortfolio walletAddress rows with
     | Some cachedPortfolio =>
         let cacheTime := pc_created_at cachedPortfolio in
         let now := Date_now E in
         let fiveMinutes := 5 * 60 * 1000 in
         if now - cacheTime <? fiveMinutes
         then ret {| totalValue := pc_total_value cachedPortfolio;
                     tokens := pc_tokens cachedPortfolio |}
         else getPortfolio_fresh walletAddress
     | None => getPortfolio_fresh walletAddress
     end)
    (fun _ => throw (Error "Failed to get portfolio")).

(** ** Jupiter service (services/jupiter.service.ts) *)

Definition getQuote (inputMint outputMint amount : string) (slippageBps : option N)
  : M (World N) (JupiterQuoteResponse N) :=
  try_catch
    (call
       (jupiter_quote_api E
          {| qp_inputMint := inputMint;
             qp_outputMint := outputMint;
             qp_amount := amount;
             qp_slippageBps := or_default slippageBps lit_50 |})
       (Error "Request failed"))
    (fun _ => throw (Error "Failed to get Jupiter quote")).

Definition JUPITER_PROGRAM_ID : string := "JUP6LkbZbjS1jKKwapdHNy74zcZ3tLUZoi5QNyVTaV4".

(** The swap response: the route and the instructions. *)
Definition createSwapTransaction (walletAddress inputMint outputMint amount : string)
  (slippageBps : option N)
  : M (World N) (JupiterQuoteResponse N * list TransactionInstruction) :=
  try_catch
    ((* Get quote first *)
     quote <- getQuote inputMint outputMint amount slippageBps ;;
     (* Get swap transaction from Jupiter *)
     _ <- call (jupiter_swap_api E quote walletAddress) (Error "Request failed") ;;
     (* For simplicity, we're returning a dummy instruction *)
     ret (quote, [{| programId := JUPITER_PROGRAM_ID; keys := []; data := [] |}]))
    (fun _ => throw (Error "Failed to create Jupiter swap transaction")).

Definition findTokenAccount (owner mint : string) : M (World N) string :=
  try_catch
    (tokenAccounts <- call (getTokenAccountsByMint E owner mint) (Error "Request failed") ;;
     match tokenAccounts with
     | [] => throw (Error "Token account not found")
     | account :: _ => ret account
     end)
    (fun _ => throw (Error "Failed to find token account")).

Definition getFeeAccount (tokenMint : string) : M (World N) string :=
  ret "FeeAccount111111111111111111111111111111111".

(** ** Program instructions (utils/program-instructions.ts) *)

Definition PORG_PROGRAM_ID : string := "Porg111111111111111111111111111111111111111".

Definition TOKEN_PROGRAM_ID : string := "TokenkegQfeZyiNwAJbNbGKPFXCWuBvf9Ss623VQ5DA".

Definition getPorgStateAccount : M (World N) string :=
  (* In a real implementation, you would derive this from the program ID *)
  new_PublicKey E "PorgState11111111111111111111111111111111111".

(** [jupiterRoutes.reduce((sum, route) => sum + BigInt(route.outAmount), BigInt(0))];
    [None] when a [BigInt] conversion throws. *)
Definition minOutputAmount (jupiterRoutes : list (JupiterQuoteResponse N)) : option Z :=
  fold_left
    (fun sum route =>
       match sum, BigInt (outAmount route) with
       | Some s, Some v => Some (s + v)
       | _, _ => None
       end)
    jupiterRoutes (Some 0).

Definition createPorgBatchLiquidateInstruction
  (user targetTokenAccount feeAccount targetTokenMint : string)
  (includeDust : bool) (minTokenValueUsd : N)
  (jupiterRoutes : list (JupiterQuoteResponse N))
  : M (World N) TransactionInstruction :=
  (* Get Porg state account *)
  porgStateAccount <- getPorgStateAccount ;;
  (* Calculate minimum output amount *)
  _ <- call (minOutputAmount jupiterRoutes) (Error "Cannot convert to a BigInt") ;;
  (* Create the instruction *)
  ret {| programId := PORG_PROGRAM_ID;
         keys :=
           [ {| pubkey := porgStateAccount; isSigner := false; isWritable := false |};
             {| pubkey := user; isSigner := true; isWritable := true |};
             {| pubkey := targetTokenAccount; isSigner := false; isWritable := true |};
             {| pubkey := feeAccount; isSigner := false; isWritable := true |};
             {| pubkey := TOKEN_PROGRAM_ID; isSigner := false; isWritable := false |} ];
         data := [0] (* Instruction index for batch_liquidate *) |}.

(** ** Liquidate service (services/liquidate.service.ts) *)

(** The filter of [createLiquidateTransaction]. *)
Definition createLiquidateTransaction_tokensToLiquidate
  (options : LiquidateOptions N) (portfolio : Portfolio N) : list (TokenInfo N) :=
  List.filter
    (fun token =>
       (* Skip the target token *)
       if String.eqb (mint token) (targetToken options) then false
       (* Skip dust tokens if not including dust *)
       else if negb (includeDust options)
               && num_lt (value token) (or_default (minTokenValueUsd options) lit_1)
       then false
       else true)
    (tokens portfolio).

(** The filter of [simulateLiquidation]. *)
Definition simulateLiquidation_tokensToLiquidate
  (options : LiquidateOptions N) (portfolio : Portfolio N) : list (TokenInfo N) :=
  List.filter
    (fun token =>
       (* Skip the target token *)
       if String.eqb (mint token) (targetToken options) then false
       (* Skip dust tokens if not including dust *)
       else if negb (includeDust options)
               && num_lt (value token) (or_default (minTokenValueUsd options) lit_1)
       then false
       else true)
    (tokens portfolio).

(** [(token.balance * Math.pow(10, token.decimals)).toString()]. *)
Definition raw_amount (token : TokenInfo N) : string :=
  Number_toString E (num_mul (balance token) (Math_pow E lit_10 (decimals token))).

(** The loop of [createLiquidateTransaction] over the tokens to
    liquidate, filling [jupiterRoutes] and [jupiterInstructions]. *)
Fixpoint swap_each (walletAddress : string) (options : LiquidateOptions N)
  (tokensToLiquidate : list (TokenInfo N))
  (jupiterRoutes : list (JupiterQuoteResponse N))
  (jupiterInstructions : list TransactionInstruction)
  : M (World N) (list (JupiterQuoteResponse N) * list TransactionInstruction) :=
  match tokensToLiquidate with
  | [] => ret (jupiterRoutes, jupiterInstructions)
  | token :: rest =>
      swapTransaction <-
        createSwapTransaction walletAddress (mint token) (targetToken options)
          (raw_amount token) (Some (or_default (slippageBps options) lit_50)) ;;
      swap_each walletAddress options rest
        (jupiterRoutes ++ [fst swapTransaction])
        (jupiterInstructions ++ snd swapTransaction)
  end.

(** The result is the transaction that the source then serialises. *)
Definition createLiquidateTransaction (walletAddress : string)
  (options : LiquidateOptions N) : M (World N) Transaction :=
  try_catch
    (publicKey <- new_PublicKey E walletAddress ;;
     (* Get portfolio to find tokens to liquidate *)
     portfolio <- getPortfolio walletAddress ;;
     (* Filter tokens based on options *)
     let tokensToLiquidate :=
       createLiquidateTransaction_tokensToLiquidate options portfolio in
     if Nat.eqb (length tokensToLiquidate) 0
     then throw (Error "No tokens to liquidate")
     else
       (* Get Jupiter swap routes for each token *)
       r <- swap_each walletAddress options tokensToLiquidate [] [] ;;
       let jupiterRoutes := fst r in
       let jupiterInstructions := snd r in
       (* Find target token account *)
       targetMint <- new_PublicKey E (targetToken options) ;;
       targetTokenAccount <- findTokenAccount publicKey targetMint ;;
       (* Get fee account *)
       feeAccount <- getFeeAccount (targetToken options) ;;
       (* Create batch liquidate instruction *)
       targetMint' <- new_PublicKey E (targetToken options) ;;
       batchLiquidateInstruction <-
         createPorgBatchLiquidateInstruction publicKey targetTokenAccount feeAccount
           targetMint' (includeDust options)
           (or_default (minTokenValueUsd options) lit_1) jupiterRoutes ;;
       (* Set recent blockhash and fee payer *)
       blockhash <- call (getLatestBlockhash E) (Error "failed to get recent blockhash") ;;
       ret {| instructions := jupiterInstructions ++ [batchLiquidateInstruction];
              recentBlockhash := blockhash;
              feePayer := publicKey |})
    (fun _ => throw (Error "Failed to create liquidation transaction")).

(** The loop of [simulateLiquidation], filling [quotes] and adding up
    [totalOutputAmount] and [totalFees]. *)
Fixpoint quote_each (options : LiquidateOptions N)
  (tokensToLiquidate : list (TokenInfo N))
  (quotes : list (JupiterQuoteResponse N)) (totalOutputAmount totalFees : N)
  : M (World N) (list (JupiterQuoteResponse N) * N * N) :=
  match tokensToLiquidate with
  | [] => ret (quotes, totalOutputAmount, totalFees)
  | token :: rest =>
      quote <-
        getQuote (mint token) (targetToken options) (raw_amount token)
          (Some (or_default (slippageBps options) lit_50)) ;;
      quote_each options rest (quotes ++ [quote])
        (num_add totalOutputAmount
           (num_div (parseFloat E (outAmount quote))
                    (Math_pow E lit_10 (outputDecimals quote))))
        (num_add totalFees
           (num_div (parseFloat E (feeAmount quote))
                    (Math_pow E lit_10 (outputDecimals quote))))
  end.

Definition simulateLiquidation (walletAddress : string)
  (options : LiquidateOptions N) : M (World N) (SimulationResult N) :=
  try_catch
    (portfolio <- getPortfolio walletAddress ;;
     (* Filter tokens based on options *)
     let tokensToLiquidate := simulateLiquidation_tokensToLiquidate options portfolio in
     (* Calculate total input value *)
     let totalInputValue :=
       fold_left (fun sum token => num_add sum (value token)) tokensToLiquidate lit_0 in
     (* Get quotes for each token *)
     r <- quote_each options tokensToLiquidate [] lit_0 lit_0 ;;
     let '(quotes, totalOutputAmount, totalFees) := r in
     (* Calculate Porg fee (1%) *)
     let porgFee := num_mul totalOutputAmount lit_0_01 in
     (* Calculate final output amount *)
     let finalOutputAmount := num_sub totalOutputAmount porgFee in
     ret {| sim_inputTokens := tokensToLiquidate;
            sim_totalInputValue := totalInputValue;
            sim_targetToken := targetToken options;
            sim_totalOutputAmount := totalOutputAmount;
            sim_jupiterFees := totalFees;
            sim_porgFee := porgFee;
            sim_finalOutputAmount := finalOutputAmount;
            sim_quotes := quotes |})
    (fun _ => throw (Error "Failed to simulate liquidation")).

End Services.

(** ** Transaction model (models/transaction.model.ts) *)

Inductive TransactionType : Type :=
| LIQUIDATE             (* "liquidate" *)
| BRIDGE                (* "bridge" *)
| LIQUIDATE_AND_BRIDGE  (* "liquidate_and_bridge" *)
| UNKNOWN.              (* "unknown" *)

#[export] Instance TransactionType_eq_dec : EqDecision TransactionType.
Proof. solve_decision. Defined.

Record TokenLeg := {
  leg_mint : string;
  leg_symbol : string;
  leg_amount : float;
  leg_valueUsd : float;
}.

Record BridgeDetails := {
  sourceChain : string;
  targetChain : string;
  recipientAddress : string;
}.

(** The result of [parsePorgTransaction]. *)
Record ParsedPorgTransaction := {
  parsed_type : TransactionType;
  parsed_inputTokens : option (list TokenLeg);
  parsed_outputToken : option TokenLeg;
  parsed_bridgeDetails : option BridgeDetails;
}.

(** [timestamp] is the instant in milliseconds (the source keeps its
    ISO string); [status] is "confirmed" or "failed". *)
Record TransactionDetails := {
  id : string;
  type : TransactionType;
  timestamp_ms : Z;
  status : string;
  fee : float;
  inputTokens : option (list TokenLeg);
  outputToken : option TokenLeg;
  bridgeDetails : option BridgeDetails;
}.

(** web3.js [ParsedTransactionWithMeta], as far as the services read it:
    the program ids of the message's instructions, its account keys, the
    block time and [meta] ([err] set or not, and the fee). *)
Record TransactionMeta := {
  meta_err : bool;
  meta_fee : float;
}.

Record ParsedTransactionWithMeta := {
  message_instructions : list string;
  message_accountKeys : list string;
  blockTime : option Z;
  meta : option TransactionMeta;
}.

(** A row of table [transactions]; [signature] is its primary key. *)
Record TransactionRow := {
  signature : string;
  wallet_address : string;
  row_type : TransactionType;
  row_status : string;
  row_fee : float;
  row_timestamp : Z;
  input_tokens : option (list TokenLeg);
  output_token : option TokenLeg;
  bridge_details : option BridgeDetails;
  created_at : Z;
}.

(** ** Transaction parser (utils/transaction-parser.ts) *)

Definition WORMHOLE_TOKEN_BRIDGE_ID : string :=
  "wormDTUJ6AWPNvk59vGQbDvGJmqbDTdgWgAqcLBCgUb".

Definition isPorgTransaction (transaction : ParsedTransactionWithMeta) : bool :=
  (* Check if any instruction in the transaction is from the Porg program *)
  existsb (fun programId => String.eqb programId PORG_PROGRAM_ID)
    (message_instructions transaction).

Definition dummy_inputTokens : list TokenLeg :=
  [ {| leg_mint := "So11111111111111111111111111111111111111112";
       leg_symbol := "SOL";
       leg_amount := 0.5%float;
       leg_valueUsd := 5%float |};
    {| leg_mint := "EPjFWdd5AufqSSqeM2qN1xzybapC8G4wEGGkZwyTDt1v";
       leg_symbol := "USDC";
       leg_amount := 2%float;
       leg_valueUsd := 2%float |} ].

Definition dummy_outputToken : TokenLeg :=
  {| leg_mint := "EPjFWdd5AufqSSqeM2qN1xzybapC8G4wEGGkZwyTDt1v";
     leg_symbol := "USDC";
     leg_amount := 0x1.bcccccccccccdp+2%float;    (* 6.95 *)
     leg_valueUsd := 0x1.bcccccccccccdp+2%float |}.

Definition parsePorgTransaction (transaction : ParsedTransactionWithMeta)
  : ParsedPorgTransaction :=
  (* Check if it's a bridge transaction *)
  let isBridge :=
    existsb (fun programId => String.eqb programId WORMHOLE_TOKEN_BRIDGE_ID)
      (message_instructions transaction) in
  if isBridge then
    {| parsed_type := LIQUIDATE_AND_BRIDGE;
       parsed_inputTokens := Some dummy_inputTokens;
       parsed_outputToken := Some dummy_outputToken;
       parsed_bridgeDetails :=
         Some {| sourceChain := "solana";
                 targetChain := "ethereum";
                 recipientAddress := "0x1234567890123456789012345678901234567890" |} |}
  else
    {| parsed_type := LIQUIDATE;
       parsed_inputTokens := Some dummy_inputTokens;
       parsed_outputToken := Some dummy_outputToken;
       parsed_bridgeDetails := None |}.

(** ** Transaction service (services/transaction.service.ts) *)

(** The database as the transaction service meets it.
    - [select_transaction_ok signature] tells whether
      [select("*").eq("signature", signature).single()] comes back
      without an error, [select_created_at_ok signature] the same of
      [select("created_at").eq("signature", signature).single()], and
      [select_history_ok walletAddress] of the history query.
    - [upsert_transactions_ok row] tells whether the upsert of [row] is
      accepted.
    - [fee_NUMERIC_20_8 x] is the number the NUMERIC(20, 8) column [fee]
      gives back for [x], and [JSONB_amount x] the number a JSONB
      column gives back for [x]. *)
Record Supabase := {
  select_transaction_ok : string -> bool;
  select_created_at_ok : string -> bool;
  select_history_ok : string -> bool;
  upsert_transactions_ok : TransactionRow -> bool;
  fee_NUMERIC_20_8 : float -> float;
  JSONB_amount : float -> float;
}.

(** A leg as a JSONB column gives it back. *)
Definition JSONB_leg (db : Supabase) (leg : TokenLeg) : TokenLeg :=
  {| leg_mint := leg_mint leg;
     leg_symbol := leg_symbol leg;
     leg_amount := JSONB_amount db (leg_amount leg);
     leg_valueUsd := JSONB_amount db (leg_valueUsd leg) |}.

(** A row as table [transactions] keeps it. *)
Definition stored_transaction (db : Supabase) (row : TransactionRow) : TransactionRow :=
  {| signature := signature row;
     wallet_address := wallet_address row;
     row_type := row_type row;
     row_status := row_status row;
     row_fee := fee_NUMERIC_20_8 db (row_fee row);
     row_timestamp := row_timestamp row;
     input_tokens := map (JSONB_leg db) <$> input_tokens row;
     output_token := JSONB_leg db <$> output_token row;
     bridge_details := bridge_details row;
     created_at := created_at row |}.

(** INSERT ... ON CONFLICT on the primary key [signature] DO UPDATE. *)
Fixpoint upsert_transactions (row : TransactionRow) (rows : list TransactionRow)
  : list TransactionRow :=
  match rows with
  | [] => [row]
  | r :: rest =>
      if String.eqb (signature r) (signature row) then row :: rest
      else r :: upsert_transactions row rest
  end.

(** [const { error } = await supabase.from("transactions").upsert(row)]:
    the answer is whether the write came back with an error; a refused
    write leaves the table as it is. *)
Definition supabase_upsert (db : Supabase) (row : TransactionRow)
  : M (list TransactionRow) bool :=
  fun rows =>
    if upsert_transactions_ok db row
    then (Normal false, upsert_transactions (stored_transaction db row) rows)
    else (Normal true, rows).

(** [now] is the reading of the clock for [created_at]. *)
Definition saveTransactionToDb (db : Supabase) (now : Z)
  (transaction : TransactionDetails) (walletAddress : string)
  : M (list TransactionRow) unit :=
  try_catch
    (error <-
       supabase_upsert db
         {| signature := id transaction;
            wallet_address := walletAddress;
            row_type := type transaction;
            row_status := status transaction;
            row_fee := fee transaction;
            row_timestamp := timestamp_ms transaction;
            input_tokens := inputTokens transaction;
            output_token := outputToken transaction;
            bridge_details := bridgeDetails transaction;
            created_at := now |} ;;
     if error : bool
     then (* console.error("Error saving transaction to database:", error) *) ret tt
     else ret tt)
    (fun _ => ret tt).

Definition mapDbTransactionToTransactionDetails (dbTransaction : TransactionRow)
  : TransactionDetails :=
  {| id := signature dbTransaction;
     type := row_type dbTransaction;
     timestamp_ms := row_timestamp dbTransaction;
     status := row_status dbTransaction;
     fee := row_fee dbTransaction;
     inputTokens := input_tokens dbTransaction;
     outputToken := output_token dbTransaction;
     bridgeDetails := bridge_details dbTransaction |}.

(** The row of [.eq("signature", id).single()]: the row when there is
    exactly one. *)
Definition select_transaction (transactionId : string) (rows : list TransactionRow)
  : option TransactionRow :=
  match List.filter (fun r => String.eqb (signature r) transactionId) rows with
  | [r] => Some r
  | _ => None
  end.

(** [const { data: dbTransaction, error } = await supabase...single()]
    under [dbTransaction && !error]. *)
Definition dbTransaction (db : Supabase) (transactionId : string)
  (rows : list TransactionRow) : option TransactionRow :=
  if select_transaction_ok db transactionId
  then select_transaction transactionId rows
  else None.

(** [transaction.meta?.err ? "failed" : "confirmed"]. *)
Definition status_of (transaction : ParsedTransactionWithMeta) : string :=
  match meta transaction with
  | Some m => if meta_err m then "failed" else "confirmed"
  | None => "confirmed"
  end.

(** [transaction.meta?.fee || 0]. *)
Definition fee_of (transaction : ParsedTransactionWithMeta) : float :=
  or_default (meta_fee <$> meta transaction) 0%float.

(** [new Date(transaction.blockTime! * 1000)]. *)
Definition timestamp_of (transaction : ParsedTransactionWithMeta) : Z :=
  default 0 (blockTime transaction) * 1000.

(** The type [getTransactionDetails] gives a transaction fetched from
    the chain. *)
Definition classify (transaction : ParsedTransactionWithMeta) : TransactionType :=
  if negb (isPorgTransaction transaction) then UNKNOWN
  else parsed_type (parsePorgTransaction transaction).

(** [connection_getTransaction] is the chain collaborator: [None] when
    the call throws, [Some None] when the transaction is not found. *)
Definition getTransactionDetails (db : Supabase) (now : Z)
  (connection_getTransaction : string -> option (option ParsedTransactionWithMeta))
  (transactionId : string) : M (list TransactionRow) (option TransactionDetails) :=
  try_catch
    ((* First check if we have the transaction in our database *)
     rows <- gets (fun rows => rows) ;;
     match dbTransaction db transactionId rows with
     | Some dbTransaction => ret (Some (mapDbTransactionToTransactionDetails dbTransaction))
     | None =>
         (* If not in database, fetch from Solana *)
         found <- call (connection_getTransaction transactionId) (Error "Request failed") ;;
         match found with
         | None => ret None
         | Some transaction =>
             (* Check if it's a Porg transaction *)
             if negb (isPorgTransaction transaction) then
               ret (Some {| id := transactionId;
                            type := UNKNOWN;
                            timestamp_ms := timestamp_of transaction;
                            status := status_of transaction;
                            fee := fee_of transaction;
                            inputTokens := None;
                            outputToken := None;
                            bridgeDetails := None |})
             else
               (* Parse Porg transaction *)
               let parsedTransaction := parsePorgTransaction transaction in
               let txDetails :=
                 {| id := transactionId;
                    type := parsed_type parsedTransaction;
                    timestamp_ms := timestamp_of transaction;
                    status := status_of transaction;
                    fee := fee_of transaction;
                    inputTokens := parsed_inputTokens parsedTransaction;
                    outputToken := parsed_outputToken parsedTransaction;
                    bridgeDetails := parsed_bridgeDetails parsedTransaction |} in
               (* Save transaction to database *)
               walletAddress <-
                 call (head (message_accountKeys transaction))
                   (Error "Cannot read properties of undefined") ;;
               (saveTransactionToDb db now txDetails walletAddress ;;;
                ret (Some txDetails))
         end
     end)
    (fun _ => throw (Error "Failed to get transaction details")).

(** ** Further models (models/jupiter.model.ts, models/wormhole.model.ts,
    models/liquidate.model.ts) *)

Set Implicit Arguments.
Set Maximal Implicit Insertion.

(** [JupiterBatchSwapParams]. *)
Record JupiterBatchSwapParams (N : Type) := {
  batch_walletAddress : string;
  batch_tokenMints : list string;
  batch_targetMint : string;
  batch_slippageBps : option N;
}.

(** The [JupiterSwapResponse] of a batch swap; [totalOutputAmount] is
    the BigInt whose decimal string the source returns, and [route] is
    [quotes[0]], undefined when there is no quote. *)
Record JupiterBatchSwapResponse (N : Type) := {
  batch_route : option (JupiterQuoteResponse N);
  batch_instructions : list TransactionInstruction;
  batch_totalOutputAmount : Z;
}.

(** [WormholeBridgeParams]. *)
Record WormholeBridgeParams := {
  wb_walletAddress : string;
  wb_tokenMint : string;
  wb_amount : string;
  wb_targetChain : string;
  wb_recipientAddress : string;
}.

(** [WormholeBridgeResponse]. *)
Record WormholeBridgeResponse := {
  wr_instructions : list TransactionInstruction;
  wr_sourceChain : string;
  wr_targetChain : string;
  wr_tokenMint : string;
  wr_amount : string;
  wr_recipientAddress : string;
}.

(** [BridgeOptions]. *)
Record BridgeOptions := {
  bo_targetChain : string;
  bo_recipientAddress : string;
}.

Unset Maximal Implicit Insertion.
Unset Implicit Arguments.

(** [await Promise.all(l.map(f))] for calls that leave the world alone
    or touch disjoint parts of it (so that the order in which they
    interleave does not matter): the results in the order of [l], or
    the failure of a call.  In the source the calls after a failing one
    still run; the world given with a failure is the one at the
    failure. *)
Fixpoint Promise_all {W A B} (f : A -> M W B) (l : list A) : M W (list B) :=
  match l with
  | [] => ret []
  | a :: rest =>
      b <- f a ;;
      bs <- Promise_all f rest ;;
      ret (b :: bs)
  end.

(** ** web3.js [PublicKey] and the validators (utils/validators.ts)

    [new PublicKey(s)] on a string decodes it as base 58 and throws
    unless the decoding is 32 bytes long. *)

Definition base58_alphabet : string :=
  "123456789ABCDEFGHJKLMNPQRSTUVWXYZabcdefghijkmnopqrstuvwxyz".

Fixpoint index_in (c : ascii) (alphabet : string) (i : Z) : option Z :=
  match alphabet with
  | EmptyString => None
  | String a rest => if Ascii.eqb a c then Some i else index_in c rest (i + 1)
  end.

Definition base58_digit (c : ascii) : option Z := index_in c base58_alphabet 0.

(** The base-58 digits of a string; [None] when a character is outside
    the alphabet (the decoder throws). *)
Fixpoint base58_digits (s : string) : option (list Z) :=
  match s with
  | EmptyString => Some []
  | String c rest =>
      d ← base58_digit c;
      ds ← base58_digits rest;
      Some (d :: ds)
  end.

(** The leading '1's of the string, each decoded as one zero byte. *)
Fixpoint leading_zeros (ds : list Z) : nat :=
  match ds with
  | d :: rest => if d =? 0 then S (leading_zeros rest) else O
  | [] => O
  end.

Definition base58_value (ds : list Z) : Z :=
  fold_left (fun acc d => acc * 58 + d) ds 0.

(** The number of bytes of the big-endian encoding of a number. *)
Definition byte_length (n : Z) : nat :=
  if n <=? 0 then O else S (Z.to_nat (Z.log2 n / 8)).

(** [bs58.decode(s).length]. *)
Definition bs58_decode_length (s : string) : option nat :=
  ds ← base58_digits s;
  Some (leading_zeros ds + byte_length (base58_value ds))%nat.

(** Whether [new PublicKey(s)] returns. *)
Definition PublicKey_accepts (s : string) : bool :=
  match bs58_decode_length s with
  | Some n => (n =? 32)%nat
  | None => false
  end.

Definition in_range (lo hi c : ascii) : bool :=
  (nat_of_ascii lo <=? nat_of_ascii c)%nat && (nat_of_ascii c <=? nat_of_ascii hi)%nat.

(** The character class [1-9A-HJ-NP-Za-km-z]. *)
Definition base58_class (c : ascii) : bool :=
  in_range "1" "9" c || in_range "A" "H" c || in_range "J" "N" c
  || in_range "P" "Z" c || in_range "a" "k" c || in_range "m" "z" c.

(** [/^[1-9A-HJ-NP-Za-km-z]{88}$/.test(signature)]. *)
Definition validateTransactionSignature (signature : string) : bool :=
  (String.length signature =? 88)%nat
  && forallb base58_class (list_ascii_of_string signature).

(** ** Portfolio service: dust tokens *)

Section MoreServices.
Context {N : Type} `{JsNumber N} (E : Env N).

(** [minValueUsd] is the optional argument, 1.0 when it is left out. *)
Definition getDustTokens (walletAddress : string) (minValueUsd : option N)
  : M (World N) (list (TokenInfo N)) :=
  try_catch
    (portfolio <- getPortfolio E walletAddress ;;
     (* Filter tokens with value less than minValueUsd *)
     let dustTokens :=
       List.filter (fun token => num_lt (value token) (default lit_1 minValueUsd))
         (tokens portfolio) in
     ret dustTokens)
    (fun _ => throw (Error "Failed to get dust tokens")).

(** ** Jupiter service: batch swap *)

(** The accounts of the wallet; the [address] of an account is left out
    (no caller reads it). *)
Definition getTokenAccounts (walletAddress : string)
  : M (World N) (list (ParsedTokenAccount N)) :=
  try_catch
    (publicKey <- new_PublicKey E walletAddress ;;
     call (getParsedTokenAccountsByOwner E publicKey) (Error "Request failed"))
    (fun _ => throw (Error "Failed to get token accounts")).

(** [(account.amount * Math.pow(10, account.decimals)).toString()] for an
    account with an amount. *)
Definition account_raw_amount (account : ParsedTokenAccount N) : string :=
  Number_toString E
    (num_mul (default lit_0 (uiAmount account))
       (Math_pow E lit_10 (tokenAmount_decimals account))).

(** The filter of [createBatchSwapTransaction]. *)
Definition accountsToSwap (params : JupiterBatchSwapParams N)
  (tokenAccounts : list (ParsedTokenAccount N)) : list (ParsedTokenAccount N) :=
  List.filter
    (fun account =>
       existsb (String.eqb (info_mint account)) (batch_tokenMints params)
       && match uiAmount account with
          | Some amount => num_gt amount lit_0
          | None => false
          end)
    tokenAccounts.

(** [quotes.reduce((sum, quote) => sum + BigInt(quote.outAmount), BigInt(0))];
    [None] when a [BigInt] conversion throws. *)
Definition batch_total (quotes : list (JupiterQuoteResponse N)) : option Z :=
  fold_left
    (fun sum quote =>
       match sum with
       | Some sum => match BigInt (outAmount quote) with
                     | Some v => Some (sum + v)
                     | None => None
                     end
       | None => None
       end)
    quotes (Some 0).

Definition createBatchSwapTransaction (params : JupiterBatchSwapParams N)
  : M (World N) (JupiterBatchSwapResponse N) :=
  try_catch
    ((* Get token accounts *)
     tokenAccounts <- getTokenAccounts (batch_walletAddress params) ;;
     (* Filter token accounts by mints we want to swap *)
     let accountsToSwap := accountsToSwap params tokenAccounts in
     (* Get quotes for each token *)
     quotes <-
       Promise_all
         (fun account =>
            getQuote E (info_mint account) (batch_targetMint params)
              (account_raw_amount account) (batch_slippageBps params))
         accountsToSwap ;;
     (* Create swap transactions for each quote *)
     swapTransactions <-
       Promise_all
         (fun account =>
            createSwapTransaction E (batch_walletAddress params) (info_mint account)
              (batch_targetMint params) (account_raw_amount account)
              (batch_slippageBps params))
         accountsToSwap ;;
     (* Combine all instructions *)
     let allInstructions := concat (map snd swapTransactions) in
     (* Calculate total output amount *)
     totalOutputAmount <-
       call (batch_total quotes) (Error "Cannot convert to a BigInt") ;;
     ret {| batch_route := head quotes; (* Just use the first quote for simplicity *)
            batch_instructions := allInstructions;
            batch_totalOutputAmount := totalOutputAmount |})
    (fun _ => throw (Error "Failed to create batch swap transaction")).

(** ** Wormhole service: the bridge instruction *)

(** [WormholeService.getWormholeAccounts]: the [bridgeId], the
    [tokenBridgeId] and the [wormholeProgramId]. *)
Definition getWormholeAccounts : M (World N) (string * string * string) :=
  bridgeId <- new_PublicKey E "worm2ZoG2kUd4vFXhvjh93UUH596ayRfgQ2MgjNMTth" ;;
  tokenBridgeId <- new_PublicKey E "wormDTUJ6AWPNvk59vGQbDvGJmqbDTdgWgAqcLBCgUb" ;;
  wormholeProgramId <- new_PublicKey E "WormT3McKhFJ2RkiGpdw9GKvqEciMFk3oMZad44k7uGN" ;;
  ret (bridgeId, tokenBridgeId, wormholeProgramId).

Definition createBridgeTransaction (params : WormholeBridgeParams)
  : M (World N) WormholeBridgeResponse :=
  try_catch
    ((* Find token account *)
     publicKey <- new_PublicKey E (wb_walletAddress params) ;;
     mintPublicKey <- new_PublicKey E (wb_tokenMint params) ;;
     tokenAccounts <-
       call (getTokenAccountsByMint E publicKey mintPublicKey)
         (Error "Request failed") ;;
     match tokenAccounts with
     | [] => throw (Error "Token account not found")
     | sourceTokenAccount :: _ =>
         (* Get Wormhole program accounts *)
         wormholeAccounts <- getWormholeAccounts ;;
         let '(bridgeId, tokenBridgeId, wormholeProgramId) := wormholeAccounts in
         (* Create bridge instruction *)
         let bridgeInstruction :=
           {| programId := tokenBridgeId;
              keys := [ {| pubkey := publicKey; isSigner := true; isWritable := true |};
                        {| pubkey := sourceTokenAccount; isSigner := false; isWritable := true |};
                        {| pubkey := wormholeProgramId; isSigner := false; isWritable := false |} ];
              data := [] |} in
         ret {| wr_instructions := [bridgeInstruction];
                wr_sourceChain := "solana";
                wr_targetChain := wb_targetChain params;
                wr_tokenMint := wb_tokenMint params;
                wr_amount := wb_amount params;
                wr_recipientAddress := wb_recipientAddress params |}
     end)
    (fun _ => throw (Error "Failed to create bridge transaction")).

(** ** Liquidate service: liquidation followed by a bridge *)

(** The planner's transaction is serialised and read back by the source
    before the bridge instructions are added; it is taken here as the
    planner built it. *)
Definition createLiquidateWithBridgeTransaction (walletAddress : string)
  (options : LiquidateOptions N) (bridgeOptions : BridgeOptions)
  : M (World N) Transaction :=
  try_catch
    ((* First create the liquidation transaction *)
     liquidateTransaction <- createLiquidateTransaction E walletAddress options ;;
     (* Create bridge transaction *)
     bridgeTransaction <-
       createBridgeTransaction
         {| wb_walletAddress := walletAddress;
            wb_tokenMint := targetToken options;
            wb_amount := "0"; (* This will be updated after liquidation *)
            wb_targetChain := bo_targetChain bridgeOptions;
            wb_recipientAddress := bo_recipientAddress bridgeOptions |} ;;
     (* Add bridge instructions to transaction *)
     ret {| instructions :=
              instructions liquidateTransaction ++ wr_instructions bridgeTransaction;
            recentBlockhash := recentBlockhash liquidateTransaction;
            feePayer := feePayer liquidateTransaction |})
    (fun _ => throw (Error "Failed to create liquidation with bridge transaction")).

End MoreServices.

(** ** Transaction service: history *)

(** [TransactionHistory]. *)
Record TransactionHistory := {
  transactions : list TransactionDetails;
  hasMore : bool;
}.

(** A string read as a condition: the empty string is false. *)
Definition string_truthy (s : string) : bool := negb (String.eqb s "").

(** [.order("created_at", { ascending: false })]: the rows by decreasing
    [created_at]; rows created at the same instant, whose order the
    database leaves open, keep the order of the table. *)
Fixpoint insert_by_created_at (r : TransactionRow) (l : list TransactionRow)
  : list TransactionRow :=
  match l with
  | [] => [r]
  | b :: l' =>
      if created_at r <? created_at b then b :: insert_by_created_at r l'
      else r :: b :: l'
  end.

Definition order_by_created_at_desc (rows : list TransactionRow) : list TransactionRow :=
  fold_right insert_by_created_at [] rows.

(** The query of [getTransactionHistory]:
    [.eq("wallet_address", walletAddress).order("created_at", desc).limit(limit)],
    with [.lt("created_at", t)] when [lt_created_at] is [Some t]. *)
Definition select_history (walletAddress : string) (limit : nat)
  (lt_created_at : option Z) (rows : list TransactionRow) : list TransactionRow :=
  take limit
    (order_by_created_at_desc
       (List.filter
          (fun r =>
             String.eqb (wallet_address r) walletAddress
             && match lt_created_at with
                | Some t => created_at r <? t
                | None => true
                end)
          rows)).

(** The callback of the history's [Promise.all] for one signature;
    [now] is the clock at the save inside [getTransactionDetails] and
    [now'] the clock at the save of the callback. *)
Definition history_entry (db : Supabase) (now now' : Z)
  (connection_getTransaction : string -> option (option ParsedTransactionWithMeta))
  (walletAddress sig : string) : M (list TransactionRow) (option TransactionDetails) :=
  txDetails <- getTransactionDetails db now connection_getTransaction sig ;;
  (* Save transaction to database if it's a Porg transaction *)
  match txDetails with
  | Some details =>
      if negb (bool_decide (type details = UNKNOWN))
      then saveTransactionToDb db now' details walletAddress ;;; ret txDetails
      else ret txDetails
  | None => ret txDetails
  end.

(** [limit] is a count, 10 when it is left out; [clock sig] are the two
    readings of the clock in the callback of signature [sig];
    [connection_getSignaturesForAddress publicKey limit before] is
    [None] when the call throws. *)
Definition getTransactionHistory (db : Supabase) (clock : string -> Z * Z)
  (isPublicKey : string -> bool)
  (connection_getSignaturesForAddress :
     string -> nat -> option string -> option (list string))
  (connection_getTransaction : string -> option (option ParsedTransactionWithMeta))
  (walletAddress : string) (limit : option nat) (before : option string)
  : M (list TransactionRow) TransactionHistory :=
  let limit := default 10%nat limit in
  let before := match before with
                | Some b => if string_truthy b then Some b else None
                | None => None
                end in
  try_catch
    ((* First check if we have the transaction in our database *)
     rows <- gets (fun rows => rows) ;;
     (* Get the timestamp of the 'before' transaction *)
     let beforeTx :=
       before ≫= (fun b =>
         if select_created_at_ok db b then select_transaction b rows else None) in
     dbTransactions <-
       (if select_history_ok db walletAddress
        then ret (select_history walletAddress limit (created_at <$> beforeTx) rows)
        else
          (* console.error("Error fetching transactions from database:", error) *)
          throw (Error "Failed to fetch transaction history from database")) ;;
     (* If we have enough transactions in the database, return them *)
     if (limit <=? length dbTransactions)%nat then
       let transactions := map mapDbTransactionToTransactionDetails dbTransactions in
       ret {| transactions := transactions;
              hasMore := (length transactions =? limit)%nat |}
     else
       (* Otherwise, fetch from Solana *)
       publicKey <-
         (if isPublicKey walletAddress then ret walletAddress
          else throw (Error "Invalid public key input")) ;;
       before <-
         match before with
         | Some b =>
             if isPublicKey b then ret (Some b)
             else throw (Error "Invalid public key input")
         | None => ret None
         end ;;
       (* Get signatures for the wallet *)
       signatures <-
         call (connection_getSignaturesForAddress publicKey limit before)
           (Error "Request failed") ;;
       (* Get transaction details for each signature *)
       transactions <-
         Promise_all
           (fun sig =>
              history_entry db (fst (clock sig)) (snd (clock sig))
                connection_getTransaction walletAddress sig)
           signatures ;;
       (* Filter out null transactions and only include Porg transactions *)
       let porgTransactions :=
         omap (fun tx =>
                 match tx with
                 | Some details =>
                     if negb (bool_decide (type details = UNKNOWN)) then Some details
                     else None
                 | None => None
                 end)
           transactions in
       ret {| transactions := porgTransactions;
              hasMore := (length signatures =? limit)%nat |})
    (fun _ => throw (Error "Failed to get transaction history")).

(** ** Database maintenance (database/schema.sql, [cleanup_old_cache]) *)

Definition ONE_DAY : Z := 24 * 60 * 60 * 1000.

(** [ROW_NUMBER() OVER (PARTITION BY mint ORDER BY updated_at DESC)] of
    a row of [token_prices]: one more than the number of rows of its
    mint updated later.  (The table's UNIQUE(mint, updated_at) leaves no
    two rows of a mint at one instant.) *)
Definition row_num {N} (rows : list (TokenPriceRow N)) (r : TokenPriceRow N) : nat :=
  S (length
       (List.filter
          (fun r' =>
             String.eqb (tp_mint r') (tp_mint r)
             && (tp_updated_at r <? tp_updated_at r'))
          rows)).

(** [now] is the database's [NOW()]. *)
Definition cleanup_old_cache {N} (now : Z) (w : World N) : World N :=
  {| tokenPriceCache := tokenPriceCache w;
     (* Keep only the most recent 10 price entries per token *)
     token_prices :=
       List.filter (fun r => negb (10 <? row_num (token_prices w) r)%nat)
         (token_prices w);
     (* Delete portfolio cache entries older than 1 day *)
     portfolio_cache :=
       List.filter (fun r => negb (pc_created_at r <? now - ONE_DAY))
         (portfolio_cache w);
     price_api_calls := price_api_calls w |}.

(** ** Connection utility (utils/connection.ts) *)




(** ** Token metadata (utils/token-metadata.ts) *)

Module TokenMetadataUtil.

(** A row of table [token_metadata]; [mint] is its primary key and
    [decimals] an INTEGER column. *)
Record TokenMetadataRow := {
  tm_mint : string;
  tm_symbol : string;
  tm_name : string;
  tm_icon : option string;
  tm_decimals : Z;
  tm_updated_at : Z;
}.

(** The module's in-memory cache (its keys are token mints), the table,
    and the log of the requests to the token registry. *)
Record MetadataWorld := {
  tokenMetadataCache : gmap string (TokenMetadata float);
  token_metadata : list TokenMetadataRow;
  registry_calls : list string;
}.

(** The integer a number stands for, when it is one. *)
Definition integer_of (f : float) : option Z :=
  match Prim2SF f with
  | S754_zero _ => Some 0
  | S754_finite s m e =>
      let magnitude :=
        if 0 <=? e then Some (Z.pos m * 2 ^ e)
        else if Z.pos m mod 2 ^ (- e) =? 0 then Some (Z.pos m / 2 ^ (- e))
        else None in
      (fun v => if s then - v else v) <$> magnitude
  | _ => None
  end.

(** What an INTEGER column takes of a number. *)
Definition to_INTEGER (f : float) : option Z :=
  v ← integer_of f;
  if (- 2 ^ 31 <=? v) && (v <? 2 ^ 31) then Some v else None.

(** The number read back from an INTEGER column. *)
Definition of_INTEGER (v : Z) : float :=
  if v <? 0 then PrimFloat.opp (PrimFloat.of_uint63 (Uint63.of_Z (- v)))
  else PrimFloat.of_uint63 (Uint63.of_Z v).

(** The row of [select("*").eq("mint", mint).single()]: the row when
    there is exactly one. *)
Definition select_token_metadata (mint : string) (rows : list TokenMetadataRow)
  : option TokenMetadataRow :=
  match List.filter (fun r => String.eqb (tm_mint r) mint) rows with
  | [r] => Some r
  | _ => None
  end.

(** The database as the resolver meets it: whether the query for a
    mint comes back without an error, and whether the database takes
    the insert for a mint. *)
Record MetadataTable := {
  select_token_metadata_ok : string -> bool;
  insert_token_metadata_ok : string -> bool;
}.

(** [const { data: cachedToken, error } = await supabase...single()]
    under [cachedToken && !error]. *)
Definition cachedToken (db : MetadataTable) (mint : string)
  (rows : list TokenMetadataRow) : option TokenMetadataRow :=
  if select_token_metadata_ok db mint then select_token_metadata mint rows else None.

(** [supabase.from("token_metadata").insert(row)]: refused, with an
    error the caller does not read, when the database does not take
    the write, when [decimals] is no INTEGER or when the primary key is
    taken. *)
Definition insert_token_metadata (db : MetadataTable) (now : Z) (mint : string)
  (metadata : TokenMetadata float) : M MetadataWorld unit :=
  modify (fun w =>
    match to_INTEGER (md_decimals metadata) with
    | Some decimals =>
        if negb (insert_token_metadata_ok db mint)
           || existsb (fun r => String.eqb (tm_mint r) mint) (token_metadata w) then w
        else
          {| tokenMetadataCache := tokenMetadataCache w;
             token_metadata :=
               token_metadata w ++
               [{| tm_mint := mint;
                   tm_symbol := md_symbol metadata;
                   tm_name := md_name metadata;
                   tm_icon := md_icon metadata;
                   tm_decimals := decimals;
                   tm_updated_at := now |}];
             registry_calls := registry_calls w |}
    | None => w
    end).

Definition set_tokenMetadataCache (mint : string) (metadata : TokenMetadata float)
  : M MetadataWorld unit :=
  modify (fun w =>
    {| tokenMetadataCache := <[mint := metadata]> (tokenMetadataCache w);
       token_metadata := token_metadata w;
       registry_calls := registry_calls w |}).

(** [axios.get] on the token registry: the request is logged, and it
    throws when [token_registry] has no answer. *)
Definition axios_get_registry (token_registry : string -> option (TokenMetadata float))
  (mint : string) : M MetadataWorld (TokenMetadata float) :=
  modify (fun w =>
    {| tokenMetadataCache := tokenMetadataCache w;
       token_metadata := token_metadata w;
       registry_calls := registry_calls w ++ [mint] |}) ;;;
  call (token_registry mint) (Error "Request failed").

(** The default metadata of the [catch] block. *)
Definition defaultMetadata : TokenMetadata float :=
  {| md_symbol := "UNKNOWN";
     md_name := "Unknown Token";
     md_icon := None;
     md_decimals := 9%float |}.

(** [now] is the clock at the insert; [token_registry] answers with the
    [symbol], [name], [logoURI] and [decimals] of its response. *)
Definition getTokenMetadata (db : MetadataTable) (now : Z)
  (token_registry : string -> option (TokenMetadata float)) (mint : string)
  : M MetadataWorld (TokenMetadata float) :=
  (* Check in-memory cache first *)
  cache <- gets tokenMetadataCache ;;
  match cache !! mint with
  | Some metadata => ret metadata
  | None =>
      try_catch
        ((* Check database cache *)
         rows <- gets token_metadata ;;
         match cachedToken db mint rows with
         | Some cachedToken =>
             let metadata :=
               {| md_symbol := tm_symbol cachedToken;
                  md_name := tm_name cachedToken;
                  md_icon := tm_icon cachedToken;
                  md_decimals := of_INTEGER (tm_decimals cachedToken) |} in
             (* Update in-memory cache *)
             set_tokenMetadataCache mint metadata ;;;
             ret metadata
         | None =>
             (* Fetch from token registry if not in cache *)
             response <- axios_get_registry token_registry mint ;;
             let metadata :=
               {| md_symbol := md_symbol response;
                  md_name := md_name response;
                  md_icon := md_icon response;
                  md_decimals := md_decimals response |} in
             (* Cache in database *)
             insert_token_metadata db now mint metadata ;;;
             (* Update in-memory cache *)
             set_tokenMetadataCache mint metadata ;;;
             ret metadata
         end)
        (fun _ =>
           (* Return default metadata if not found *)
           ret defaultMetadata)
  end.

End TokenMetadataUtil.

(** ** Vocabulary of the properties

    The notions the specification speaks with, each defined on the
    embedding: freshness of the cached prices, the worlds a price lookup
    leaves, the request and the scaled amounts of a quote, the holdings
    of a valuation, the instruction of a swap, the selection rule and
    the aggregate threshold as the specification words them, and the
    key set of the transactions table. *)

Section Vocabulary.
Context {N : Type} `{JsNumber N} (E : Env N).

(** The in-memory entry of the token is younger than the freshness
    window. *)
Definition memory_fresh (w : World N) (mint : string) : bool :=
  match tokenPriceCache w !! mint with
  | Some entry => Date_now E - timestamp entry <? CACHE_EXPIRATION
  | None => false
  end.

(** The persistent store answers the query for the token, and some row
    of the token is younger than the freshness window. *)
Definition store_fresh (w : World N) (mint : string) : bool :=
  select_token_prices_ok E mint
  && existsb
       (fun r => String.eqb (tp_mint r) mint
                 && (Date_now E - tp_updated_at r <? CACHE_EXPIRATION))
       (token_prices w).

(** The world after a call to the origin was logged. *)
Definition logged (mint : string) (w : World N) : World N :=
  {| tokenPriceCache := tokenPriceCache w;
     token_prices := token_prices w;
     portfolio_cache := portfolio_cache w;
     price_api_calls := price_api_calls w ++ [mint] |}.

(** The store takes a price of the token at the instant of the write:
    the database accepts the row and holds no row of the token at that
    instant. *)
Definition price_accepted (mint : string) (p : N) (w : World N) : bool :=
  upsert_token_prices_ok E
    {| tp_mint := mint; tp_price := p; tp_updated_at := new_Date E |}
  && negb (existsb (fun r => String.eqb (tp_mint r) mint
                             && (tp_updated_at r =? new_Date E))
             (token_prices w)).

(** The world after the origin answered [p]: the call is logged, the
    price is cached in memory and, when the store takes it, stored as
    the column keeps it. *)
Definition fetched (mint : string) (p : N) (w : World N) : World N :=
  {| tokenPriceCache :=
       <[mint := {| price := p; timestamp := Date_now E |}]> (tokenPriceCache w);
     token_prices :=
       if price_accepted mint p w
       then token_prices w ++
            [{| tp_mint := mint; tp_price := NUMERIC_20_8 E p;
                tp_updated_at := new_Date E |}]
       else token_prices w;
     portfolio_cache := portfolio_cache w;
     price_api_calls := price_api_calls w ++ [mint] |}.

(** What the [catch] block of [getTokenPrice] returns. *)
Definition fallback_price (w : World N) (mint : string) : N :=
  match tokenPriceCache w !! mint with
  | Some entry => price entry
  | None => lit_1
  end.

(** The latest cached snapshot of the wallet is younger than five
    minutes: [getPortfolio] returns it without valuing anything. *)
Definition portfolio_cache_hit (w : World N) (walletAddress : string) : bool :=
  match cachedPortfolio E walletAddress (portfolio_cache w) with
  | Some cachedPortfolio => Date_now E - pc_created_at cachedPortfolio <? 5 * 60 * 1000
  | None => false
  end.

(** The request [simulateLiquidation] and [createLiquidateTransaction]
    make for a token. *)
Definition quote_request (options : LiquidateOptions N) (token : TokenInfo N)
  : JupiterQuoteParams N :=
  {| qp_inputMint := mint token;
     qp_outputMint := targetToken options;
     qp_amount := raw_amount E token;
     qp_slippageBps := or_default (Some (or_default (slippageBps options) lit_50)) lit_50 |}.

(** [quote.outAmount] scaled by the quote's output decimals. *)
Definition scaled_outAmount (quote : JupiterQuoteResponse N) : N :=
  num_div (parseFloat E (outAmount quote)) (Math_pow E lit_10 (outputDecimals quote)).

Definition scaled_feeAmount (quote : JupiterQuoteResponse N) : N :=
  num_div (parseFloat E (feeAmount quote)) (Math_pow E lit_10 (outputDecimals quote)).

(** The sum over the quotes, in their order, of the scaled output
    amounts. *)
Definition gross_output (quotes : list (JupiterQuoteResponse N)) : N :=
  fold_left (fun sum quote => num_add sum (scaled_outAmount quote)) quotes lit_0.

End Vocabulary.

(** The account holds a balance above zero, the accounts the valuation
    keeps. *)
Definition positive_balance {N} `{JsNumber N} (account : ParsedTokenAccount N) : bool :=
  match uiAmount account with
  | Some balance => num_gt balance lit_0
  | None => false
  end.

(** The holding values the account: it has the account's mint and
    balance, and its value is a price times the balance. *)
Definition holding_of {N} `{JsNumber N} (account : ParsedTokenAccount N)
  (token : TokenInfo N) : Prop :=
  mint token = info_mint account
  /\ uiAmount account = Some (balance token)
  /\ exists price, value token = num_mul price (balance token).

(** The weight of a value in a total: the value divided by the total,
    times 100, when the total is above zero, and 0 otherwise. *)
Definition weight_in {N} `{JsNumber N} (totalValue value : N) : N :=
  if num_gt totalValue lit_0
  then num_mul (num_div value totalValue) lit_100
  else lit_0.

(** The dummy instruction [createSwapTransaction] returns. *)
Definition jupiter_instruction : TransactionInstruction :=
  {| programId := JUPITER_PROGRAM_ID; keys := []; data := [] |}.

(** The selection as the specification words it: a holding is selected
    unless it is the target token, or dust is not included and its value
    is below [minDustValue], 1.0 when none is given. *)
Definition selection_rule {N} `{JsNumber N} (options : LiquidateOptions N)
  (portfolio : Portfolio N) : list (TokenInfo N) :=
  List.filter
    (fun token =>
       negb (String.eqb (mint token) (targetToken options))
       && (includeDust options
           || negb (num_lt (value token) (default lit_1 (minTokenValueUsd options)))))
    (tokens portfolio).

(** The minimum acceptable aggregate output as the specification words
    it: the sum of the quotes' worst-case thresholds. *)
Definition sum_of_thresholds {N} (jupiterRoutes : list (JupiterQuoteResponse N))
  : option Z :=
  fold_left
    (fun sum route =>
       match sum, BigInt (otherAmountThreshold route) with
       | Some s, Some v => Some (s + v)
       | _, _ => None
       end)
    jupiterRoutes (Some 0).

(** The signatures of the stored rows, in table order. *)
Definition signatures (rows : list TransactionRow) : list string :=
  map signature rows.

(** The number of stored rows with a signature. *)
Definition stored_count (sig : string) (rows : list TransactionRow) : nat :=
  length (List.filter (fun r => String.eqb (signature r) sig) rows).


(** The stored prices of a token, in table order. *)
Definition price_history {N} (mint : string) (rows : list (TokenPriceRow N))
  : list (TokenPriceRow N) :=
  List.filter (fun r => String.eqb (tp_mint r) mint) rows.

(** The constraint UNIQUE(mint, updated_at) of table [token_prices]. *)
Definition unique_price_times {N} (rows : list (TokenPriceRow N)) : Prop :=
  NoDup (map (fun r => (tp_mint r, tp_updated_at r)) rows).

(** The request [createBatchSwapTransaction] makes for an account. *)
Definition batch_quote_request {N} `{JsNumber N} (E : Env N)
  (params : JupiterBatchSwapParams N) (account : ParsedTokenAccount N)
  : JupiterQuoteParams N :=
  {| qp_inputMint := info_mint account;
     qp_outputMint := batch_targetMint params;
     qp_amount := account_raw_amount E account;
     qp_slippageBps := or_default (batch_slippageBps params) lit_50 |}.

(** The deployment's [PublicKey] is the one of web3.js. *)
Definition web3_keys {N} (E : Env N) : Prop :=
  forall s, isPublicKey E s = PublicKey_accepts s.

(** The row [saveTransactionToDb] writes for a transaction. *)
Definition row_of (now : Z) (transaction : TransactionDetails) (walletAddress : string)
  : TransactionRow :=
  {| signature := id transaction;
     wallet_address := walletAddress;
     row_type := type transaction;
     row_status := status transaction;
     row_fee := fee transaction;
     row_timestamp := timestamp_ms transaction;
     input_tokens := inputTokens transaction;
     output_token := outputToken transaction;
     bridge_details := bridgeDetails transaction;
     created_at := now |}.

(** Every stored row is a liquidation, with or without a bridge. *)
Definition porg_rows (rows : list TransactionRow) : Prop :=
  Forall (fun r => row_type r = LIQUIDATE \/ row_type r = LIQUIDATE_AND_BRIDGE) rows.

(** The rows of the other signatures, in table order. *)
Definition other_rows (sig : string) (rows : list TransactionRow) : list TransactionRow :=
  List.filter (fun r => negb (String.eqb (signature r) sig)) rows.

(** The row the history looks its cursor up in: the row of a cursor
    that is given and not empty, when the lookup answers and the table
    holds the signature. *)
Definition cursor_row (db : Supabase) (before : option string)
  (rows : list TransactionRow) : option TransactionRow :=
  match before with
  | Some b => if string_truthy b then Some b else None
  | None => None
  end ≫= (fun b => if select_created_at_ok db b then select_transaction b rows else None).

(** The page of the table for the query of [getTransactionHistory]. *)
Definition stored_page (db : Supabase) (walletAddress : string) (limit : option nat)
  (before : option string) (rows : list TransactionRow) : list TransactionRow :=
  select_history walletAddress (default 10%nat limit)
    (created_at <$> cursor_row db before rows) rows.

(** The table holds a full page for the query of [getTransactionHistory]. *)
Definition full_page_stored (db : Supabase) (walletAddress : string)
  (limit : option nat) (before : option string) (rows : list TransactionRow) : bool :=
  (default 10%nat limit <=? length (stored_page db walletAddress limit before rows))%nat.

(** The table holds a row of the signature under the wallet. *)
Definition stored_under (walletAddress : string) (sig : string)
  (rows : list TransactionRow) : Prop :=
  exists r, In r rows /\ signature r = sig /\ wallet_address r = walletAddress.

(** The token's metadata is known to the resolver without the registry:
    it is in the in-memory cache, or the query on the table answers and
    the table holds exactly one row of the token. *)
Definition metadata_known (db : TokenMetadataUtil.MetadataTable)
  (w : TokenMetadataUtil.MetadataWorld) (mint : string) : bool :=
  bool_decide (is_Some (TokenMetadataUtil.tokenMetadataCache w !! mint))
  || bool_decide
       (is_Some (TokenMetadataUtil.cachedToken db mint
                   (TokenMetadataUtil.token_metadata w))).

(** ** Scenarios

    Concrete collaborators and worlds, on which the services are run. *)

Definition SOL : string := "So11111111111111111111111111111111111111112".
Definition USDC : string := "EPjFWdd5AufqSSqeM2qN1xzybapC8G4wEGGkZwyTDt1v".
Definition BONK : string := "DezXAZ8z7PnrnRJjz3wXBoRgixCa6xjnB7YaB1pPB263".
Definition WALLET : string := "7xKXtg2CW87d97TXJSDpbD5jBkheTqA83TZRuJosgAsU".

(** The instant of the scenarios: 2023-11-14T22:13:20Z, in milliseconds. *)
Definition NOW : Z := 1700000000000.

(** [parseFloat] on a string of decimal digits below 2^53 (where the
    conversion is exact); NaN on any other string. *)
Definition parseFloat_digits (s : string) : float :=
  match digits 10 s with
  | Some z => if z <? 2 ^ 53 then PrimFloat.of_uint63 (Uint63.of_Z z) else nan
  | None => nan
  end.

(** [Math.pow(b, e)] for an exponent that is a small natural number:
    [b] multiplied [e] times. *)
Fixpoint pow_loop (fuel : nat) (b e : float) : float :=
  match fuel with
  | O => nan
  | S fuel' =>
      if PrimFloat.leb e 0%float then 1%float
      else PrimFloat.mul b (pow_loop fuel' b (PrimFloat.sub e 1%float))
  end.

(** The metadata resolver's sentinel. *)
Definition unknown_metadata {N} (nine : N) : TokenMetadata N :=
  {| md_symbol := "UNKNOWN"; md_name := "Unknown Token"; md_icon := None;
     md_decimals := nine |}.

(** NUMERIC(20, 8) holds twelve digits before the decimal point: a
    write of a number of magnitude 10^12 or more, or of NaN, is
    refused. *)
Definition NUMERIC_20_8_takes (x : float) : bool :=
  PrimFloat.ltb (PrimFloat.abs x) 1e12%float.

(** The time, in milliseconds, between the moment an operation of the
    scenarios reads the clock and the moment it writes a row. *)
Definition WRITE_DELAY : Z := 200.

(** A deployment on doubles with the given clock, price origin, chain
    accounts and quote collaborator: the [PublicKey] of web3.js, a
    wallet with an account of every mint, a swap endpoint that answers,
    and a database that answers every query and takes every write its
    columns have room for.  The prices and totals the scenarios store
    are whole or have a few decimal places, which a NUMERIC(20, 8)
    column gives back as they are; the numbers of the tokens are
    finite, which a JSONB column gives back as they are. *)
Definition deployment (now : Z) (prices : string -> option float)
  (accounts : option (list (ParsedTokenAccount float)))
  (quotes : JupiterQuoteParams float -> option (JupiterQuoteResponse float))
  : Env float :=
  {| Date_now := now;
     new_Date := now + WRITE_DELAY;
     parseFloat := parseFloat_digits;
     Math_pow := pow_loop 64;
     Number_toString := fun _ => "0";
     isPublicKey := PublicKey_accepts;
     price_api := prices;
     getTokenMetadata := fun _ => unknown_metadata 9%float;
     getParsedTokenAccountsByOwner := fun _ => accounts;
     getTokenAccountsByMint := fun owner mint => Some [(owner ++ ":" ++ mint)%string];
     jupiter_quote_api := quotes;
     jupiter_swap_api := fun _ _ => Some "AQAB";
     getLatestBlockhash := Some "EkSnNWid2cvwEVnVx9aBqawnmiCNiDgp3gUdkDPTKN1N";
     select_token_prices_ok := fun _ => true;
     upsert_token_prices_ok := fun row => NUMERIC_20_8_takes (tp_price row);
     select_portfolio_cache_ok := fun _ => true;
     insert_portfolio_cache_ok := fun row => NUMERIC_20_8_takes (pc_total_value row);
     NUMERIC_20_8 := fun x => x;
     JSONB_number := fun x => x |}.

(** The same deployment over a database that cannot be reached: every
    query and every write comes back with an error. *)
Definition database_down (E : Env float) : Env float :=
  {| Date_now := Date_now E;
     new_Date := new_Date E;
     parseFloat := parseFloat E;
     Math_pow := Math_pow E;
     Number_toString := Number_toString E;
     isPublicKey := isPublicKey E;
     price_api := price_api E;
     getTokenMetadata := getTokenMetadata E;
     getParsedTokenAccountsByOwner := getParsedTokenAccountsByOwner E;
     getTokenAccountsByMint := getTokenAccountsByMint E;
     jupiter_quote_api := jupiter_quote_api E;
     jupiter_swap_api := jupiter_swap_api E;
     getLatestBlockhash := getLatestBlockhash E;
     select_token_prices_ok := fun _ => false;
     upsert_token_prices_ok := fun _ => false;
     select_portfolio_cache_ok := fun _ => false;
     insert_portfolio_cache_ok := fun _ => false;
     NUMERIC_20_8 := NUMERIC_20_8 E;
     JSONB_number := JSONB_number E |}.

(** The transactions table of the scenarios: every query answers and
    every write the [fee] column has room for is taken; the fees are
    whole numbers of lamports and the amounts are finite, and the
    columns give them back as they are. *)
Definition answering_db : Supabase :=
  {| select_transaction_ok := fun _ => true;
     select_created_at_ok := fun _ => true;
     select_history_ok := fun _ => true;
     upsert_transactions_ok := fun row => NUMERIC_20_8_takes (row_fee row);
     fee_NUMERIC_20_8 := fun x => x;
     JSONB_amount := fun x => x |}.

(** A transactions table that answers every query and has room for
    every fee. *)
Definition roomy_db : Supabase :=
  {| select_transaction_ok := fun _ => true;
     select_created_at_ok := fun _ => true;
     select_history_ok := fun _ => true;
     upsert_transactions_ok := fun _ => true;
     fee_NUMERIC_20_8 := fun x => x;
     JSONB_amount := fun x => x |}.

(** A transactions table that cannot be reached. *)
Definition unreachable_db : Supabase :=
  {| select_transaction_ok := fun _ => false;
     select_created_at_ok := fun _ => false;
     select_history_ok := fun _ => false;
     upsert_transactions_ok := fun _ => false;
     fee_NUMERIC_20_8 := fun x => x;
     JSONB_amount := fun x => x |}.

(** The origin price API is down (as the placeholder host of the source
    is), so every price is the default 1.0. *)
Definition origin_down : string -> option float := fun _ => None.

Definition no_quotes : JupiterQuoteParams float -> option (JupiterQuoteResponse float) :=
  fun _ => None.

(** A freshly started process over an empty database. *)
Definition empty_world {N} : World N :=
  {| tokenPriceCache := ∅; token_prices := []; portfolio_cache := [];
     price_api_calls := [] |}.

(** A process that cached a price of SOL ten minutes ago. *)
Definition stale_memory_world : World float :=
  {| tokenPriceCache := {[ SOL := {| price := 150%float; timestamp := NOW - 600000 |} ]};
     token_prices := [];
     portfolio_cache := [];
     price_api_calls := [] |}.

(** A process that cached a price of SOL one minute ago. *)
Definition fresh_memory_world : World float :=
  {| tokenPriceCache := {[ SOL := {| price := 150%float; timestamp := NOW - 60000 |} ]};
     token_prices := [];
     portfolio_cache := [];
     price_api_calls := [] |}.

(** A restarted process over a store with a price of SOL one minute old
    (and an older one). *)
Definition fresh_store_world : World float :=
  {| tokenPriceCache := ∅;
     token_prices :=
       [ {| tp_mint := SOL; tp_price := 149%float; tp_updated_at := NOW - 900000 |};
         {| tp_mint := SOL; tp_price := 151%float; tp_updated_at := NOW - 60000 |} ];
     portfolio_cache := [];
     price_api_calls := [] |}.

(** A wallet of three tokens, one of them held in a very large amount
    (ten quadrillion units of a token without decimals). *)
Definition whale_accounts : list (ParsedTokenAccount float) :=
  [ {| info_mint := SOL; uiAmount := Some 1%float; tokenAmount_decimals := 9%float |};
    {| info_mint := USDC; uiAmount := Some 1%float; tokenAmount_decimals := 6%float |};
    {| info_mint := BONK; uiAmount := Some 1e16%float; tokenAmount_decimals := 0%float |} ].

(** An origin that prices every token at 10^308, and a wallet with one
    unit of SOL and one of USDC. *)
Definition runaway_prices : string -> option float :=
  fun _ => Some 0x1.1ccf385ebc8a0p+1023%float.    (* 1e308 *)

Definition unit_accounts : list (ParsedTokenAccount float) :=
  [ {| info_mint := SOL; uiAmount := Some 1%float; tokenAmount_decimals := 9%float |};
    {| info_mint := USDC; uiAmount := Some 1%float; tokenAmount_decimals := 6%float |} ].

(** SOL at 10; nothing else is priced by the origin. *)
Definition sol_at_10 (mint : string) : option float :=
  if String.eqb mint SOL then Some 10%float else None.

(** A wallet with half a SOL and two USDC. *)
Definition two_accounts : list (ParsedTokenAccount float) :=
  [ {| info_mint := SOL; uiAmount := Some 0.5%float; tokenAmount_decimals := 9%float |};
    {| info_mint := USDC; uiAmount := Some 2%float; tokenAmount_decimals := 6%float |} ].

Definition quote_to (target : string) (mint out threshold fee : string)
  : JupiterQuoteResponse float :=
  {| inputMint := mint; outputMint := target; inAmount := "0";
     outAmount := out; otherAmountThreshold := threshold;
     outputDecimals := 5%float; feeAmount := fee |}.

(** Quotes into BONK (5 decimals): 4.95 for the SOL, 2.00 for the USDC. *)
Definition quotes_695 (params : JupiterQuoteParams float)
  : option (JupiterQuoteResponse float) :=
  if String.eqb (qp_inputMint params) SOL
  then Some (quote_to BONK SOL "495000" "492525" "1237")
  else if String.eqb (qp_inputMint params) USDC
  then Some (quote_to BONK USDC "200000" "199000" "500")
  else None.

(** Quotes into BONK at half those amounts. *)
Definition quotes_half (params : JupiterQuoteParams float)
  : option (JupiterQuoteResponse float) :=
  if String.eqb (qp_inputMint params) SOL
  then Some (quote_to BONK SOL "247500" "246262" "618")
  else if String.eqb (qp_inputMint params) USDC
  then Some (quote_to BONK USDC "100000" "99500" "250")
  else None.

Definition into_bonk : LiquidateOptions float :=
  {| targetToken := BONK; includeDust := false; minTokenValueUsd := None;
     slippageBps := None |}.

Definition holding (sym mint : string) (v : float) : TokenInfo float :=
  {| symbol := sym; name := sym; mint := mint; decimals := 9%float;
     balance := v; value := v; percentage := 0%float; icon := "" |}.

(** The specification's scenario: SOL worth $5.00, USDC worth $2.00 and
    a dust token worth $0.30. *)
Definition scenario_portfolio : Portfolio float :=
  {| totalValue := 0x1.d333333333333p+2%float;   (* 7.3 *)
     tokens := [holding "SOL" SOL 5%float; holding "USDC" USDC 2%float;
                holding "DUST" BONK 0x1.3333333333333p-2%float   (* 0.3 *)] |}.

(** A portfolio with a holding worth $0.50. *)
Definition half_dollar_portfolio : Portfolio float :=
  {| totalValue := 5.5%float;
     tokens := [holding "SOL" SOL 5%float; holding "DUST" BONK 0.5%float] |}.

Definition into_usdc (dust : bool) (minimum : option float) : LiquidateOptions float :=
  {| targetToken := USDC; includeDust := dust; minTokenValueUsd := minimum;
     slippageBps := None |}.

(** A quote whose expected output is 1000 raw units and whose
    worst-case threshold, at 50 bps of slippage, is 995. *)
Definition quote_1000_995 : JupiterQuoteResponse float :=
  {| inputMint := SOL; outputMint := USDC; inAmount := "5000000";
     outAmount := "1000"; otherAmountThreshold := "995";
     outputDecimals := 6%float; feeAmount := "2" |}.

(** The amounts of the specification's fee example, as doubles. *)
Definition GROSS_6_95 : float := 0x1.bcccccccccccdp+2%float.    (* 6.95 *)
Definition FEE_0_0695 : float := 0x1.1cac083126e98p-4%float.    (* 0.0695 *)
Definition NET_6_8805 : float := 0x1.b85a1cac08312p+2%float.    (* 6.8805 *)

(** A liquidation seen on the chain: a Jupiter instruction and the Porg
    batch instruction, paid by the wallet, confirmed. *)
Definition liquidation_on_chain : ParsedTransactionWithMeta :=
  {| message_instructions := [JUPITER_PROGRAM_ID; PORG_PROGRAM_ID];
     message_accountKeys := [WALLET];
     blockTime := Some 1700000000;
     meta := Some {| meta_err := false; meta_fee := 5000%float |} |}.

Definition SIGNATURE : string :=
  "5VERv8NMvzbJMEkV8xnrLkEaWRtSz9CosKDYjCJjBRnbJLgp8uirBgmQpjKhoR4tjF3ZpRzrFmBV6UjKdiSZkQUW".

(** A chain that knows that one transaction. *)
Definition chain_with_liquidation (transactionId : string)
  : option (option ParsedTransactionWithMeta) :=
  if String.eqb transactionId SIGNATURE then Some (Some liquidation_on_chain)
  else Some None.

(** The record of that transaction, as classified. *)
Definition liquidation_details : TransactionDetails :=
  {| id := SIGNATURE;
     type := LIQUIDATE;
     timestamp_ms := 1700000000000;
     status := "confirmed";
     fee := 5000%float;
     inputTokens := Some dummy_inputTokens;
     outputToken := Some dummy_outputToken;
     bridgeDetails := None |}.

(** A database holding a snapshot of the wallet, one minute old, with a
    single token that the quote collaborator does not know. *)
Definition cached_world : World float :=
  {| tokenPriceCache := ∅;
     token_prices := [];
     portfolio_cache :=
       [{| pc_wallet_address := WALLET;
           pc_total_value := 5%float;
           pc_tokens := [holding "WIF" "EKpQGSJtjMFqKZ9KQanSqYXRcF8fBopzLHYxdM65zcjm" 5%float];
           pc_created_at := NOW - 60000 |}];
     price_api_calls := [] |}.

(** An origin that prices every token at 0. *)
Definition worthless : string -> option float := fun _ => Some 0%float.

(** A store that kept a price of SOL for each of the last twelve days,
    and one of USDC. *)
Definition long_history_world : World float :=
  {| tokenPriceCache := ∅;
     token_prices :=
       map (fun day => {| tp_mint := SOL; tp_price := 150%float;
                          tp_updated_at := NOW - day * 86400000 |})
         [12; 11; 10; 9; 8; 7; 6; 5; 4; 3; 2; 1]
       ++ [{| tp_mint := USDC; tp_price := 1%float; tp_updated_at := NOW - 60000 |}];
     portfolio_cache := [];
     price_api_calls := [] |}.

Definition SIGNATURE_2 : string :=
  "3nVfYw1xGkS3Yq3J6qLwL8uC5r2Qf6Zp7mT1hB9cD4eF5gH6iJ7kL8mN9oP1qR2sT3uV4wX5yZ6aB7cD8eF9gH1i".

Definition OTHER_WALLET : string := "9WzDXwBbmkg8ZTbNMqUxvQRAyrZzDsGYdLVL9zYtAWWM".

(** A table with two liquidations of the wallet, saved two minutes and
    one minute ago. *)
Definition two_stored_rows : list TransactionRow :=
  [ row_of (NOW - 120000) liquidation_details WALLET;
    row_of (NOW - 60000)
      {| id := SIGNATURE_2; type := LIQUIDATE; timestamp_ms := 1700000030000;
         status := "confirmed"; fee := 5000%float;
         inputTokens := Some dummy_inputTokens;
         outputToken := Some dummy_outputToken;
         bridgeDetails := None |}
      WALLET ].

(** A chain that cannot be reached. *)
Definition chain_down_signatures (publicKey : string) (limit : nat)
  (before : option string) : option (list string) := None.

Definition chain_down (transactionId : string)
  : option (option ParsedTransactionWithMeta) := None.

(** A liquidation paid by another wallet, in which the wallet takes
    part. *)
Definition liquidation_paid_by_other : ParsedTransactionWithMeta :=
  {| message_instructions := [JUPITER_PROGRAM_ID; PORG_PROGRAM_ID];
     message_accountKeys := [OTHER_WALLET; WALLET];
     blockTime := Some 1700000000;
     meta := Some {| meta_err := false; meta_fee := 5000%float |} |}.

(** A chain on which that is the wallet's only transaction. *)
Definition chain_one_signature (publicKey : string) (limit : nat)
  (before : option string) : option (list string) := Some [SIGNATURE].

Definition chain_paid_by_other (transactionId : string)
  : option (option ParsedTransactionWithMeta) :=
  if String.eqb transactionId SIGNATURE then Some (Some liquidation_paid_by_other)
  else Some None.

(** A freshly started process over an empty [token_metadata] table. *)
Definition empty_metadata_world : TokenMetadataUtil.MetadataWorld :=
  {| TokenMetadataUtil.tokenMetadataCache := ∅;
     TokenMetadataUtil.token_metadata := [];
     TokenMetadataUtil.registry_calls := [] |}.

(** A registry that cannot be reached, and one that knows USDC. *)
Definition registry_down (mint : string) : option (TokenMetadata float) := None.

Definition registry_with_usdc (mint : string) : option (TokenMetadata float) :=
  if String.eqb mint USDC
  then Some {| md_symbol := "USDC"; md_name := "USD Coin"; md_icon := None;
               md_decimals := 6%float |}
  else None.

(** A [token_metadata] table that answers every query and takes every
    write, and one that cannot be reached. *)
Definition answering_metadata_table : TokenMetadataUtil.MetadataTable :=
  {| TokenMetadataUtil.select_token_metadata_ok := fun _ => true;
     TokenMetadataUtil.insert_token_metadata_ok := fun _ => true |}.

Definition unreachable_metadata_table : TokenMetadataUtil.MetadataTable :=
  {| TokenMetadataUtil.select_token_metadata_ok := fun _ => false;
     TokenMetadataUtil.insert_token_metadata_ok := fun _ => false |}.

(** * Properties *)

(** ** Computations *)

Lemma bind_Normal {W A B} (m : M W A) (k : A -> M W B) w a w1 :
  m w = (Normal a, w1) -> bind m k w = k a w1.
Proof. intros Hm. unfold bind. by rewrite Hm. Qed.

(** A computation under [bind] that completes normally has a first part
    that did. *)
Lemma bind_inv_Normal {W A B} (m : M W A) (k : A -> M W B) w b w2 :
  bind m k w = (Normal b, w2) ->
  exists a w1, m w = (Normal a, w1) /\ k a w1 = (Normal b, w2).
Proof.
  unfold bind. destruct (m w) as [[a|e] w1]; intros Hk; [eauto | discriminate].
Qed.

(** [try]/[catch] with a handler that rethrows completes normally only
    when its body does. *)
Lemma try_rethrow_inv_Normal {W A} (m : M W A) (e' : JsError) w a w1 :
  try_catch m (fun _ => throw e') w = (Normal a, w1) -> m w = (Normal a, w1).
Proof.
  unfold try_catch, throw. destruct (m w) as [[a0|e] w0]; intros Hm; [done | discriminate].
Qed.

Lemma try_rethrow_Throw {W A} (m : M W A) (e' : JsError) w e w1 :
  m w = (Throw e, w1) -> try_catch m (fun _ => throw e') w = (Throw e', w1).
Proof. intros Hm. unfold try_catch, throw. by rewrite Hm. Qed.

(** ** BigInt *)

Example BigInt_decimal : BigInt "1000" = Some 1000.
Proof. reflexivity. Qed.

Example BigInt_trim_sign : BigInt "  -42 " = Some (-42).
Proof. reflexivity. Qed.

Example BigInt_hex : BigInt "0x1F" = Some 31.
Proof. reflexivity. Qed.

Example BigInt_fraction_throws : BigInt "1.5" = None.
Proof. reflexivity. Qed.

Example BigInt_empty : BigInt "" = Some 0.
Proof. reflexivity. Qed.

(** ** Database queries *)

Lemma latest_by_from {A} (key : A -> Z) (c : Z) (rows : list A) (best : option A) :
  match
    fold_left
      (fun best r =>
         match best with
         | Some b => if key b <? key r then Some r else Some b
         | None => Some r
         end) rows best
  with
  | Some r => c <? key r
  | None => false
  end
  = (match best with Some b => c <? key b | None => false end
     || existsb (fun r => c <? key r) rows)%bool.
Proof.
  revert best. induction rows as [|r rows IH]; intros best; simpl.
  - by rewrite orb_false_r.
  - rewrite IH. destruct best as [b|]; simpl; [|done].
    rewrite orb_assoc. f_equal.
    destruct (key b <? key r) eqn:Hbr; destruct (c <? key b) eqn:Hcb;
      destruct (c <? key r) eqn:Hcr; simpl; try done; lia.
Qed.

(** The latest row is above a bound exactly when some row is. *)
Lemma latest_by_above {A} (key : A -> Z) (c : Z) (rows : list A) :
  match latest_by key rows with Some r => c <? key r | None => false end
  = existsb (fun r => c <? key r) rows.
Proof. unfold latest_by. by rewrite latest_by_from. Qed.

Lemma existsb_filter {A} (P Q : A -> bool) (l : list A) :
  existsb P (List.filter Q l) = existsb (fun x => Q x && P x) l.
Proof.
  induction l as [|x l IH]; simpl; [done|].
  destruct (Q x); simpl; by rewrite IH.
Qed.

(** ** Price oracle *)

Section PriceOracle.
Context {N : Type} `{JsNumber N} (E : Env N).

Lemma select_token_price_fresh (mint : string) (rows : list (TokenPriceRow N)) :
  match select_token_price mint rows with
  | Some r => Date_now E - tp_updated_at r <? CACHE_EXPIRATION
  | None => false
  end
  = existsb
      (fun r => String.eqb (tp_mint r) mint
                && (Date_now E - tp_updated_at r <? CACHE_EXPIRATION))
      rows.
Proof.
  unfold select_token_price.
  transitivity
    (match latest_by tp_updated_at
             (List.filter (fun r => String.eqb (tp_mint r) mint) rows) with
     | Some r => Date_now E - CACHE_EXPIRATION <? tp_updated_at r
     | None => false
     end).
  { destruct (latest_by _ _) as [r|]; [|done].
    destruct (_ - tp_updated_at r <? _) eqn:H1;
      destruct (_ - CACHE_EXPIRATION <? _) eqn:H2; try done; lia. }
  rewrite latest_by_above, existsb_filter.
  induction rows as [|r rows IH]; simpl; [done|].
  rewrite IH. f_equal. f_equal.
  destruct (_ - CACHE_EXPIRATION <? _) eqn:H1;
    destruct (_ - tp_updated_at r <? _) eqn:H2; try done; lia.
Qed.

(** With a fresh in-memory entry the lookup returns it and touches
    nothing. *)
Lemma getTokenPrice_memory_hit (mint : string) (w : World N) (entry : PriceEntry N) :
  tokenPriceCache w !! mint = Some entry ->
  (Date_now E - timestamp entry <? CACHE_EXPIRATION) = true ->
  getTokenPrice E mint w = (Normal (price entry), w).
Proof.
  intros Hc Hf. unfold getTokenPrice, bind, gets, ret. simpl. by rewrite Hc, Hf.
Qed.

(** Without one the lookup is the [try]/[catch] statement. *)
Lemma getTokenPrice_memory_miss (mint : string) (w : World N) :
  memory_fresh E w mint = false ->
  getTokenPrice E mint w = getTokenPrice_lookup E mint (Date_now E) w.
Proof.
  unfold memory_fresh, getTokenPrice, bind, gets. simpl.
  destruct (tokenPriceCache w !! mint) as [entry|]; [|done].
  by intros ->.
Qed.

(** A fresh row of the store is returned without a call to the origin. *)
Lemma getTokenPrice_lookup_store_hit (mint : string) (w : World N) :
  store_fresh E w mint = true ->
  exists r,
    select_token_price mint (token_prices w) = Some r /\
    getTokenPrice_lookup E mint (Date_now E) w
    = (Normal (tp_price r),
       {| tokenPriceCache :=
            <[mint := {| price := tp_price r; timestamp := Date_now E |}]>
              (tokenPriceCache w);
          token_prices := token_prices w;
          portfolio_cache := portfolio_cache w;
          price_api_calls := price_api_calls w |}).
Proof.
  unfold store_fresh. rewrite <- select_token_price_fresh.
  destruct (select_token_prices_ok E mint) eqn:Hok; [|done].
  destruct (select_token_price mint (token_prices w)) as [r|] eqn:Hs; [|done].
  simpl. intros Hf. exists r. split; [done|].
  unfold getTokenPrice_lookup, try_catch, bind, gets, set_tokenPriceCache, modify, ret,
    cachedPrice.
  simpl. by rewrite Hok, Hs, Hf.
Qed.

(** Without a fresh row the origin is called; its answer is stored and
    returned, and its failure is absorbed by the [catch] block. *)
Lemma getTokenPrice_lookup_store_miss (mint : string) (w : World N) :
  store_fresh E w mint = false ->
  getTokenPrice_lookup E mint (Date_now E) w
  = match price_api E mint with
    | Some p => (Normal p, fetched E mint p w)
    | None => (Normal (fallback_price w mint), logged mint w)
    end.
Proof.
  unfold store_fresh. rewrite <- select_token_price_fresh. intros Hf.
  unfold getTokenPrice_lookup, try_catch, bind, gets, axios_get_price, call,
    set_tokenPriceCache, upsert_token_prices, modify, ret, throw, fallback_price,
    fetched, price_accepted, logged, cachedPrice.
  simpl.
  assert (Hmiss :
    match (if select_token_prices_ok E mint
           then select_token_price mint (token_prices w) else None) with
    | Some r => Date_now E - tp_updated_at r <? CACHE_EXPIRATION
    | None => false
    end = false).
  { destruct (select_token_prices_ok E mint); [exact Hf | done]. }
  destruct (if select_token_prices_ok E mint
            then select_token_price mint (token_prices w) else None) as [r|].
  - rewrite Hmiss. simpl. destruct (price_api E mint); [done|].
    simpl. by destruct (tokenPriceCache w !! mint).
  - simpl. destruct (price_api E mint); [done|].
    simpl. by destruct (tokenPriceCache w !! mint).
Qed.

(** The lookup never throws. *)
Lemma getTokenPrice_Normal (mint : string) (w : World N) :
  exists p w1, getTokenPrice E mint w = (Normal p, w1).
Proof.
  destruct (memory_fresh E w mint) eqn:Hm.
  - unfold memory_fresh in Hm.
    destruct (tokenPriceCache w !! mint) as [entry|] eqn:Hc; [|done].
    eexists _, _. by apply getTokenPrice_memory_hit.
  - rewrite getTokenPrice_memory_miss by done.
    destruct (store_fresh E w mint) eqn:Hs.
    + destruct (getTokenPrice_lookup_store_hit mint w Hs) as (r & _ & ->). eauto.
    + rewrite getTokenPrice_lookup_store_miss by done.
      destruct (price_api E mint); simpl; eauto.
Qed.

(** The calls made to the origin by one lookup. *)
Lemma getTokenPrice_calls (mint : string) (w : World N) :
  price_api_calls (getTokenPrice E mint w).2
  = if memory_fresh E w mint || store_fresh E w mint
    then price_api_calls w
    else (price_api_calls w ++ [mint])%list.
Proof.
  destruct (memory_fresh E w mint) eqn:Hm; simpl.
  - unfold memory_fresh in Hm.
    destruct (tokenPriceCache w !! mint) as [entry|] eqn:Hc; [|done].
    by rewrite (getTokenPrice_memory_hit mint w entry).
  - rewrite getTokenPrice_memory_miss by done.
    destruct (store_fresh E w mint) eqn:Hs.
    + by destruct (getTokenPrice_lookup_store_hit mint w Hs) as (r & _ & ->).
    + rewrite getTokenPrice_lookup_store_miss by done.
      by destruct (price_api E mint).
Qed.

End PriceOracle.

Section PriceOracleClaims.
Context {N : Type} `{JsNumber N} (E : Env N).

Lemma memory_fresh_true (w : World N) (mint : string) :
  memory_fresh E w mint = true <->
  exists entry, tokenPriceCache w !! mint = Some entry /\
                Date_now E - timestamp entry < CACHE_EXPIRATION.
Proof.
  unfold memory_fresh. split.
  - destruct (tokenPriceCache w !! mint) as [entry|]; [|done].
    intros Hf. exists entry. split; [done | lia].
  - intros (entry & -> & Hf). lia.
Qed.

Lemma store_fresh_true (w : World N) (mint : string) :
  store_fresh E w mint = true <->
  select_token_prices_ok E mint = true /\
  exists r, r ∈ token_prices w /\ tp_mint r = mint /\
            Date_now E - tp_updated_at r < CACHE_EXPIRATION.
Proof.
  unfold store_fresh. rewrite andb_true_iff, existsb_exists. split.
  - intros (Hok & r & Hin & Hr). split; [done|]. apply andb_true_iff in Hr as [Hm Hf].
    exists r. rewrite list_elem_of_In. apply String.eqb_eq in Hm. repeat split; [done..|lia].
  - intros (Hok & r & Hin & Hm & Hf). split; [done|].
    exists r. rewrite <- list_elem_of_In. split; [done|].
    apply andb_true_iff. split; [by apply String.eqb_eq | lia].
Qed.

(** C6 (amended).  Cache correctness of the price lookup.  While the
    in-memory entry of the token is younger than the 5-minute freshness
    window, or the persistent store answers the query and some row of
    it for the token is younger than the window, [getTokenPrice] makes
    no call to the origin price API.  When the in-memory entry of the
    token is at least as old as the window (or there is none) and,
    besides, the store does not answer the query or every row of it for
    the token is at least as old as the window (or there is none), it
    makes exactly one call, for that token. *)
Theorem getTokenPrice_origin_called_iff_stale (mint : string) (w : World N) :
  ((exists entry, tokenPriceCache w !! mint = Some entry /\
                  Date_now E - timestamp entry < CACHE_EXPIRATION) \/
   (select_token_prices_ok E mint = true /\
    exists r, r ∈ token_prices w /\ tp_mint r = mint /\
              Date_now E - tp_updated_at r < CACHE_EXPIRATION) ->
   price_api_calls (getTokenPrice E mint w).2 = price_api_calls w)
  /\
  ((forall entry, tokenPriceCache w !! mint = Some entry ->
                  CACHE_EXPIRATION <= Date_now E - timestamp entry) ->
   (select_token_prices_ok E mint = false \/
    forall r, r ∈ token_prices w -> tp_mint r = mint ->
              CACHE_EXPIRATION <= Date_now E - tp_updated_at r) ->
   price_api_calls (getTokenPrice E mint w).2 = (price_api_calls w ++ [mint])%list).
Proof.
  rewrite getTokenPrice_calls. split.
  - intros [Hm | Hs].
    + apply memory_fresh_true in Hm. by rewrite Hm.
    + apply store_fresh_true in Hs. rewrite Hs. by rewrite orb_true_r.
  - intros Hm Hs.
    destruct (memory_fresh E w mint) eqn:Hmf.
    { apply memory_fresh_true in Hmf as (entry & Hc & Hf). specialize (Hm entry Hc). lia. }
    destruct (store_fresh E w mint) eqn:Hsf.
    { apply store_fresh_true in Hsf as (Hok & r & Hin & Hr & Hf).
      destruct Hs as [Hs | Hs]; [congruence|]. specialize (Hs r Hin Hr). lia. }
    done.
Qed.

(** C5.  Fallback of the price lookup.  When [getTokenPrice] consults
    the origin price API and the origin fails, the lookup completes
    normally: with the price of the in-memory entry of the token when
    there is one, whatever its age, and with the default 1.0 when there
    is none. *)
Theorem getTokenPrice_origin_failure_fallback (mint : string) (w : World N) :
  price_api E mint = None ->
  price_api_calls (getTokenPrice E mint w).2 <> price_api_calls w ->
  (getTokenPrice E mint w).1
  = Normal match tokenPriceCache w !! mint with
           | Some entry => price entry
           | None => lit_1
           end.
Proof.
  intros Horigin Hcalled. rewrite getTokenPrice_calls in Hcalled.
  destruct (memory_fresh E w mint) eqn:Hm; [done|].
  destruct (store_fresh E w mint) eqn:Hs; [done|].
  rewrite getTokenPrice_memory_miss by done.
  rewrite getTokenPrice_lookup_store_miss by done.
  by rewrite Horigin.
Qed.

End PriceOracleClaims.

Lemma getTokenPrice_origin_called_iff_stale_witness :
  price_api_calls
    (getTokenPrice (deployment NOW origin_down None no_quotes) SOL fresh_memory_world).2 = []
  /\ price_api_calls
       (getTokenPrice (deployment NOW origin_down None no_quotes) SOL fresh_store_world).2 = []
  /\ price_api_calls
       (getTokenPrice (deployment NOW origin_down None no_quotes) SOL stale_memory_world).2
     = [SOL].
Proof.
  split; [|split].
  - apply (proj1 (getTokenPrice_origin_called_iff_stale
                    (deployment NOW origin_down None no_quotes) SOL fresh_memory_world)).
    left. eexists. split; [reflexivity | vm_compute; reflexivity].
  - apply (proj1 (getTokenPrice_origin_called_iff_stale
                    (deployment NOW origin_down None no_quotes) SOL fresh_store_world)).
    right. split; [reflexivity|].
    eexists. split; [apply list_elem_of_further, list_elem_of_here|].
    split; [reflexivity | vm_compute; reflexivity].
  - apply (proj2 (getTokenPrice_origin_called_iff_stale
                    (deployment NOW origin_down None no_quotes) SOL stale_memory_world)).
    + intros entry Hentry. vm_compute in Hentry. injection Hentry as <-.
      vm_compute. discriminate.
    + right. intros r Hr. by apply not_elem_of_nil in Hr.
Defined.

(** C6, as stated, fails when the store does not answer.  A restarted
    process looks SOL up over a store that holds a price of SOL one
    minute old and cannot be reached: the query comes back with an
    error, and the lookup calls the origin. *)
Lemma getTokenPrice_store_unreachable_calls_origin :
  ~ ((exists r, r ∈ token_prices fresh_store_world /\ tp_mint r = SOL /\
                Date_now (database_down (deployment NOW origin_down None no_quotes))
                - tp_updated_at r < CACHE_EXPIRATION) ->
     price_api_calls
       (getTokenPrice (database_down (deployment NOW origin_down None no_quotes))
          SOL fresh_store_world).2
     = price_api_calls fresh_store_world).
Proof.
  intros Hclaim.
  assert (Hcalls :
    price_api_calls
      (getTokenPrice (database_down (deployment NOW origin_down None no_quotes))
         SOL fresh_store_world).2
    = [SOL]) by (vm_compute; reflexivity).
  rewrite Hcalls in Hclaim.
  enough (Hnone : [SOL] = price_api_calls fresh_store_world) by discriminate Hnone.
  apply Hclaim.
  eexists. split; [apply list_elem_of_further, list_elem_of_here|].
  split; [reflexivity | vm_compute; reflexivity].
Qed.

Lemma getTokenPrice_origin_failure_fallback_witness :
  (getTokenPrice (deployment NOW origin_down None no_quotes) SOL stale_memory_world).1
  = Normal 150%float
  /\ (getTokenPrice (deployment NOW origin_down None no_quotes) SOL empty_world).1
     = Normal 1%float.
Proof.
  split.
  - apply (getTokenPrice_origin_failure_fallback
             (deployment NOW origin_down None no_quotes) SOL stale_memory_world).
    + reflexivity.
    + vm_compute. discriminate.
  - assert (Hcalled :
      price_api_calls
        (getTokenPrice (deployment NOW origin_down None no_quotes) SOL empty_world).2
      <> price_api_calls (empty_world (N := float))).
    { vm_compute. discriminate. }
    generalize (getTokenPrice_origin_failure_fallback
                  (deployment NOW origin_down None no_quotes) SOL empty_world
                  eq_refl Hcalled).
    vm_compute. exact (fun Hw => Hw).
Defined.

(** ** Portfolio service *)

Section PortfolioService.
Context {N : Type} `{JsNumber N} (E : Env N).

Lemma getPortfolio_cache_miss (walletAddress : string) (w : World N) :
  portfolio_cache_hit E w walletAddress = false ->
  getPortfolio E walletAddress w
  = try_catch (getPortfolio_fresh E walletAddress)
      (fun _ => throw (Error "Failed to get portfolio")) w.
Proof.
  unfold portfolio_cache_hit, getPortfolio, try_catch, bind, gets. simpl.
  destruct (cachedPortfolio E walletAddress (portfolio_cache w)) as [c|]; [|done].
  by intros ->.
Qed.

(** The valuation loop never throws; it appends the valued holdings in
    account order and adds their values to the total from the left. *)
Lemma valuate_accounts_spec (accounts : list (ParsedTokenAccount N))
  (tokens : list (TokenInfo N)) (totalValue : N) (w : World N) :
  exists new w1,
    valuate_accounts E accounts tokens totalValue w
    = (Normal (tokens ++ new, fold_left num_add (map value new) totalValue), w1).
Proof.
  revert tokens totalValue w.
  induction accounts as [|parsedInfo rest IH]; intros tokens totalValue w; simpl.
  - exists [], w. by rewrite app_nil_r.
  - destruct (uiAmount parsedInfo) as [balance|]; [|apply IH].
    destruct (num_gt balance lit_0); [|apply IH].
    destruct (getTokenPrice_Normal E (info_mint parsedInfo) w) as (p & w1 & Hp).
    rewrite (bind_Normal _ _ _ _ _ Hp).
    match goal with
    | |- context [valuate_accounts E rest (tokens ++ [?t]) ?v] =>
        destruct (IH (tokens ++ [t]) v w1) as (new & w2 & ->); exists (t :: new), w2
    end.
    by rewrite <- app_assoc.
Qed.

Lemma sort_insert_Permutation {A} (compareFn : A -> A -> N) (a : A) (l : list A) :
  sort_insert compareFn a l ≡ₚ a :: l.
Proof.
  induction l as [|b l IH]; simpl; [done|].
  destruct (num_gt (compareFn a b) lit_0); [|done].
  rewrite IH. apply Permutation_swap.
Qed.

(** Sorting permutes. *)
Lemma Array_sort_Permutation {A} (compareFn : A -> A -> N) (l : list A) :
  Array_sort compareFn l ≡ₚ l.
Proof.
  unfold Array_sort. induction l as [|a l IH]; simpl; [done|].
  by rewrite sort_insert_Permutation, IH.
Qed.

(** A snapshot valued afresh: its total is the left-to-right sum of the
    values of some holdings, and its tokens are those holdings with
    their percentages set, sorted. *)
Lemma getPortfolio_fresh_shape (walletAddress : string) (w : World N)
  (p : Portfolio N) (w1 : World N) :
  getPortfolio_fresh E walletAddress w = (Normal p, w1) ->
  exists holdings,
    totalValue p = num_sum (map value holdings) /\
    tokens p
    = Array_sort (fun a b => num_sub (value b) (value a))
        (map (set_percentage (totalValue p)) holdings).
Proof.
  unfold getPortfolio_fresh. intros Hrun.
  apply bind_inv_Normal in Hrun as (publicKey & w2 & _ & Hrun).
  apply bind_inv_Normal in Hrun as (tokenAccounts & w3 & _ & Hrun).
  destruct (valuate_accounts_spec tokenAccounts [] lit_0 w3) as (holdings & w4 & Hloop).
  rewrite (bind_Normal _ _ _ _ _ Hloop) in Hrun.
  unfold bind, insert_portfolio_cache, modify, ret in Hrun. simpl in Hrun.
  injection Hrun as <- _. exists holdings. by split.
Qed.

(** The valuation loop keeps the accounts with a balance above zero, in
    their order, each valued at a price times its balance. *)
Lemma valuate_accounts_holdings (accounts : list (ParsedTokenAccount N))
  (tokens : list (TokenInfo N)) (totalValue : N) (w : World N) :
  exists new w1,
    valuate_accounts E accounts tokens totalValue w
    = (Normal (tokens ++ new, fold_left num_add (map value new) totalValue), w1)
    /\ Forall2 holding_of (List.filter positive_balance accounts) new.
Proof.
  revert tokens totalValue w.
  induction accounts as [|parsedInfo rest IH]; intros tokens totalValue w.
  - exists [], w. simpl. rewrite app_nil_r. split; [done | constructor].
  - cbn [valuate_accounts List.filter]. unfold positive_balance at 1.
    destruct (uiAmount parsedInfo) as [balance|] eqn:Hbalance; [|apply IH].
    destruct (num_gt balance lit_0); [|apply IH].
    destruct (getTokenPrice_Normal E (info_mint parsedInfo) w) as (p & w1 & Hp).
    rewrite (bind_Normal _ _ _ _ _ Hp).
    match goal with
    | |- context [valuate_accounts E rest (tokens ++ [?t]) ?v] =>
        destruct (IH (tokens ++ [t]) v w1) as (new & w2 & -> & Hnew);
        exists (t :: new), w2
    end.
    split; [by rewrite <- app_assoc|].
    constructor; [|done]. split; [done|]. split; [done|]. by exists p.
Qed.

(** A snapshot valued afresh, with the accounts its holdings come
    from. *)
Lemma getPortfolio_fresh_holdings (walletAddress : string) (w : World N)
  (p : Portfolio N) (w1 : World N) :
  getPortfolio_fresh E walletAddress w = (Normal p, w1) ->
  exists accounts holdings,
    getParsedTokenAccountsByOwner E walletAddress = Some accounts
    /\ Forall2 holding_of (List.filter positive_balance accounts) holdings
    /\ totalValue p = num_sum (map value holdings)
    /\ tokens p
       = Array_sort (fun a b => num_sub (value b) (value a))
           (map (set_percentage (totalValue p)) holdings).
Proof.
  unfold getPortfolio_fresh. intros Hrun.
  apply bind_inv_Normal in Hrun as (publicKey & w2 & Hkey & Hrun).
  unfold new_PublicKey in Hkey.
  destruct (isPublicKey E walletAddress); [|discriminate].
  injection Hkey as <- <-.
  apply bind_inv_Normal in Hrun as (tokenAccounts & w3 & Hchain & Hrun).
  unfold call in Hchain.
  destruct (getParsedTokenAccountsByOwner E walletAddress) as [accounts|];
    [|discriminate].
  injection Hchain as <- <-.
  destruct (valuate_accounts_holdings accounts [] lit_0 w)
    as (holdings & w4 & Hloop & Hheld).
  rewrite (bind_Normal _ _ _ _ _ Hloop) in Hrun.
  unfold bind, insert_portfolio_cache, modify, ret in Hrun. simpl in Hrun.
  injection Hrun as <- _. by exists accounts, holdings.
Qed.

(** When the total is not above zero every percentage is zero. *)
Lemma getPortfolio_fresh_percentage_zero (walletAddress : string) (w : World N)
  (p : Portfolio N) (w1 : World N) :
  getPortfolio_fresh E walletAddress w = (Normal p, w1) ->
  num_gt (totalValue p) lit_0 = false ->
  Forall (fun token => percentage token = lit_0) (tokens p).
Proof.
  intros Hrun Hzero. apply getPortfolio_fresh_shape in Hrun as (holdings & _ & ->).
  rewrite Array_sort_Permutation. apply Forall_map, Forall_forall.
  intros token _. simpl. by rewrite Hzero.
Qed.

End PortfolioService.

(** C1 (amended).  For every portfolio that [getPortfolio] values
    afresh (no cached snapshot younger than five minutes is served), on
    doubles as on any numbers: the holdings value, in the order of the
    wallet's accounts, the accounts with a balance above zero, each at a
    price times its balance; [totalValue] is the sum of their values
    taken in that order from 0; the tokens returned are those holdings
    with their percentages set; every percentage is the holding's value
    divided by [totalValue], times 100, when [totalValue] is above zero;
    and every percentage is 0 when [totalValue] is not above zero. *)
Theorem getPortfolio_total_and_percentages {N} `{JsNumber N} (E : Env N)
  (walletAddress : string) (w : World N) (p : Portfolio N) (w1 : World N) :
  portfolio_cache_hit E w walletAddress = false ->
  getPortfolio E walletAddress w = (Normal p, w1) ->
  exists accounts holdings,
    getParsedTokenAccountsByOwner E walletAddress = Some accounts
    /\ Forall2 holding_of (List.filter positive_balance accounts) holdings
    /\ totalValue p = num_sum (map value holdings)
    /\ tokens p ≡ₚ map (set_percentage (totalValue p)) holdings
    /\ Forall (fun token => percentage token = weight_in (totalValue p) (value token))
         (tokens p)
    /\ (num_gt (totalValue p) lit_0 = false ->
        Forall (fun token => percentage token = lit_0) (tokens p)).
Proof.
  intros Hmiss Hrun. rewrite getPortfolio_cache_miss in Hrun by done.
  apply try_rethrow_inv_Normal in Hrun.
  pose proof (getPortfolio_fresh_holdings E _ _ _ _ Hrun)
    as (accounts & holdings & Hchain & Hheld & Htotal & Htokens).
  exists accounts, holdings. split; [done|]. split; [done|]. split; [done|].
  split; [|split].
  - rewrite Htokens. apply Array_sort_Permutation.
  - rewrite Htokens, Array_sort_Permutation. apply Forall_map, Forall_forall.
    by intros token _.
  - exact (getPortfolio_fresh_percentage_zero E _ _ _ _ Hrun).
Qed.

Lemma getPortfolio_total_and_percentages_witness :
  exists p w1,
    getPortfolio (deployment NOW sol_at_10 (Some two_accounts) no_quotes)
      WALLET empty_world = (Normal p, w1)
    /\ exists accounts holdings,
         getParsedTokenAccountsByOwner
           (deployment NOW sol_at_10 (Some two_accounts) no_quotes) WALLET
         = Some accounts
         /\ Forall2 holding_of (List.filter positive_balance accounts) holdings
         /\ totalValue p = num_sum (map value holdings)
         /\ tokens p ≡ₚ map (set_percentage (totalValue p)) holdings
         /\ Forall (fun token =>
                      percentage token = weight_in (totalValue p) (value token))
              (tokens p)
         /\ (num_gt (totalValue p) lit_0 = false ->
             Forall (fun token => percentage token = lit_0) (tokens p)).
Proof.
  destruct (getPortfolio (deployment NOW sol_at_10 (Some two_accounts) no_quotes)
              WALLET empty_world) as [[p|e] w1] eqn:Hrun.
  - exists p, w1. split; [reflexivity|].
    exact (getPortfolio_total_and_percentages
             (deployment NOW sol_at_10 (Some two_accounts) no_quotes)
             WALLET empty_world p w1 eq_refl Hrun).
  - vm_compute in Hrun. discriminate Hrun.
Defined.

(** C1, as stated, fails on doubles, in both of its sums.
    - A wallet holds 1, 1 and 10^16 units of three tokens, each priced
      at the default 1.0 (the origin is down).  The loop adds
      1 + 1 + 10^16 = 10000000000000002; the holdings come back sorted
      by value, and added in that order they give 10^16 + 1 + 1 = 10^16:
      the two sums differ by 2.
    - A wallet holds one unit of each of two tokens that the origin
      prices at 10^308.  The loop adds 10^308 + 10^308, which is
      Infinity: [totalValue] is above zero, each percentage is
      10^308 / Infinity * 100 = 0, and the percentages add up to 0. *)
Lemma getPortfolio_sums_drift :
  (exists p w1,
     portfolio_cache_hit (deployment NOW origin_down (Some whale_accounts) no_quotes)
       empty_world WALLET = false
     /\ getPortfolio (deployment NOW origin_down (Some whale_accounts) no_quotes)
          WALLET empty_world = (Normal p, w1)
     /\ map mint (tokens p) = [BONK; SOL; USDC]
     /\ totalValue p = 10000000000000002%float
     /\ num_sum (map value (tokens p)) = 10000000000000000%float
     /\ float_within TOLERANCE (num_sum (map value (tokens p))) (totalValue p)
        = false)
  /\ (exists p w1,
        portfolio_cache_hit (deployment NOW runaway_prices (Some unit_accounts) no_quotes)
          empty_world WALLET = false
        /\ getPortfolio (deployment NOW runaway_prices (Some unit_accounts) no_quotes)
             WALLET empty_world = (Normal p, w1)
        /\ map mint (tokens p) = [SOL; USDC]
        /\ num_gt (totalValue p) 0%float = true
        /\ map percentage (tokens p) = [0%float; 0%float]
        /\ float_within TOLERANCE (num_sum (map percentage (tokens p))) 100%float
           = false).
Proof.
  split.
  - eexists _, _. split; [reflexivity|]. split; [vm_compute; reflexivity|].
    repeat split; vm_compute; reflexivity.
  - eexists _, _. split; [reflexivity|]. split; [vm_compute; reflexivity|].
    repeat split; vm_compute; reflexivity.
Qed.

(** ** Jupiter service and program instructions *)

Section LiquidateService.
Context {N : Type} `{JsNumber N} (E : Env N).

Lemma new_PublicKey_inv {W} (s : string) (w : W) (k : string) (w1 : W) :
  new_PublicKey E s w = (Normal k, w1) ->
  k = s /\ w1 = w /\ isPublicKey E s = true.
Proof.
  unfold new_PublicKey, ret, throw. destruct (isPublicKey E s); intros Hk; [|discriminate].
  by injection Hk as <- <-.
Qed.

(** The quote a token gets is the collaborator's answer to the request
    for the token's raw balance; asking leaves the world as it is. *)
Lemma getQuote_inv (inputMint outputMint amount : string) (slippage : option N)
  (w : World N) (quote : JupiterQuoteResponse N) (w1 : World N) :
  getQuote E inputMint outputMint amount slippage w = (Normal quote, w1) ->
  w1 = w /\
  jupiter_quote_api E
    {| qp_inputMint := inputMint; qp_outputMint := outputMint; qp_amount := amount;
       qp_slippageBps := or_default slippage lit_50 |} = Some quote.
Proof.
  unfold getQuote, try_catch, call, ret, throw.
  destruct (jupiter_quote_api E _) as [q|]; intros Hq; [|discriminate].
  by injection Hq as <- <-.
Qed.

Lemma getQuote_Some (inputMint outputMint amount : string) (slippage : option N)
  (w : World N) (quote : JupiterQuoteResponse N) :
  jupiter_quote_api E
    {| qp_inputMint := inputMint; qp_outputMint := outputMint; qp_amount := amount;
       qp_slippageBps := or_default slippage lit_50 |} = Some quote ->
  getQuote E inputMint outputMint amount slippage w = (Normal quote, w).
Proof. unfold getQuote, try_catch, call, ret. by intros ->. Qed.

Lemma quote_each_spec (options : LiquidateOptions N)
  (tokensToLiquidate : list (TokenInfo N)) (quotes : list (JupiterQuoteResponse N))
  (totalOutputAmount totalFees : N) (w : World N)
  (r : list (JupiterQuoteResponse N) * N * N) (w1 : World N) :
  quote_each E options tokensToLiquidate quotes totalOutputAmount totalFees w
  = (Normal r, w1) ->
  exists new,
    r = (quotes ++ new,
         fold_left (fun sum quote => num_add sum (scaled_outAmount E quote)) new
           totalOutputAmount,
         fold_left (fun sum quote => num_add sum (scaled_feeAmount E quote)) new totalFees)
    /\ Forall2 (fun token quote =>
                  jupiter_quote_api E (quote_request E options token) = Some quote)
         tokensToLiquidate new
    /\ w1 = w.
Proof.
  revert quotes totalOutputAmount totalFees w r w1.
  induction tokensToLiquidate as [|token rest IH];
    intros quotes totalOutputAmount totalFees w r w1; simpl.
  - unfold ret. intros Hr. injection Hr as <- <-. exists [].
    by rewrite app_nil_r.
  - intros Hr. apply bind_inv_Normal in Hr as (quote & w2 & Hq & Hr).
    apply getQuote_inv in Hq as [-> Hq].
    apply IH in Hr as (new & -> & Hall & ->).
    exists (quote :: new). rewrite <- app_assoc.
    split; [done|]. split; [|done]. by constructor.
Qed.

(** When every selected token gets a quote the loop completes. *)
Lemma quote_each_Some (options : LiquidateOptions N)
  (tokensToLiquidate : list (TokenInfo N)) (new : list (JupiterQuoteResponse N))
  (quotes : list (JupiterQuoteResponse N)) (totalOutputAmount totalFees : N)
  (w : World N) :
  Forall2 (fun token quote =>
             jupiter_quote_api E (quote_request E options token) = Some quote)
    tokensToLiquidate new ->
  exists r, quote_each E options tokensToLiquidate quotes totalOutputAmount totalFees w
            = (Normal r, w).
Proof.
  intros Hall. revert quotes totalOutputAmount totalFees.
  induction Hall as [|token quote rest new Hq _ IH];
    intros quotes totalOutputAmount totalFees; simpl.
  - by eexists.
  - rewrite (bind_Normal _ _ _ _ _ (getQuote_Some _ _ _ _ w quote Hq)). apply IH.
Qed.

(** What a simulation that completes returns. *)
Lemma simulateLiquidation_inv (walletAddress : string) (options : LiquidateOptions N)
  (w : World N) (r : SimulationResult N) (w1 : World N) :
  simulateLiquidation E walletAddress options w = (Normal r, w1) ->
  exists portfolio,
    getPortfolio E walletAddress w = (Normal portfolio, w1)
    /\ sim_inputTokens r = simulateLiquidation_tokensToLiquidate options portfolio
    /\ Forall2 (fun token quote =>
                  jupiter_quote_api E (quote_request E options token) = Some quote)
         (sim_inputTokens r) (sim_quotes r)
    /\ sim_totalOutputAmount r = gross_output E (sim_quotes r)
    /\ sim_porgFee r = num_mul (sim_totalOutputAmount r) lit_0_01
    /\ sim_finalOutputAmount r = num_sub (sim_totalOutputAmount r) (sim_porgFee r).
Proof.
  unfold simulateLiquidation. intros Hrun. apply try_rethrow_inv_Normal in Hrun.
  apply bind_inv_Normal in Hrun as (portfolio & w2 & Hp & Hrun).
  apply bind_inv_Normal in Hrun as (loop & w3 & Hloop & Hrun).
  apply quote_each_spec in Hloop as (new & -> & Hall & ->).
  unfold ret in Hrun. injection Hrun as <- <-.
  exists portfolio. by repeat split.
Qed.

Lemma createSwapTransaction_inv (walletAddress inputMint outputMint amount : string)
  (slippage : option N) (w : World N)
  (r : JupiterQuoteResponse N * list TransactionInstruction) (w1 : World N) :
  createSwapTransaction E walletAddress inputMint outputMint amount slippage w
  = (Normal r, w1) ->
  w1 = w /\ r.2 = [jupiter_instruction].
Proof.
  unfold createSwapTransaction. intros Hrun. apply try_rethrow_inv_Normal in Hrun.
  apply bind_inv_Normal in Hrun as (quote & w2 & Hq & Hrun).
  apply getQuote_inv in Hq as [-> _].
  apply bind_inv_Normal in Hrun as (swap & w3 & Hswap & Hrun).
  unfold call, ret, throw in Hswap, Hrun.
  destruct (jupiter_swap_api E quote walletAddress); [|discriminate].
  injection Hswap as _ <-. by injection Hrun as <- <-.
Qed.

(** The batch instruction is never built when the address of the state
    account is no public key: the first statement throws. *)
Lemma createPorgBatchLiquidateInstruction_Throw
  (user targetTokenAccount feeAccount targetTokenMint : string)
  (includeDust : bool) (minTokenValueUsd : N)
  (jupiterRoutes : list (JupiterQuoteResponse N)) (w : World N) :
  isPublicKey E "PorgState11111111111111111111111111111111111" = false ->
  createPorgBatchLiquidateInstruction E user targetTokenAccount feeAccount
    targetTokenMint includeDust minTokenValueUsd jupiterRoutes w
  = (Throw (Error "Invalid public key input"), w).
Proof.
  intros Hkey.
  unfold createPorgBatchLiquidateInstruction, getPorgStateAccount, new_PublicKey, bind.
  by rewrite Hkey.
Qed.

(** Nor does the planner complete then. *)
Lemma createLiquidateTransaction_not_Normal (walletAddress : string)
  (options : LiquidateOptions N) (w : World N) (tx : Transaction) (w1 : World N) :
  isPublicKey E "PorgState11111111111111111111111111111111111" = false ->
  createLiquidateTransaction E walletAddress options w <> (Normal tx, w1).
Proof.
  intros Hstate Hrun. unfold createLiquidateTransaction in Hrun.
  apply try_rethrow_inv_Normal in Hrun.
  apply bind_inv_Normal in Hrun as (publicKey & w2 & _ & Hrun).
  apply bind_inv_Normal in Hrun as (portfolio & w3 & _ & Hrun).
  destruct (Nat.eqb _ 0); [discriminate|].
  apply bind_inv_Normal in Hrun as (swaps & w4 & _ & Hrun).
  apply bind_inv_Normal in Hrun as (targetMint & w5 & _ & Hrun).
  apply bind_inv_Normal in Hrun as (account & w6 & _ & Hrun).
  apply bind_inv_Normal in Hrun as (feeAccount & w7 & _ & Hrun).
  apply bind_inv_Normal in Hrun as (targetMint' & w8 & _ & Hrun).
  apply bind_inv_Normal in Hrun as (batch & w9 & Hbatch & _).
  by rewrite createPorgBatchLiquidateInstruction_Throw in Hbatch.
Qed.

(** An empty selection makes the planner throw, and what it throws is
    the error of its [catch] block. *)
Lemma createLiquidateTransaction_empty (walletAddress : string)
  (options : LiquidateOptions N) (w : World N) (portfolio : Portfolio N)
  (w1 : World N) :
  isPublicKey E walletAddress = true ->
  getPortfolio E walletAddress w = (Normal portfolio, w1) ->
  createLiquidateTransaction_tokensToLiquidate options portfolio = [] ->
  createLiquidateTransaction E walletAddress options w
  = (Throw (Error "Failed to create liquidation transaction"), w1).
Proof.
  intros Hkey Hp Hsel. unfold createLiquidateTransaction.
  apply try_rethrow_Throw with (e := Error "No tokens to liquidate").
  unfold new_PublicKey. rewrite Hkey.
  unfold bind at 1. unfold ret at 1.
  rewrite (bind_Normal _ _ _ _ _ Hp). by rewrite Hsel.
Qed.

(** Whatever goes wrong in the planner, the caller sees the same error. *)
Lemma createLiquidateTransaction_Throw (walletAddress : string)
  (options : LiquidateOptions N) (w : World N) (e : JsError) (w1 : World N) :
  createLiquidateTransaction E walletAddress options w = (Throw e, w1) ->
  e = Error "Failed to create liquidation transaction".
Proof.
  unfold createLiquidateTransaction, try_catch, throw.
  destruct (bind _ _ w) as [[tx|e0] w0]; intros Hrun; [discriminate|].
  by injection Hrun as <- _.
Qed.

End LiquidateService.

(** ** Liquidate service: the claims *)

(** C2.  Fee arithmetic of the simulation.  For every simulation that
    completes: the quotes are the collaborator's answers for the
    selected holdings, in order; the gross output is the sum over the
    quotes of [outAmount] scaled by the quote's output decimals; the
    Porg fee is the gross output times 0.01; the net output is the gross
    output minus the fee.  With a gross output of 6.95 the fee is within
    1e-6 of 0.0695 and the net output within 1e-6 of 6.8805. *)
Theorem simulateLiquidation_fee_arithmetic (E : Env float) (walletAddress : string)
  (options : LiquidateOptions float) (w : World float)
  (r : SimulationResult float) (w1 : World float) :
  simulateLiquidation E walletAddress options w = (Normal r, w1) ->
  Forall2 (fun token quote =>
             jupiter_quote_api E (quote_request E options token) = Some quote)
    (sim_inputTokens r) (sim_quotes r)
  /\ sim_totalOutputAmount r = gross_output E (sim_quotes r)
  /\ sim_porgFee r = PrimFloat.mul (sim_totalOutputAmount r) 0x1.47ae147ae147bp-7
  /\ sim_finalOutputAmount r = PrimFloat.sub (sim_totalOutputAmount r) (sim_porgFee r)
  /\ (sim_totalOutputAmount r = GROSS_6_95 ->
      float_within TOLERANCE (sim_porgFee r) FEE_0_0695 = true
      /\ float_within TOLERANCE (sim_finalOutputAmount r) NET_6_8805 = true).
Proof.
  intros Hrun.
  apply simulateLiquidation_inv in Hrun
    as (portfolio & _ & _ & Hquotes & Hgross & Hfee & Hnet).
  split; [done|]. split; [done|]. split; [done|]. split; [done|].
  intros Hexample. rewrite Hnet, Hfee, Hexample. split; vm_compute; reflexivity.
Qed.

Lemma simulateLiquidation_fee_arithmetic_witness :
  exists r w1,
    simulateLiquidation (deployment NOW sol_at_10 (Some two_accounts) quotes_695)
      WALLET into_bonk empty_world = (Normal r, w1)
    /\ map value (sim_inputTokens r) = [5%float; 2%float]
    /\ map outAmount (sim_quotes r) = ["495000"; "200000"]
    /\ sim_totalOutputAmount r = GROSS_6_95
    /\ float_within TOLERANCE (sim_porgFee r) FEE_0_0695 = true
    /\ float_within TOLERANCE (sim_finalOutputAmount r) NET_6_8805 = true.
Proof.
  destruct (simulateLiquidation (deployment NOW sol_at_10 (Some two_accounts) quotes_695)
              WALLET into_bonk empty_world) as [[r|e] w1] eqn:Hrun.
  - assert (Hshape : map value (sim_inputTokens r) = [5%float; 2%float]
                     /\ map outAmount (sim_quotes r) = ["495000"; "200000"]
                     /\ sim_totalOutputAmount r = GROSS_6_95).
    { vm_compute in Hrun. injection Hrun as <- _. repeat split. }
    destruct Hshape as (Hvalues & Hquotes & Hgross).
    destruct (simulateLiquidation_fee_arithmetic _ _ _ _ _ _ Hrun)
      as (_ & _ & _ & _ & Hexample).
    exists r, w1. repeat split; try done; by apply Hexample.
  - vm_compute in Hrun. discriminate Hrun.
Defined.

(** What the planner's and the simulation's filters select: the rule,
    with the threshold [minTokenValueUsd || 1.0]. *)
Lemma tokensToLiquidate_spec {N} `{JsNumber N} (options : LiquidateOptions N)
  (portfolio : Portfolio N) :
  createLiquidateTransaction_tokensToLiquidate options portfolio
  = List.filter
      (fun token =>
         negb (String.eqb (mint token) (targetToken options))
         && (includeDust options
             || negb (num_lt (value token)
                        (or_default (minTokenValueUsd options) lit_1))))
      (tokens portfolio).
Proof.
  unfold createLiquidateTransaction_tokensToLiquidate.
  apply filter_ext. intros token.
  destruct (String.eqb (mint token) (targetToken options)); [done|].
  destruct (includeDust options); [done|]. simpl.
  by destruct (num_lt _ _).
Qed.

(** The two filters of the liquidate service select the same holdings. *)
Lemma tokensToLiquidate_same {N} `{JsNumber N} (options : LiquidateOptions N)
  (portfolio : Portfolio N) :
  simulateLiquidation_tokensToLiquidate options portfolio
  = createLiquidateTransaction_tokensToLiquidate options portfolio.
Proof. reflexivity. Qed.

(** With a threshold that is given and truthy (not 0, not NaN), or with
    none, the filter is the specification's rule. *)
Lemma tokensToLiquidate_selection_rule {N} `{JsNumber N}
  (options : LiquidateOptions N) (portfolio : Portfolio N) :
  match minTokenValueUsd options with
  | Some m => num_truthy m = true
  | None => True
  end ->
  createLiquidateTransaction_tokensToLiquidate options portfolio
  = selection_rule options portfolio.
Proof.
  intros Hmin. rewrite tokensToLiquidate_spec. unfold selection_rule, or_default.
  destruct (minTokenValueUsd options) as [m|]; [|done]. by rewrite Hmin.
Qed.

(** C3: the code at the failing input.  The options give
    [minTokenValueUsd = 0] with [includeDust = false], the portfolio
    holds SOL worth $5 and a token worth $0.50, the target is USDC.  No
    value is below 0, so the rule selects both holdings; the planner's
    filter reads the threshold as [0 || 1.0 = 1.0] and drops the $0.50
    holding. *)
Theorem minTokenValueUsd_zero_read_as_default :
  createLiquidateTransaction_tokensToLiquidate (into_usdc false (Some 0%float))
    half_dollar_portfolio
  = [holding "SOL" SOL 5%float]
  /\ selection_rule (into_usdc false (Some 0%float)) half_dollar_portfolio
     = [holding "SOL" SOL 5%float; holding "DUST" BONK 0.5%float].
Proof. split; vm_compute; reflexivity. Qed.

(** C4 (amended).  When the selection of the planner is empty,
    [createLiquidateTransaction] fails, and its failure is the error of
    its [catch] block, "Failed to create liquidation transaction": the
    one error every failing run of the planner ends with, whatever the
    options, the world and the cause. *)
Theorem createLiquidateTransaction_empty_selection_fails {N} `{JsNumber N}
  (E : Env N) (walletAddress : string) (options : LiquidateOptions N)
  (w : World N) (portfolio : Portfolio N) (w1 : World N) :
  isPublicKey E walletAddress = true ->
  getPortfolio E walletAddress w = (Normal portfolio, w1) ->
  createLiquidateTransaction_tokensToLiquidate options portfolio = [] ->
  createLiquidateTransaction E walletAddress options w
  = (Throw (Error "Failed to create liquidation transaction"), w1)
  /\ (forall walletAddress' options' w' e w2,
         createLiquidateTransaction E walletAddress' options' w' = (Throw e, w2) ->
         e = Error "Failed to create liquidation transaction").
Proof.
  intros Hkey Hportfolio Hempty. split.
  - exact (createLiquidateTransaction_empty E _ _ _ portfolio _ Hkey Hportfolio Hempty).
  - intros walletAddress' options' w' e w2 Hrun.
    by apply createLiquidateTransaction_Throw in Hrun.
Qed.

Lemma createLiquidateTransaction_empty_selection_fails_witness :
  (createLiquidateTransaction (deployment NOW sol_at_10 (Some []) quotes_695)
     WALLET into_bonk empty_world).1
  = Throw (Error "Failed to create liquidation transaction")
  /\ (createLiquidateTransaction (deployment NOW sol_at_10 (Some []) quotes_695)
        WALLET into_bonk cached_world).1
     = Throw (Error "Failed to create liquidation transaction").
Proof.
  destruct (getPortfolio (deployment NOW sol_at_10 (Some []) quotes_695)
              WALLET empty_world) as [[portfolio|e] w1] eqn:Hp.
  - pose proof (createLiquidateTransaction_empty_selection_fails
                  (deployment NOW sol_at_10 (Some []) quotes_695)
                  WALLET into_bonk empty_world portfolio w1
                  ltac:(vm_compute; reflexivity) Hp
                  ltac:(vm_compute in Hp; injection Hp as <- _; reflexivity))
      as [Hempty Hany].
    split.
    + rewrite Hempty. reflexivity.
    + destruct (createLiquidateTransaction
                  (deployment NOW sol_at_10 (Some []) quotes_695)
                  WALLET into_bonk cached_world) as [[tx|e] w2] eqn:Hrun.
      * vm_compute in Hrun. discriminate Hrun.
      * simpl. f_equal. exact (Hany WALLET into_bonk cached_world e w2 Hrun).
  - vm_compute in Hp. discriminate Hp.
Defined.

(** C4, as stated, fails.  With an empty wallet (empty selection) the
    planner throws the very error it throws when the chain collaborator
    is down, so a caller cannot tell "nothing to liquidate" from an
    upstream failure; and the simulation of the empty wallet does not
    fail at all: it completes with no input token and zero amounts. *)
Lemma empty_selection_error_not_distinct :
  (createLiquidateTransaction (deployment NOW sol_at_10 (Some []) quotes_695)
     WALLET into_bonk empty_world).1
  = Throw (Error "Failed to create liquidation transaction")
  /\ (createLiquidateTransaction (deployment NOW sol_at_10 None quotes_695)
        WALLET into_bonk empty_world).1
     = Throw (Error "Failed to create liquidation transaction")
  /\ (simulateLiquidation (deployment NOW sol_at_10 (Some []) quotes_695)
        WALLET into_bonk empty_world).1
     = Normal {| sim_inputTokens := []; sim_totalInputValue := 0%float;
                 sim_targetToken := BONK; sim_totalOutputAmount := 0%float;
                 sim_jupiterFees := 0%float; sim_porgFee := 0%float;
                 sim_finalOutputAmount := 0%float; sim_quotes := [] |}.
Proof. repeat split; vm_compute; reflexivity. Qed.

(** C7: the code at the failing input.  A batch liquidate instruction
    is assembled from one quote with expected output 1000 and
    worst-case threshold 995.  The first statement of
    [createPorgBatchLiquidateInstruction] asks for the state account,
    whose address decodes to 33 bytes: the constructor of the key
    throws, and the instruction is never built.  The sum the source
    writes next, which the run does not reach, is over the [outAmount]
    fields: 1000 on this quote, where the sum of the thresholds is
    995. *)
Theorem createPorgBatchLiquidateInstruction_builds_no_plan :
  (createPorgBatchLiquidateInstruction
     (deployment NOW sol_at_10 (Some two_accounts) quotes_695)
     WALLET OTHER_WALLET "FeeAccount111111111111111111111111111111111" USDC
     false 1%float [quote_1000_995] empty_world).1
  = Throw (Error "Invalid public key input")
  /\ minOutputAmount [quote_1000_995] = Some 1000
  /\ sum_of_thresholds [quote_1000_995] = Some 995.
Proof. repeat split; vm_compute; reflexivity. Qed.

(** C8 (amended).  For every portfolio and every options, the filter of
    the simulation selects exactly the holdings the filter of the
    planner selects; and a simulation that completes reports a fee of
    0.01 times its gross output and a net output of gross minus fee. *)
Theorem simulation_selects_as_planner {N} `{JsNumber N} (E : Env N) :
  (forall options portfolio,
      simulateLiquidation_tokensToLiquidate options portfolio
      = createLiquidateTransaction_tokensToLiquidate options portfolio)
  /\ (forall walletAddress options w r w1,
         simulateLiquidation E walletAddress options w = (Normal r, w1) ->
         sim_porgFee r = num_mul (sim_totalOutputAmount r) lit_0_01
         /\ sim_finalOutputAmount r = num_sub (sim_totalOutputAmount r) (sim_porgFee r)).
Proof.
  split.
  - intros options portfolio. apply tokensToLiquidate_same.
  - intros walletAddress options w r w1 Hrun.
    by apply simulateLiquidation_inv in Hrun as (_ & _ & _ & _ & _ & Hfee & Hnet).
Qed.

Lemma simulation_selects_as_planner_witness :
  exists r w1,
    simulateLiquidation (deployment NOW sol_at_10 (Some two_accounts) quotes_695)
      WALLET into_bonk empty_world = (Normal r, w1)
    /\ map mint (sim_inputTokens r) = [SOL; USDC]
    /\ sim_porgFee r = PrimFloat.mul (sim_totalOutputAmount r) 0x1.47ae147ae147bp-7
    /\ sim_finalOutputAmount r
       = PrimFloat.sub (sim_totalOutputAmount r) (sim_porgFee r).
Proof.
  destruct (simulateLiquidation
              (deployment NOW sol_at_10 (Some two_accounts) quotes_695)
              WALLET into_bonk empty_world) as [[r|e] w1] eqn:Hrun.
  - destruct (proj2 (simulation_selects_as_planner
                       (deployment NOW sol_at_10 (Some two_accounts) quotes_695))
                WALLET into_bonk empty_world r w1 Hrun) as [Hfee Hnet].
    exists r, w1. split; [reflexivity|]. split; [|by split].
    vm_compute in Hrun. injection Hrun as <- _. reflexivity.
  - vm_compute in Hrun. discriminate Hrun.
Defined.

(** C8, as stated, fails: the planner embodies no fee.  Two quote
    collaborators that differ in every amount leave the planner with
    the same outcome (it gives no plan: it ends with the error of its
    [catch] block), while the simulations report different fees (0.0695
    and 0.03475): no function of what the planner gives is the
    simulation's fee. *)
Lemma planner_outcome_carries_no_fee :
  (createLiquidateTransaction (deployment NOW sol_at_10 (Some two_accounts) quotes_695)
     WALLET into_bonk empty_world).1
  = (createLiquidateTransaction (deployment NOW sol_at_10 (Some two_accounts) quotes_half)
       WALLET into_bonk empty_world).1
  /\ (createLiquidateTransaction (deployment NOW sol_at_10 (Some two_accounts) quotes_695)
        WALLET into_bonk empty_world).1
     = Throw (Error "Failed to create liquidation transaction")
  /\ (exists r r',
        (simulateLiquidation (deployment NOW sol_at_10 (Some two_accounts) quotes_695)
           WALLET into_bonk empty_world).1 = Normal r
        /\ (simulateLiquidation (deployment NOW sol_at_10 (Some two_accounts) quotes_half)
              WALLET into_bonk empty_world).1 = Normal r'
        /\ sim_porgFee r = 0x1.1cac083126e98p-4%float
        /\ sim_porgFee r' = 0x1.1cac083126e98p-5%float).
Proof.
  split; [vm_compute; reflexivity|]. split; [vm_compute; reflexivity|].
  eexists _, _. repeat split; vm_compute; reflexivity.
Qed.

(** ** Transaction parser and transaction service *)

Lemma upsert_transactions_signatures (row : TransactionRow) (rows : list TransactionRow) :
  signatures (upsert_transactions row rows)
  = if decide (signature row ∈ signatures rows) then signatures rows
    else signatures rows ++ [signature row].
Proof.
  unfold signatures. induction rows as [|r rest IH]; cbn [upsert_transactions map].
  - by rewrite decide_False by apply not_elem_of_nil.
  - destruct (String.eqb (signature r) (signature row)) eqn:Heq.
    + apply String.eqb_eq in Heq. cbn [map]. rewrite Heq.
      by rewrite decide_True by apply list_elem_of_here.
    + apply String.eqb_neq in Heq. cbn [map]. rewrite IH.
      destruct (decide (signature row ∈ map signature rest)) as [Hin|Hin].
      * by rewrite decide_True by by apply list_elem_of_further.
      * rewrite decide_False; [done|].
        intros Hin'. apply elem_of_cons in Hin' as [?|?]; [congruence | done].
Qed.

(** The upsert keeps the primary key unique. *)
Lemma upsert_transactions_NoDup (row : TransactionRow) (rows : list TransactionRow) :
  NoDup (signatures rows) -> NoDup (signatures (upsert_transactions row rows)).
Proof.
  intros Hkey. rewrite upsert_transactions_signatures.
  destruct (decide (signature row ∈ signatures rows)) as [Hin|Hin]; [done|].
  apply NoDup_app. split; [done|]. split.
  - intros sig Hsig Hrow. apply list_elem_of_singleton in Hrow as ->. done.
  - apply NoDup_singleton.
Qed.

(** After the upsert the signature is stored. *)
Lemma upsert_transactions_stored (row : TransactionRow) (rows : list TransactionRow) :
  signature row ∈ signatures (upsert_transactions row rows).
Proof.
  rewrite upsert_transactions_signatures.
  destruct (decide (signature row ∈ signatures rows)) as [Hin|Hin]; [done|].
  apply elem_of_app. right. apply list_elem_of_here.
Qed.

(** The rows of the other signatures are left as they were. *)
Lemma upsert_transactions_other_rows (row : TransactionRow) (rows : list TransactionRow) :
  other_rows (signature row) (upsert_transactions row rows)
  = other_rows (signature row) rows.
Proof.
  unfold other_rows. induction rows as [|r rows IH]; cbn [upsert_transactions List.filter].
  - by rewrite String.eqb_refl.
  - destruct (String.eqb (signature r) (signature row)) eqn:Heq.
    + cbn [List.filter negb]. by rewrite String.eqb_refl.
    + cbn [List.filter]. rewrite Heq. cbn [negb]. by rewrite IH.
Qed.

Lemma filter_signature_absent (sig : string) (rows : list TransactionRow) :
  sig ∉ signatures rows ->
  List.filter (fun r => String.eqb (signature r) sig) rows = [].
Proof.
  unfold signatures. induction rows as [|r rows IH]; simpl; [done|].
  intros Hnot. apply not_elem_of_cons in Hnot as [Hne Hnot].
  destruct (String.eqb (signature r) sig) eqn:Heq.
  - apply String.eqb_eq in Heq. congruence.
  - by apply IH.
Qed.

(** After the upsert the row of the signature is the row written. *)
Lemma upsert_transactions_row (row : TransactionRow) (rows : list TransactionRow) :
  NoDup (signatures rows) ->
  List.filter (fun r => String.eqb (signature r) (signature row))
    (upsert_transactions row rows) = [row].
Proof.
  unfold signatures. induction rows as [|r rows IH]; cbn [upsert_transactions List.filter map].
  - intros _. by rewrite String.eqb_refl.
  - intros Hkey. apply NoDup_cons in Hkey as [Hfresh Hkey].
    destruct (String.eqb (signature r) (signature row)) eqn:Heq.
    + cbn [List.filter]. rewrite String.eqb_refl. f_equal.
      apply String.eqb_eq in Heq. rewrite <- Heq.
      by apply filter_signature_absent.
    + cbn [List.filter]. rewrite Heq. by apply IH.
Qed.

(** Saving never throws: the row is upserted, as the table keeps it,
    when the database accepts the write, and the table is left as it is
    when the write is refused. *)
Lemma saveTransactionToDb_outcome (db : Supabase) (now : Z)
  (transaction : TransactionDetails) (walletAddress : string)
  (rows : list TransactionRow) :
  saveTransactionToDb db now transaction walletAddress rows
  = (Normal tt,
     if upsert_transactions_ok db (row_of now transaction walletAddress)
     then upsert_transactions
            (stored_transaction db (row_of now transaction walletAddress)) rows
     else rows).
Proof.
  unfold saveTransactionToDb, try_catch, bind, supabase_upsert, ret.
  fold (row_of now transaction walletAddress).
  by destruct (upsert_transactions_ok db _).
Qed.

(** C9 (amended).  Idempotence of the store write.  On a table that
    respects its primary key, two classifications of the same signature
    are saved (at any two instants, for any wallets), and the database
    accepts the first write.  Then the table holds exactly one row for
    that signature: the row of the second write, as the table keeps it,
    when the database accepts that write too, and the row of the first
    write otherwise.  The rows of the other signatures are left as they
    were; the second save changes neither the signatures in the table
    nor their order; the primary key stays unique; and both saves return
    normally. *)
Theorem saveTransactionToDb_twice_one_record (db : Supabase) (now now' : Z)
  (transaction transaction' : TransactionDetails) (walletAddress walletAddress' : string)
  (rows : list TransactionRow) :
  NoDup (signatures rows) ->
  id transaction' = id transaction ->
  upsert_transactions_ok db (row_of now transaction walletAddress) = true ->
  List.filter (fun r => String.eqb (signature r) (id transaction))
    (saveTransactionToDb db now' transaction' walletAddress'
       (saveTransactionToDb db now transaction walletAddress rows).2).2
  = [if upsert_transactions_ok db (row_of now' transaction' walletAddress')
     then stored_transaction db (row_of now' transaction' walletAddress')
     else stored_transaction db (row_of now transaction walletAddress)]
  /\ stored_count (id transaction)
       (saveTransactionToDb db now' transaction' walletAddress'
          (saveTransactionToDb db now transaction walletAddress rows).2).2 = 1%nat
  /\ other_rows (id transaction)
       (saveTransactionToDb db now' transaction' walletAddress'
          (saveTransactionToDb db now transaction walletAddress rows).2).2
     = other_rows (id transaction) rows
  /\ signatures
       (saveTransactionToDb db now' transaction' walletAddress'
          (saveTransactionToDb db now transaction walletAddress rows).2).2
     = signatures (saveTransactionToDb db now transaction walletAddress rows).2
  /\ NoDup
       (signatures
          (saveTransactionToDb db now' transaction' walletAddress'
             (saveTransactionToDb db now transaction walletAddress rows).2).2)
  /\ (saveTransactionToDb db now transaction walletAddress rows).1 = Normal tt
  /\ (saveTransactionToDb db now' transaction' walletAddress'
        (saveTransactionToDb db now transaction walletAddress rows).2).1 = Normal tt.
Proof.
  intros Hkey Hid Hfirst. rewrite !saveTransactionToDb_outcome, Hfirst. cbn [fst snd].
  set (row := stored_transaction db (row_of now transaction walletAddress)).
  set (row' := stored_transaction db (row_of now' transaction' walletAddress')).
  assert (Hrow : signature row = id transaction) by reflexivity.
  assert (Hrow' : signature row' = id transaction) by (by rewrite <- Hid).
  assert (Hkey1 : NoDup (signatures (upsert_transactions row rows)))
    by by apply upsert_transactions_NoDup.
  assert (Hrows :
    List.filter (fun r => String.eqb (signature r) (id transaction))
      (if upsert_transactions_ok db (row_of now' transaction' walletAddress')
       then upsert_transactions row' (upsert_transactions row rows)
       else upsert_transactions row rows)
    = [if upsert_transactions_ok db (row_of now' transaction' walletAddress')
       then row' else row]).
  { destruct (upsert_transactions_ok db (row_of now' transaction' walletAddress')).
    - rewrite <- Hrow'. by apply upsert_transactions_row.
    - rewrite <- Hrow. by apply upsert_transactions_row. }
  split; [exact Hrows|]. split; [unfold stored_count; by rewrite Hrows|].
  destruct (upsert_transactions_ok db (row_of now' transaction' walletAddress')).
  - split; [|split; [|split; [|done]]].
    + rewrite <- Hrow' at 1. rewrite upsert_transactions_other_rows.
      rewrite Hrow', <- Hrow. apply upsert_transactions_other_rows.
    + rewrite (upsert_transactions_signatures row'). rewrite decide_True; [done|].
      rewrite Hrow', <- Hrow. apply upsert_transactions_stored.
    + by apply upsert_transactions_NoDup.
  - split; [|done]. rewrite <- Hrow. apply upsert_transactions_other_rows.
Qed.

Lemma saveTransactionToDb_twice_one_record_witness :
  List.filter (fun r => String.eqb (signature r) SIGNATURE)
    (saveTransactionToDb answering_db (NOW + 1000) liquidation_details WALLET
       (saveTransactionToDb answering_db NOW liquidation_details WALLET
          two_stored_rows).2).2
  = [row_of (NOW + 1000) liquidation_details WALLET]
  /\ other_rows SIGNATURE
       (saveTransactionToDb answering_db (NOW + 1000) liquidation_details WALLET
          (saveTransactionToDb answering_db NOW liquidation_details WALLET
             two_stored_rows).2).2
     = other_rows SIGNATURE two_stored_rows
  /\ signatures
       (saveTransactionToDb answering_db (NOW + 1000) liquidation_details WALLET
          (saveTransactionToDb answering_db NOW liquidation_details WALLET
             two_stored_rows).2).2
     = [SIGNATURE; SIGNATURE_2].
Proof.
  assert (Hkey : NoDup (signatures two_stored_rows)).
  { apply NoDup_cons. split.
    - intros Hin. apply list_elem_of_singleton in Hin. vm_compute in Hin. discriminate Hin.
    - apply NoDup_singleton. }
  destruct (saveTransactionToDb_twice_one_record answering_db NOW (NOW + 1000)
              liquidation_details liquidation_details WALLET WALLET two_stored_rows
              Hkey eq_refl eq_refl) as (Hrow & _ & Hothers & Hsame & _).
  split; [exact Hrow|]. split; [exact Hothers|]. rewrite Hsame. reflexivity.
Defined.

(** C9, as stated, fails when the database refuses the writes.  Over a
    table that cannot be reached, the classification of a signature is
    saved twice: both saves return normally (the error is only logged),
    and no row is stored for the signature. *)
Lemma saveTransactionToDb_refused_stores_nothing :
  (saveTransactionToDb unreachable_db NOW liquidation_details WALLET []).1 = Normal tt
  /\ (saveTransactionToDb unreachable_db (NOW + 1000) liquidation_details WALLET
        (saveTransactionToDb unreachable_db NOW liquidation_details WALLET []).2).1
     = Normal tt
  /\ stored_count SIGNATURE
       (saveTransactionToDb unreachable_db (NOW + 1000) liquidation_details WALLET
          (saveTransactionToDb unreachable_db NOW liquidation_details WALLET []).2).2
     = 0%nat.
Proof. repeat split. Qed.

Lemma parsePorgTransaction_type (transaction : ParsedTransactionWithMeta) :
  parsed_type (parsePorgTransaction transaction) = LIQUIDATE
  \/ parsed_type (parsePorgTransaction transaction) = LIQUIDATE_AND_BRIDGE.
Proof.
  unfold parsePorgTransaction. destruct (existsb _ _); [by right | by left].
Qed.

(** A transaction fetched from the chain gets the type [classify]. *)
Lemma getTransactionDetails_fetched (db : Supabase) (now : Z)
  (connection_getTransaction : string -> option (option ParsedTransactionWithMeta))
  (transactionId : string) (rows : list TransactionRow)
  (transaction : ParsedTransactionWithMeta)
  (details : option TransactionDetails) (rows1 : list TransactionRow) :
  dbTransaction db transactionId rows = None ->
  connection_getTransaction transactionId = Some (Some transaction) ->
  getTransactionDetails db now connection_getTransaction transactionId rows
  = (Normal details, rows1) ->
  exists d, details = Some d /\ id d = transactionId /\ type d = classify transaction.
Proof.
  intros Hmiss Hchain. unfold getTransactionDetails, classify. intros Hrun.
  apply try_rethrow_inv_Normal in Hrun.
  unfold bind at 1, gets at 1 in Hrun. rewrite Hmiss in Hrun.
  unfold bind at 1, call at 1, ret at 1 in Hrun. rewrite Hchain in Hrun.
  destruct (negb (isPorgTransaction transaction)).
  - unfold ret in Hrun. injection Hrun as <- _. by eexists.
  - destruct (head (message_accountKeys transaction)) as [payer|]; [|discriminate].
    unfold call at 1, ret at 1, bind at 1 in Hrun.
    rewrite (bind_Normal _ _ _ _ _ (saveTransactionToDb_outcome _ _ _ _ _)) in Hrun.
    unfold ret in Hrun. injection Hrun as <- _. by eexists.
Qed.

(** C10.  The classifier never produces "bridge".  [parsePorgTransaction]
    returns "liquidate" or "liquidate_and_bridge"; the type given to a
    transaction fetched from the chain is one of "liquidate",
    "liquidate_and_bridge" and "unknown"; and so is the type of the
    details [getTransactionDetails] returns for it. *)
Theorem classification_never_bridge (transaction : ParsedTransactionWithMeta) :
  (parsed_type (parsePorgTransaction transaction) = LIQUIDATE
   \/ parsed_type (parsePorgTransaction transaction) = LIQUIDATE_AND_BRIDGE)
  /\ (classify transaction = LIQUIDATE
      \/ classify transaction = LIQUIDATE_AND_BRIDGE
      \/ classify transaction = UNKNOWN)
  /\ classify transaction <> BRIDGE
  /\ (forall db now connection_getTransaction transactionId rows details rows1,
         dbTransaction db transactionId rows = None ->
         connection_getTransaction transactionId = Some (Some transaction) ->
         getTransactionDetails db now connection_getTransaction transactionId rows
         = (Normal details, rows1) ->
         exists d, details = Some d /\ type d <> BRIDGE).
Proof.
  pose proof (parsePorgTransaction_type transaction) as Hparsed.
  assert (Hclass : classify transaction = LIQUIDATE
                   \/ classify transaction = LIQUIDATE_AND_BRIDGE
                   \/ classify transaction = UNKNOWN).
  { unfold classify. destruct (negb (isPorgTransaction transaction)); [by right; right|].
    destruct Hparsed; [by left | by right; left]. }
  assert (Hnot : classify transaction <> BRIDGE).
  { by destruct Hclass as [-> | [-> | ->]]. }
  repeat split; try done.
  intros db now chain transactionId rows details rows1 Hmiss Hchain Hrun.
  destruct (getTransactionDetails_fetched _ _ _ _ _ _ _ _ Hmiss Hchain Hrun)
    as (d & -> & _ & Htype).
  exists d. split; [done|]. by rewrite Htype.
Qed.

Lemma classification_never_bridge_witness :
  exists d rows1,
    getTransactionDetails answering_db NOW chain_with_liquidation SIGNATURE []
    = (Normal (Some d), rows1)
    /\ type d = LIQUIDATE
    /\ type d <> BRIDGE.
Proof.
  destruct (getTransactionDetails answering_db NOW chain_with_liquidation SIGNATURE [])
    as [[details|e] rows1] eqn:Hrun.
  - destruct (proj2 (proj2 (proj2 (classification_never_bridge liquidation_on_chain)))
                answering_db NOW chain_with_liquidation SIGNATURE [] details rows1
                eq_refl eq_refl Hrun) as (d & -> & Hnot).
    exists d, rows1. split; [reflexivity|]. split; [|exact Hnot].
    vm_compute in Hrun. by injection Hrun as <- _.
  - vm_compute in Hrun. discriminate Hrun.
Defined.

(** ** Further properties of the services *)

(** The price lookup never throws: whatever the caches hold and
    whatever the origin does, [getTokenPrice] completes with a price. *)
Theorem getTokenPrice_never_throws {N} `{JsNumber N} (E : Env N) (mint : string)
  (w : World N) :
  exists p w1, getTokenPrice E mint w = (Normal p, w1).
Proof. apply getTokenPrice_Normal. Qed.

(** When the lookup finds no fresh entry (none in memory, and none in
    the store or no answer from the store) and the origin answers, the
    answer is returned and cached in memory under the instant of the
    lookup.  When the store takes the price, its table gains one row for
    the token, with the price as the NUMERIC(20, 8) column keeps it and
    the instant of the write; when the store refuses it, the table is
    left as it is.  Either way the next lookup of the token at the same
    instant is served from memory, without the origin. *)
Theorem getTokenPrice_origin_answer_cached {N} `{JsNumber N} (E : Env N)
  (mint : string) (w : World N) (p : N) :
  memory_fresh E w mint = false ->
  store_fresh E w mint = false ->
  price_api E mint = Some p ->
  (getTokenPrice E mint w).1 = Normal p
  /\ tokenPriceCache (getTokenPrice E mint w).2 !! mint
     = Some {| price := p; timestamp := Date_now E |}
  /\ token_prices (getTokenPrice E mint w).2
     = (if price_accepted E mint p w
        then token_prices w ++
             [{| tp_mint := mint; tp_price := NUMERIC_20_8 E p;
                 tp_updated_at := new_Date E |}]
        else token_prices w)
  /\ price_api_calls (getTokenPrice E mint w).2 = (price_api_calls w ++ [mint])%list
  /\ getTokenPrice E mint (getTokenPrice E mint w).2
     = (Normal p, (getTokenPrice E mint w).2).
Proof.
  intros Hmemory Hstore Horigin.
  rewrite getTokenPrice_memory_miss, getTokenPrice_lookup_store_miss by done.
  rewrite Horigin. cbn [fst snd].
  assert (Hcached : tokenPriceCache (fetched E mint p w) !! mint
                    = Some {| price := p; timestamp := Date_now E |}).
  { unfold fetched. simpl. apply lookup_insert_eq. }
  split; [done|]. split; [done|]. split; [done|]. split; [done|].
  apply (getTokenPrice_memory_hit E mint _ _ Hcached). simpl.
  unfold CACHE_EXPIRATION. lia.
Qed.

Lemma getTokenPrice_origin_answer_cached_witness :
  (getTokenPrice (deployment NOW sol_at_10 None no_quotes) SOL stale_memory_world).1
  = Normal 10%float
  /\ token_prices
       (getTokenPrice (deployment NOW sol_at_10 None no_quotes) SOL
          stale_memory_world).2
     = [{| tp_mint := SOL; tp_price := 10%float; tp_updated_at := NOW + WRITE_DELAY |}]
  /\ getTokenPrice (deployment NOW sol_at_10 None no_quotes) SOL
       (getTokenPrice (deployment NOW sol_at_10 None no_quotes) SOL
          stale_memory_world).2
     = (Normal 10%float,
        (getTokenPrice (deployment NOW sol_at_10 None no_quotes) SOL
           stale_memory_world).2).
Proof.
  destruct (getTokenPrice_origin_answer_cached
              (deployment NOW sol_at_10 None no_quotes) SOL stale_memory_world
              10%float ltac:(vm_compute; reflexivity) eq_refl eq_refl)
    as (Hfirst & _ & Hstore & _ & Hsecond).
  split; [exact Hfirst|]. split; [|exact Hsecond].
  rewrite Hstore. vm_compute. reflexivity.
Defined.

(** With a threshold that is omitted, or given and neither 0 nor NaN,
    the planner and the simulation select by the specification's rule:
    every holding but the target token and, unless dust is included,
    the holdings valued below the threshold. *)
Theorem tokensToLiquidate_follow_rule {N} `{JsNumber N} (options : LiquidateOptions N)
  (portfolio : Portfolio N) :
  match minTokenValueUsd options with
  | Some m => num_truthy m = true
  | None => True
  end ->
  createLiquidateTransaction_tokensToLiquidate options portfolio
  = selection_rule options portfolio
  /\ simulateLiquidation_tokensToLiquidate options portfolio
     = selection_rule options portfolio.
Proof.
  intros Hmin. split.
  - by apply tokensToLiquidate_selection_rule.
  - rewrite (tokensToLiquidate_same options portfolio).
    by apply tokensToLiquidate_selection_rule.
Qed.

Lemma tokensToLiquidate_follow_rule_witness :
  map symbol (createLiquidateTransaction_tokensToLiquidate (into_usdc false None)
                scenario_portfolio) = ["SOL"]
  /\ map symbol (createLiquidateTransaction_tokensToLiquidate (into_usdc true None)
                   scenario_portfolio) = ["SOL"; "DUST"]
  /\ map symbol (simulateLiquidation_tokensToLiquidate (into_usdc false (Some 1%float))
                   half_dollar_portfolio) = ["SOL"]
  /\ map symbol (simulateLiquidation_tokensToLiquidate (into_usdc true (Some 1%float))
                   half_dollar_portfolio) = ["SOL"; "DUST"].
Proof.
  rewrite (proj1 (tokensToLiquidate_follow_rule (into_usdc false None)
                    scenario_portfolio I)).
  rewrite (proj1 (tokensToLiquidate_follow_rule (into_usdc true None)
                    scenario_portfolio I)).
  assert (Htruthy : num_truthy 1%float = true) by (vm_compute; reflexivity).
  rewrite (proj2 (tokensToLiquidate_follow_rule (into_usdc false (Some 1%float))
                    half_dollar_portfolio Htruthy)).
  rewrite (proj2 (tokensToLiquidate_follow_rule (into_usdc true (Some 1%float))
                    half_dollar_portfolio Htruthy)).
  repeat split; vm_compute; reflexivity.
Defined.

(** On any numbers, doubles included: a portfolio valued afresh whose
    total is not above zero has every percentage at zero. *)
Theorem getPortfolio_zero_total_zero_percentages {N} `{JsNumber N} (E : Env N)
  (walletAddress : string) (w : World N) (p : Portfolio N) (w1 : World N) :
  portfolio_cache_hit E w walletAddress = false ->
  getPortfolio E walletAddress w = (Normal p, w1) ->
  num_gt (totalValue p) lit_0 = false ->
  Forall (fun token => percentage token = lit_0) (tokens p).
Proof.
  intros Hmiss Hrun. rewrite getPortfolio_cache_miss in Hrun by done.
  apply try_rethrow_inv_Normal in Hrun.
  exact (getPortfolio_fresh_percentage_zero E _ _ _ _ Hrun).
Qed.

Lemma getPortfolio_zero_total_zero_percentages_witness :
  exists p w1,
    getPortfolio (deployment NOW worthless (Some two_accounts) no_quotes)
      WALLET empty_world = (Normal p, w1)
    /\ map mint (tokens p) = [SOL; USDC]
    /\ Forall (fun token => percentage token = 0%float) (tokens p).
Proof.
  destruct (getPortfolio (deployment NOW worthless (Some two_accounts) no_quotes)
              WALLET empty_world) as [[p|e] w1] eqn:Hrun.
  - exists p, w1. split; [reflexivity|]. split.
    + vm_compute in Hrun. injection Hrun as <- _. reflexivity.
    + apply (getPortfolio_zero_total_zero_percentages
               (deployment NOW worthless (Some two_accounts) no_quotes)
               WALLET empty_world p w1 eq_refl Hrun).
      vm_compute in Hrun. injection Hrun as <- _. reflexivity.
  - vm_compute in Hrun. discriminate Hrun.
Defined.

Lemma upsert_transactions_append (row : TransactionRow) (rows : list TransactionRow) :
  signature row ∉ signatures rows -> upsert_transactions row rows = rows ++ [row].
Proof.
  unfold signatures. induction rows as [|r rows IH]; simpl; [done|].
  intros Hfresh. apply not_elem_of_cons in Hfresh as [Hne Hfresh].
  destruct (String.eqb (signature r) (signature row)) eqn:Heq.
  - apply String.eqb_eq in Heq. congruence.
  - by rewrite IH.
Qed.

(** The details of a Porg transaction that is on the chain and not yet
    in the table are fetched and returned, and saved under the fee
    payer.  When the database accepts the write, the table gains one
    row for the transaction, as the table keeps it, and holds exactly
    one; fetching the details again, at any later instant and with a
    query that answers, returns the details of that row and leaves the
    table as it is.  When the database refuses the write the table is
    left as it is. *)
Theorem getTransactionDetails_twice_one_record (db : Supabase) (now now' : Z)
  (connection_getTransaction : string -> option (option ParsedTransactionWithMeta))
  (transactionId : string) (rows : list TransactionRow)
  (transaction : ParsedTransactionWithMeta) :
  transactionId ∉ signatures rows ->
  connection_getTransaction transactionId = Some (Some transaction) ->
  isPorgTransaction transaction = true ->
  message_accountKeys transaction <> [] ->
  exists d payer rows1,
    getTransactionDetails db now connection_getTransaction transactionId rows
    = (Normal (Some d), rows1)
    /\ id d = transactionId
    /\ type d = parsed_type (parsePorgTransaction transaction)
    /\ head (message_accountKeys transaction) = Some payer
    /\ (upsert_transactions_ok db (row_of now d payer) = true ->
        rows1 = rows ++ [stored_transaction db (row_of now d payer)]
        /\ stored_count transactionId rows1 = 1%nat
        /\ (select_transaction_ok db transactionId = true ->
            getTransactionDetails db now' connection_getTransaction transactionId rows1
            = (Normal
                 (Some (mapDbTransactionToTransactionDetails
                          (stored_transaction db (row_of now d payer)))),
               rows1)))
    /\ (upsert_transactions_ok db (row_of now d payer) = false -> rows1 = rows).
Proof.
  intros Hfresh Hchain Hporg Hkeys.
  destruct (message_accountKeys transaction) as [|walletAddress keys] eqn:Hk; [done|].
  pose proof (filter_signature_absent _ _ Hfresh) as Hnone.
  assert (Hmiss : dbTransaction db transactionId rows = None).
  { unfold dbTransaction, select_transaction. rewrite Hnone.
    by destruct (select_transaction_ok db transactionId). }
  eexists _, walletAddress, _. split; [|split; [|split; [|split; [|split]]]].
  - unfold getTransactionDetails, try_catch.
    unfold bind at 1, gets at 1. rewrite Hmiss.
    unfold bind at 1, call at 1, ret at 1. rewrite Hchain, Hporg, Hk. cbn [negb head].
    unfold bind at 1, call at 1, ret at 1.
    rewrite (bind_Normal _ _ _ _ _ (saveTransactionToDb_outcome _ _ _ _ _)).
    reflexivity.
  - reflexivity.
  - reflexivity.
  - reflexivity.
  - intros Hok. rewrite Hok.
    rewrite upsert_transactions_append by done.
    split; [reflexivity|]. split.
    + unfold stored_count. rewrite List.filter_app, Hnone. simpl.
      by rewrite String.eqb_refl.
    + intros Hselect.
      unfold getTransactionDetails, try_catch, bind, gets, ret, dbTransaction,
        select_transaction.
      rewrite Hselect, List.filter_app, Hnone. simpl. by rewrite String.eqb_refl.
  - by intros ->.
Qed.

Lemma getTransactionDetails_twice_one_record_witness :
  exists d rows1,
    getTransactionDetails answering_db NOW chain_with_liquidation SIGNATURE []
    = (Normal (Some d), rows1)
    /\ type d = LIQUIDATE
    /\ stored_count SIGNATURE rows1 = 1%nat
    /\ getTransactionDetails answering_db (NOW + 60000) chain_with_liquidation
         SIGNATURE rows1
       = (Normal (Some d), rows1).
Proof.
  destruct (getTransactionDetails_twice_one_record answering_db NOW (NOW + 60000)
              chain_with_liquidation SIGNATURE [] liquidation_on_chain
              ltac:(apply not_elem_of_nil) eq_refl eq_refl ltac:(discriminate))
    as (d & payer & rows1 & Hfirst & _ & Htype & Hpayer & Hstored & _).
  injection Hpayer as <-.
  assert (Hd : d = liquidation_details).
  { vm_compute in Hfirst. by injection Hfirst as <- _. }
  subst d.
  destruct (Hstored eq_refl) as (_ & Hone & Hsecond).
  exists liquidation_details, rows1. split; [exact Hfirst|]. split; [exact Htype|].
  split; [exact Hone|]. exact (Hsecond eq_refl).
Defined.

(** The simulation completes whenever the portfolio is obtained and the
    quote collaborator answers for every selected holding; its quotes
    are those answers, in the order of the holdings. *)
Theorem simulateLiquidation_completes {N} `{JsNumber N} (E : Env N)
  (walletAddress : string) (options : LiquidateOptions N) (w : World N)
  (portfolio : Portfolio N) (w1 : World N) (quotes : list (JupiterQuoteResponse N)) :
  getPortfolio E walletAddress w = (Normal portfolio, w1) ->
  Forall2 (fun token quote =>
             jupiter_quote_api E (quote_request E options token) = Some quote)
    (simulateLiquidation_tokensToLiquidate options portfolio) quotes ->
  exists r,
    simulateLiquidation E walletAddress options w = (Normal r, w1)
    /\ sim_inputTokens r = simulateLiquidation_tokensToLiquidate options portfolio
    /\ sim_quotes r = quotes
    /\ sim_totalOutputAmount r = gross_output E quotes.
Proof.
  intros Hp Hquotes.
  destruct (quote_each_Some E options _ _ [] lit_0 lit_0 w1 Hquotes) as (loop & Hloop).
  pose proof (quote_each_spec E _ _ _ _ _ _ _ _ Hloop) as (new & Hshape & Hnew & _).
  assert (Hsame : new = quotes).
  { clear Hloop Hshape. revert new Hnew.
    induction Hquotes as [|token quote tokens quotes Hq _ IH]; intros new Hnew.
    - by inversion Hnew.
    - inversion Hnew as [|? quote' ? new' Hq' Hnew']; subst.
      f_equal; [congruence | by apply IH]. }
  subst new. subst loop.
  eexists. split; [|split; [|split]].
  - unfold simulateLiquidation, try_catch.
    rewrite (bind_Normal _ _ _ _ _ Hp), (bind_Normal _ _ _ _ _ Hloop).
    reflexivity.
  - reflexivity.
  - reflexivity.
  - reflexivity.
Qed.

Lemma simulateLiquidation_completes_witness :
  exists r w1,
    simulateLiquidation (deployment NOW sol_at_10 (Some two_accounts) quotes_695)
      WALLET into_bonk empty_world = (Normal r, w1)
    /\ map outAmount (sim_quotes r) = ["495000"; "200000"].
Proof.
  destruct (getPortfolio (deployment NOW sol_at_10 (Some two_accounts) quotes_695)
              WALLET empty_world) as [[portfolio|e] w1] eqn:Hp.
  - assert (Hquotes :
      Forall2 (fun token quote =>
                 jupiter_quote_api
                   (deployment NOW sol_at_10 (Some two_accounts) quotes_695)
                   (quote_request
                      (deployment NOW sol_at_10 (Some two_accounts) quotes_695)
                      into_bonk token) = Some quote)
        (simulateLiquidation_tokensToLiquidate into_bonk portfolio)
        [quote_to BONK SOL "495000" "492525" "1237";
         quote_to BONK USDC "200000" "199000" "500"]).
    { vm_compute in Hp. injection Hp as <- _.
      repeat constructor. }
    destruct (simulateLiquidation_completes
                (deployment NOW sol_at_10 (Some two_accounts) quotes_695)
                WALLET into_bonk empty_world portfolio w1 _ Hp Hquotes)
      as (r & Hrun & _ & Hq & _).
    exists r, w1. split; [exact Hrun|]. by rewrite Hq.
  - vm_compute in Hp. discriminate Hp.
Defined.

(** * Further properties *)

(** ** The latest row of a query *)

(** The latest row is the first of the rows with the greatest key. *)
Lemma latest_by_fold_below {A} (key : A -> Z) (r : A) (l : list A) (best : option A) :
  (forall x, In x l -> key x < key r) ->
  match best with Some b => key b < key r | None => True end ->
  match
    fold_left
      (fun best r =>
         match best with
         | Some b => if key b <? key r then Some r else Some b
         | None => Some r
         end) l best
  with
  | Some b => key b < key r
  | None => True
  end.
Proof.
  revert best. induction l as [|x l IH]; intros best Hl Hbest; simpl; [done|].
  apply IH; [intros y Hy; apply Hl; by right|].
  assert (key x < key r) by (apply Hl; by left).
  destruct best as [b|]; [|done]. by destruct (key b <? key x).
Qed.

Lemma latest_by_fold_keep {A} (key : A -> Z) (r : A) (l : list A) :
  (forall x, In x l -> key x <= key r) ->
  fold_left
    (fun best r =>
       match best with
       | Some b => if key b <? key r then Some r else Some b
       | None => Some r
       end) l (Some r)
  = Some r.
Proof.
  induction l as [|x l IH]; intros Hl; simpl; [done|].
  assert (key x <= key r) by (apply Hl; by left).
  destruct (key r <? key x) eqn:Hlt; [lia|].
  apply IH. intros y Hy. apply Hl. by right.
Qed.

Lemma latest_by_split {A} (key : A -> Z) (l1 : list A) (r : A) (l2 : list A) :
  (forall x, In x l1 -> key x < key r) ->
  (forall x, In x l2 -> key x <= key r) ->
  latest_by key (l1 ++ r :: l2) = Some r.
Proof.
  intros H1 H2. unfold latest_by. rewrite fold_left_app. simpl.
  pose proof (latest_by_fold_below key r l1 None H1 I) as Hbest.
  destruct (fold_left _ l1 None) as [b|].
  - destruct (key b <? key r) eqn:Hlt; [|lia]. by apply latest_by_fold_keep.
  - by apply latest_by_fold_keep.
Qed.

Lemma latest_by_fold_inv {A} (key : A -> Z) (l : list A) (b r : A) :
  fold_left
    (fun best r =>
       match best with
       | Some b => if key b <? key r then Some r else Some b
       | None => Some r
       end) l (Some b)
  = Some r ->
  (r = b /\ forall x, In x l -> key x <= key b)
  \/ exists l1 l2,
       l = l1 ++ r :: l2 /\ key b < key r
       /\ (forall x, In x l1 -> key x < key r)
       /\ (forall x, In x l2 -> key x <= key r).
Proof.
  revert b. induction l as [|x l IH]; intros b; simpl.
  - intros [= ->]. left. split; [done|]. intros x [].
  - destruct (key b <? key x) eqn:Hlt; intros Hfold; apply IH in Hfold.
    + right. destruct Hfold as [[-> Hl]|(l1 & l2 & -> & Hxr & H1 & H2)].
      * exists [], l. split; [done|]. split; [lia|]. split; [intros y []|done].
      * exists (x :: l1), l2. split; [done|]. split; [lia|]. split; [|done].
        intros y [<-|Hy]; [lia | by apply H1].
    + destruct Hfold as [[-> Hl]|(l1 & l2 & -> & Hbr & H1 & H2)].
      * left. split; [done|]. intros y [<-|Hy]; [lia | by apply Hl].
      * right. exists (x :: l1), l2. split; [done|]. split; [done|]. split; [|done].
        intros y [<-|Hy]; [lia | by apply H1].
Qed.

Lemma latest_by_inv {A} (key : A -> Z) (l : list A) (r : A) :
  latest_by key l = Some r ->
  exists l1 l2,
    l = l1 ++ r :: l2
    /\ (forall x, In x l1 -> key x < key r)
    /\ (forall x, In x l2 -> key x <= key r).
Proof.
  unfold latest_by. destruct l as [|x l]; simpl; [discriminate|].
  intros Hfold. apply latest_by_fold_inv in Hfold
    as [[-> Hl]|(l1 & l2 & -> & Hxr & H1 & H2)].
  - exists [], l. split; [done|]. split; [intros y []|done].
  - exists (x :: l1), l2. split; [done|]. split; [|done].
    intros y [<-|Hy]; [lia | by apply H1].
Qed.

Lemma latest_by_None {A} (key : A -> Z) (l : list A) :
  latest_by key l = None -> l = [].
Proof.
  unfold latest_by. destruct l as [|x l]; [done|]. simpl. intros Hfold.
  exfalso. revert Hfold. generalize x. clear x.
  induction l as [|y l IH]; intros x; simpl; [discriminate|].
  destruct (key x <? key y); apply IH.
Qed.

(** Dropping rows changes the latest row only when it drops a row with
    the greatest key. *)
Lemma latest_by_filter {A} (key : A -> Z) (keep : A -> bool) (l : list A) :
  (forall r, In r l -> (forall x, In x l -> key x <= key r) -> keep r = true) ->
  latest_by key (List.filter keep l) = latest_by key l.
Proof.
  intros Hkeep. destruct (latest_by key l) as [r|] eqn:Hl.
  - apply latest_by_inv in Hl as (l1 & l2 & -> & H1 & H2).
    rewrite List.filter_app. simpl. rewrite Hkeep.
    + apply latest_by_split.
      * intros x Hx. apply List.filter_In in Hx as [Hx _]. by apply H1.
      * intros x Hx. apply List.filter_In in Hx as [Hx _]. by apply H2.
    + apply in_or_app. right. by left.
    + intros x Hx. apply in_app_or in Hx as [Hx|[<-|Hx]];
        [apply H1 in Hx; lia | lia | by apply H2].
  - apply latest_by_None in Hl. by subst l.
Qed.

(** ** Price oracle: what a lookup depends on and what it touches *)

Section PriceOracleFrame.
Context {N : Type} `{JsNumber N} (E : Env N).

(** The price a lookup returns depends on the world only through the
    token's in-memory entry and the token's latest stored row. *)
Lemma getTokenPrice_view (mint : string) (w w' : World N) :
  tokenPriceCache w !! mint = tokenPriceCache w' !! mint ->
  select_token_price mint (token_prices w) = select_token_price mint (token_prices w') ->
  (getTokenPrice E mint w).1 = (getTokenPrice E mint w').1.
Proof.
  intros Hcache Hrow.
  assert (Hm : memory_fresh E w mint = memory_fresh E w' mint).
  { unfold memory_fresh. by rewrite Hcache. }
  assert (Hs : store_fresh E w mint = store_fresh E w' mint).
  { unfold store_fresh. rewrite <- !select_token_price_fresh. by rewrite Hrow. }
  destruct (memory_fresh E w mint) eqn:Hm1; symmetry in Hm.
  - unfold memory_fresh in Hm1, Hm.
    destruct (tokenPriceCache w !! mint) as [entry|] eqn:Hc; [|done].
    rewrite <- Hcache in Hm.
    rewrite (getTokenPrice_memory_hit E mint w entry Hc Hm1).
    symmetry in Hcache.
    by rewrite (getTokenPrice_memory_hit E mint w' entry Hcache Hm).
  - rewrite !getTokenPrice_memory_miss by done.
    destruct (store_fresh E w mint) eqn:Hs1; symmetry in Hs.
    + destruct (getTokenPrice_lookup_store_hit E mint w Hs1) as (r & Hr & ->).
      destruct (getTokenPrice_lookup_store_hit E mint w' Hs) as (r' & Hr' & ->).
      simpl. congruence.
    + rewrite !getTokenPrice_lookup_store_miss by done.
      destruct (price_api E mint); [done|]. simpl.
      unfold fallback_price. by rewrite Hcache.
Qed.

(** The world a lookup leaves, case by case. *)
Lemma getTokenPrice_world (mint : string) (w : World N) :
  (getTokenPrice E mint w).2 = w
  \/ (exists entry,
        (getTokenPrice E mint w).2
        = {| tokenPriceCache := <[mint := entry]> (tokenPriceCache w);
             token_prices := token_prices w;
             portfolio_cache := portfolio_cache w;
             price_api_calls := price_api_calls w |})
  \/ (exists p, (getTokenPrice E mint w).2 = fetched E mint p w)
  \/ (getTokenPrice E mint w).2 = logged mint w.
Proof.
  destruct (memory_fresh E w mint) eqn:Hm.
  - unfold memory_fresh in Hm.
    destruct (tokenPriceCache w !! mint) as [entry|] eqn:Hc; [|done].
    left. by rewrite (getTokenPrice_memory_hit E mint w entry Hc Hm).
  - rewrite getTokenPrice_memory_miss by done.
    destruct (store_fresh E w mint) eqn:Hs.
    + destruct (getTokenPrice_lookup_store_hit E mint w Hs) as (r & _ & ->).
      right. left. by eexists.
    + rewrite getTokenPrice_lookup_store_miss by done.
      destruct (price_api E mint) as [p|]; right; right; [left; by exists p | by right].
Qed.

Lemma select_token_price_other (mint other : string) (rows : list (TokenPriceRow N))
  (row : TokenPriceRow N) :
  tp_mint row = mint -> other <> mint ->
  select_token_price other (rows ++ [row]) = select_token_price other rows.
Proof.
  intros Hrow Hne. unfold select_token_price. rewrite List.filter_app. simpl.
  rewrite Hrow. destruct (String.eqb_spec mint other) as [->|_]; [done|].
  by rewrite app_nil_r.
Qed.

(** A lookup leaves alone what the lookups of the other tokens read, and
    the cached snapshots. *)
Lemma getTokenPrice_frame (mint other : string) (w : World N) :
  other <> mint ->
  tokenPriceCache (getTokenPrice E mint w).2 !! other = tokenPriceCache w !! other
  /\ select_token_price other (token_prices (getTokenPrice E mint w).2)
     = select_token_price other (token_prices w)
  /\ portfolio_cache (getTokenPrice E mint w).2 = portfolio_cache w.
Proof.
  intros Hne.
  destruct (getTokenPrice_world mint w) as [->|[(entry & ->)|[(p & ->)| ->]]];
    simpl; try done.
  - by rewrite lookup_insert_ne.
  - rewrite lookup_insert_ne by done. split; [done|]. split; [|done].
    destruct (price_accepted E mint p w); [|done].
    by apply select_token_price_other with mint.
Qed.

End PriceOracleFrame.

(** Lookups of different tokens do not interfere: the price a token's
    lookup returns is the same before and after a lookup of another
    token, whatever that lookup fetched, stored or cached. *)
Theorem getTokenPrice_tokens_independent {N} `{JsNumber N} (E : Env N)
  (mint other : string) (w : World N) :
  other <> mint ->
  (getTokenPrice E other (getTokenPrice E mint w).2).1 = (getTokenPrice E other w).1.
Proof.
  intros Hne. destruct (getTokenPrice_frame E mint other w Hne) as (Hc & Hr & _).
  by apply getTokenPrice_view.
Qed.

Lemma getTokenPrice_tokens_independent_witness :
  USDC <> SOL
  /\ (getTokenPrice (deployment NOW sol_at_10 None no_quotes) USDC
        (getTokenPrice (deployment NOW sol_at_10 None no_quotes) SOL
           fresh_store_world).2).1
     = (getTokenPrice (deployment NOW sol_at_10 None no_quotes) USDC
          fresh_store_world).1.
Proof.
  split; [discriminate|].
  apply (getTokenPrice_tokens_independent
           (deployment NOW sol_at_10 None no_quotes) SOL USDC fresh_store_world).
  discriminate.
Defined.

(** ** Database maintenance *)

Lemma filter_filter_comm {A} (P Q : A -> bool) (l : list A) :
  List.filter P (List.filter Q l) = List.filter Q (List.filter P l).
Proof.
  induction l as [|x l IH]; simpl; [done|].
  destruct (P x) eqn:HP; destruct (Q x) eqn:HQ; simpl; rewrite ?HP, ?HQ, ?IH; done.
Qed.

Lemma filter_filter_and {A} (P Q : A -> bool) (l : list A) :
  List.filter P (List.filter Q l) = List.filter (fun x => Q x && P x) l.
Proof.
  induction l as [|x l IH]; simpl; [done|].
  destruct (Q x); simpl; [destruct (P x)|]; by rewrite IH.
Qed.

Lemma filter_none {A} (P : A -> bool) (l : list A) :
  (forall x, In x l -> P x = false) -> List.filter P l = [].
Proof.
  induction l as [|x l IH]; intros Hl; simpl; [done|].
  rewrite (Hl x) by (by left). apply IH. intros y Hy. apply Hl. by right.
Qed.

Lemma filter_all {A} (P : A -> bool) (l : list A) :
  (forall x, In x l -> P x = true) -> List.filter P l = l.
Proof.
  induction l as [|x l IH]; intros Hl; simpl; [done|].
  rewrite (Hl x) by (by left). f_equal. apply IH. intros y Hy. apply Hl. by right.
Qed.

Lemma filter_length_map {A B} (f : A -> B) (P : B -> bool) (l : list A) :
  length (List.filter (fun x => P (f x)) l) = length (List.filter P (map f l)).
Proof.
  induction l as [|x l IH]; simpl; [done|]. destruct (P (f x)); simpl; by rewrite IH.
Qed.

Lemma filter_and_length {A} (P Q : A -> bool) (l : list A) :
  (length (List.filter (fun x => Q x && P x) l) <= length (List.filter P l))%nat.
Proof.
  induction l as [|x l IH]; simpl; [done|].
  destruct (Q x), (P x); simpl; lia.
Qed.

(** A list of integers has a greatest element. *)
Lemma list_max_exists (l : list Z) :
  l <> [] -> exists m, In m l /\ forall x, In x l -> x <= m.
Proof.
  induction l as [|a l IH]; [done|]. intros _.
  destruct l as [|b l].
  - exists a. split; [by left|]. intros x [<-|[]]. lia.
  - destruct IH as (m & Hm & Hmax); [done|].
    destruct (Z_le_gt_dec a m) as [Hle|Hgt].
    + exists m. split; [by right|]. intros x [<-|Hx]; [done | by apply Hmax].
    + exists a. split; [by left|]. intros x [<-|Hx]; [lia|]. apply Hmax in Hx. lia.
Qed.

(** Among distinct integers at most [k] have fewer than [k] greater
    ones. *)
Lemma count_top (k : nat) (l : list Z) :
  NoDup l ->
  (length
     (List.filter
        (fun x => Nat.ltb (length (List.filter (fun y => (x <? y)%Z) l)) k) l)
   <= k)%nat.
Proof.
  revert l. induction k as [|k IH]; intros l Hnd.
  - rewrite filter_none; [done|]. intros x _. apply Nat.ltb_ge. lia.
  - destruct l as [|a l0]; [simpl; lia|].
    destruct (list_max_exists (a :: l0)) as (m & Hm & Hmax); [done|].
    apply in_split in Hm as (l1 & l2 & Hl). rewrite Hl in *. clear a l0 Hl.
    apply NoDup_ListNoDup in Hnd.
    apply List.NoDup_remove in Hnd as [Hnd Hnotin].
    assert (Hlt : forall x, In x (l1 ++ l2) -> x < m).
    { intros x Hx. assert (x <> m) by (intros ->; done).
      assert (x <= m); [|lia].
      apply Hmax. apply in_app_or in Hx as [Hx|Hx]; apply in_or_app;
        [by left | right; by right]. }
    assert (Hcount : forall x, In x (l1 ++ l2) ->
      length (List.filter (fun y => x <? y) (l1 ++ m :: l2))
      = S (length (List.filter (fun y => x <? y) (l1 ++ l2)))).
    { intros x Hx. apply Hlt in Hx. rewrite !List.filter_app, !length_app. simpl.
      destruct (x <? m) eqn:Hxm; [simpl; lia | lia]. }
    assert (Htop : List.filter (fun y => m <? y) (l1 ++ m :: l2) = []).
    { apply filter_none. intros y Hy. apply Hmax in Hy. lia. }
    specialize (IH (l1 ++ l2) (proj2 (NoDup_ListNoDup _) Hnd)).
    rewrite List.filter_app, length_app in IH |- *. simpl.
    rewrite Htop. simpl.
    rewrite (List.filter_ext_in _
      (fun x => Nat.ltb (length (List.filter (fun y => x <? y) (l1 ++ l2))) k) l1).
    2:{ intros x Hx. rewrite Hcount by (apply in_or_app; by left). done. }
    rewrite (List.filter_ext_in _
      (fun x => Nat.ltb (length (List.filter (fun y => x <? y) (l1 ++ l2))) k) l2).
    2:{ intros x Hx. rewrite Hcount by (apply in_or_app; by right). done. }
    lia.
Qed.

Lemma price_history_cleanup {N} (now : Z) (w : World N) (mint : string) :
  price_history mint (token_prices (cleanup_old_cache now w))
  = List.filter
      (fun r =>
         Nat.ltb
           (length
              (List.filter (fun t => tp_updated_at r <? t)
                 (map tp_updated_at (price_history mint (token_prices w)))))
           10)
      (price_history mint (token_prices w)).
Proof.
  unfold price_history, cleanup_old_cache. simpl.
  rewrite filter_filter_comm. apply List.filter_ext_in.
  intros r Hr. apply List.filter_In in Hr as [_ Hr]. apply String.eqb_eq in Hr.
  unfold row_num.
  rewrite <- (filter_length_map tp_updated_at (fun t => tp_updated_at r <? t)).
  rewrite filter_filter_and, Hr.
  destruct (length _) as [|[|[|[|[|[|[|[|[|[|n]]]]]]]]]]; done.
Qed.

Lemma unique_price_times_history {N} (mint : string) (rows : list (TokenPriceRow N)) :
  unique_price_times rows ->
  NoDup (map tp_updated_at (price_history mint rows)).
Proof.
  unfold unique_price_times, price_history.
  induction rows as [|r rows IH]; simpl; [constructor|].
  intros Hnd. apply NoDup_cons in Hnd as [Hr Hnd].
  destruct (String.eqb_spec (tp_mint r) mint) as [Hm|_]; [|by apply IH].
  simpl. apply NoDup_cons. split; [|by apply IH].
  intros Hin. apply Hr. apply list_elem_of_In in Hin.
  apply in_map_iff in Hin as (r' & Ht & Hr').
  apply List.filter_In in Hr' as [Hr' Hm'%String.eqb_eq].
  apply list_elem_of_In, in_map_iff. exists r'. split; [|done]. congruence.
Qed.

(** The cleanup leaves every token at most ten stored prices. *)
Theorem cleanup_old_cache_at_most_ten {N} (now : Z) (w : World N) (mint : string) :
  unique_price_times (token_prices w) ->
  (length (price_history mint (token_prices (cleanup_old_cache now w))) <= 10)%nat.
Proof.
  intros Huniq. rewrite price_history_cleanup.
  rewrite (filter_length_map tp_updated_at
             (fun t =>
                Nat.ltb
                  (length
                     (List.filter (fun t' => t <? t')
                        (map tp_updated_at (price_history mint (token_prices w)))))
                  10)).
  apply count_top. by apply unique_price_times_history.
Qed.

Lemma cleanup_old_cache_at_most_ten_witness :
  unique_price_times (token_prices long_history_world)
  /\ (length (price_history SOL (token_prices long_history_world)) = 12)%nat
  /\ (length
        (price_history SOL (token_prices (cleanup_old_cache NOW long_history_world)))
      <= 10)%nat.
Proof.
  assert (Huniq : unique_price_times (token_prices long_history_world)).
  { apply (bool_decide_unpack _). vm_compute. exact I. }
  split; [exact Huniq|]. split; [reflexivity|].
  exact (cleanup_old_cache_at_most_ten NOW long_history_world SOL Huniq).
Defined.

Lemma select_token_price_cleanup {N} (now : Z) (w : World N) (mint : string) :
  select_token_price mint (token_prices (cleanup_old_cache now w))
  = select_token_price mint (token_prices w).
Proof.
  unfold select_token_price, cleanup_old_cache. simpl.
  rewrite filter_filter_comm. apply latest_by_filter.
  intros r Hr Hmax. apply List.filter_In in Hr as [Hr Hm]. apply String.eqb_eq in Hm.
  unfold row_num. rewrite filter_none; [done|].
  intros r' Hr'. destruct (String.eqb_spec (tp_mint r') (tp_mint r)) as [Hm'|]; [|done].
  simpl. apply Z.ltb_ge. apply Hmax. apply List.filter_In. split; [done|].
  apply String.eqb_eq. congruence.
Qed.

(** The cleanup never changes the price a lookup returns: the latest
    stored price of every token survives it. *)
Theorem cleanup_old_cache_keeps_prices {N} `{JsNumber N} (E : Env N) (now : Z)
  (w : World N) (mint : string) :
  select_token_price mint (token_prices (cleanup_old_cache now w))
  = select_token_price mint (token_prices w)
  /\ (getTokenPrice E mint (cleanup_old_cache now w)).1 = (getTokenPrice E mint w).1.
Proof.
  split; [apply select_token_price_cleanup|].
  apply getTokenPrice_view; [done | apply select_token_price_cleanup].
Qed.

Lemma select_portfolio_cache_cleanup {N} `{JsNumber N} (E : Env N) (now : Z)
  (w : World N) (walletAddress : string) (c : PortfolioCacheRow N) :
  now - ONE_DAY <= Date_now E - 5 * 60 * 1000 ->
  select_portfolio_cache walletAddress (portfolio_cache w) = Some c ->
  (Date_now E - pc_created_at c <? 5 * 60 * 1000) = true ->
  select_portfolio_cache walletAddress (portfolio_cache (cleanup_old_cache now w))
  = Some c.
Proof.
  intros Hnow Hsel Hfresh. unfold select_portfolio_cache, cleanup_old_cache in *.
  simpl. rewrite filter_filter_comm.
  rewrite latest_by_filter; [done|].
  intros r Hr Hmax.
  apply latest_by_inv in Hsel as (l1 & l2 & Hl & _ & _).
  assert (pc_created_at c <= pc_created_at r).
  { apply Hmax. rewrite Hl. apply in_or_app. right. by left. }
  apply negb_true_iff, Z.ltb_ge. lia.
Qed.

(** A cleanup whose horizon lies before the freshness window removes no
    snapshot that [getPortfolio] would serve: the cached portfolio is
    returned after it as before. *)
Theorem cleanup_old_cache_keeps_served_snapshot {N} `{JsNumber N} (E : Env N)
  (now : Z) (w : World N) (walletAddress : string) :
  now - ONE_DAY <= Date_now E - 5 * 60 * 1000 ->
  portfolio_cache_hit E w walletAddress = true ->
  exists portfolio,
    getPortfolio E walletAddress w = (Normal portfolio, w)
    /\ getPortfolio E walletAddress (cleanup_old_cache now w)
       = (Normal portfolio, cleanup_old_cache now w).
Proof.
  intros Hnow Hhit. unfold portfolio_cache_hit, cachedPortfolio in Hhit.
  destruct (select_portfolio_cache_ok E walletAddress) eqn:Hok; [|done].
  destruct (select_portfolio_cache walletAddress (portfolio_cache w)) as [c|] eqn:Hsel;
    [|done].
  pose proof (select_portfolio_cache_cleanup E now w walletAddress c Hnow Hsel Hhit)
    as Hsel'.
  exists {| totalValue := pc_total_value c; tokens := pc_tokens c |}.
  unfold getPortfolio, try_catch, bind, gets, ret, cachedPortfolio.
  rewrite Hok, Hsel, Hsel'. cbn beta iota. by rewrite Hhit.
Qed.

Lemma cleanup_old_cache_keeps_served_snapshot_witness :
  exists portfolio,
    getPortfolio (deployment NOW origin_down None no_quotes) WALLET cached_world
    = (Normal portfolio, cached_world)
    /\ getPortfolio (deployment NOW origin_down None no_quotes) WALLET
         (cleanup_old_cache NOW cached_world)
       = (Normal portfolio, cleanup_old_cache NOW cached_world).
Proof.
  apply (cleanup_old_cache_keeps_served_snapshot
           (deployment NOW origin_down None no_quotes) NOW cached_world WALLET).
  - vm_compute. discriminate.
  - vm_compute. reflexivity.
Defined.

(** The cleanup can be run again: a second run at the same instant
    deletes nothing more, from either table. *)
Theorem cleanup_old_cache_idempotent {N} (now : Z) (w : World N) :
  cleanup_old_cache now (cleanup_old_cache now w) = cleanup_old_cache now w.
Proof.
  unfold cleanup_old_cache. simpl. f_equal.
  - apply filter_all. intros r Hr. apply List.filter_In in Hr as [Hr Hkeep].
    apply negb_true_iff, Nat.ltb_ge. apply negb_true_iff, Nat.ltb_ge in Hkeep.
    etrans; [|exact Hkeep]. unfold row_num. apply le_n_S.
    rewrite filter_filter_and. apply filter_and_length.
  - apply filter_all. intros r Hr. by apply List.filter_In in Hr as [_ Hr].
Qed.

(** ** Portfolio service: outcomes and the snapshot *)

Section PortfolioOutcome.
Context {N : Type} `{JsNumber N} (E : Env N).

Lemma valuate_accounts_portfolio_cache (accounts : list (ParsedTokenAccount N))
  (tokens : list (TokenInfo N)) (totalValue : N) (w : World N) :
  portfolio_cache (valuate_accounts E accounts tokens totalValue w).2
  = portfolio_cache w.
Proof.
  revert tokens totalValue w.
  induction accounts as [|parsedInfo rest IH]; intros tokens totalValue w; simpl; [done|].
  destruct (uiAmount parsedInfo) as [balance|]; [|apply IH].
  destruct (num_gt balance lit_0); [|apply IH].
  destruct (getTokenPrice E (info_mint parsedInfo) w) as [[p|e] w1] eqn:Hp.
  - rewrite (bind_Normal _ _ _ _ _ Hp), IH.
    destruct (getTokenPrice_world E (info_mint parsedInfo) w)
      as [Hw|[(entry & Hw)|[(p' & Hw)| Hw]]];
      rewrite Hp in Hw; simpl in Hw; by subst w1.
  - destruct (getTokenPrice_Normal E (info_mint parsedInfo) w) as (p & w2 & Hp').
    congruence.
Qed.

(** A valuation that completes writes one snapshot, stamped with the
    instant of the write; the table gains it, as its columns keep it,
    when the database accepts the write. *)
Lemma getPortfolio_fresh_world (walletAddress : string) (w : World N)
  (p : Portfolio N) (w1 : World N) :
  getPortfolio_fresh E walletAddress w = (Normal p, w1) ->
  portfolio_cache w1
  = if insert_portfolio_cache_ok E
         {| pc_wallet_address := walletAddress;
            pc_total_value := totalValue p;
            pc_tokens := tokens p;
            pc_created_at := new_Date E |}
    then portfolio_cache w ++
         [{| pc_wallet_address := walletAddress;
             pc_total_value := NUMERIC_20_8 E (totalValue p);
             pc_tokens := map (JSONB_token E) (tokens p);
             pc_created_at := new_Date E |}]
    else portfolio_cache w.
Proof.
  unfold getPortfolio_fresh. intros Hrun.
  apply bind_inv_Normal in Hrun as (publicKey & w2 & Hkey & Hrun).
  apply new_PublicKey_inv in Hkey as (_ & -> & _).
  apply bind_inv_Normal in Hrun as (tokenAccounts & w3 & Hacc & Hrun).
  assert (w3 = w) as ->.
  { unfold call, ret, throw in Hacc.
    destruct (getParsedTokenAccountsByOwner E publicKey); [|discriminate].
    by injection Hacc as _ <-. }
  apply bind_inv_Normal in Hrun as (r & w4 & Hloop & Hrun).
  pose proof (valuate_accounts_portfolio_cache tokenAccounts [] lit_0 w) as Hframe.
  rewrite Hloop in Hframe. simpl in Hframe.
  unfold bind, insert_portfolio_cache, modify, ret in Hrun. simpl in Hrun.
  injection Hrun as <- <-. simpl. by rewrite Hframe.
Qed.

(** Whether a valuation completes is decided by the address and the
    chain alone. *)
Lemma getPortfolio_fresh_outcome (walletAddress : string) (w : World N) :
  match getParsedTokenAccountsByOwner E walletAddress with
  | Some _ =>
      if isPublicKey E walletAddress
      then exists p w1, getPortfolio_fresh E walletAddress w = (Normal p, w1)
      else exists e, getPortfolio_fresh E walletAddress w = (Throw e, w)
  | None => exists e, getPortfolio_fresh E walletAddress w = (Throw e, w)
  end.
Proof.
  unfold getPortfolio_fresh, new_PublicKey.
  destruct (isPublicKey E walletAddress) eqn:Hkey.
  - rewrite (bind_Normal _ _ w walletAddress w) by done. cbn beta.
    destruct (getParsedTokenAccountsByOwner E walletAddress) as [accounts|] eqn:Hacc.
    + rewrite (bind_Normal _ _ w accounts w) by done. cbn beta.
      destruct (valuate_accounts_spec E accounts [] lit_0 w) as (new & w1 & Hloop).
      rewrite (bind_Normal _ _ _ _ _ Hloop).
      unfold bind, insert_portfolio_cache, modify, ret. simpl. eauto.
    + unfold bind, call, throw. eauto.
  - unfold bind, throw.
    destruct (getParsedTokenAccountsByOwner E walletAddress); eauto.
Qed.

End PortfolioOutcome.

(** Without a servable snapshot, [getPortfolio] completes exactly when
    the address is a public key and the chain returns the accounts:
    prices and metadata never make it fail.  When it fails the error is
    the same in both cases and the world is left as it was. *)
Theorem getPortfolio_fails_only_on_address_or_chain {N} `{JsNumber N} (E : Env N)
  (walletAddress : string) (w : World N) :
  portfolio_cache_hit E w walletAddress = false ->
  if isPublicKey E walletAddress
     && bool_decide (is_Some (getParsedTokenAccountsByOwner E walletAddress))
  then exists p w1, getPortfolio E walletAddress w = (Normal p, w1)
  else getPortfolio E walletAddress w = (Throw (Error "Failed to get portfolio"), w).
Proof.
  intros Hmiss. rewrite getPortfolio_cache_miss by done.
  pose proof (getPortfolio_fresh_outcome E walletAddress w) as Hout.
  destruct (getParsedTokenAccountsByOwner E walletAddress) as [accounts|];
    destruct (isPublicKey E walletAddress); simpl.
  - destruct Hout as (p & w1 & Hrun). exists p, w1.
    unfold try_catch. by rewrite Hrun.
  - destruct Hout as (e & Hrun). by apply try_rethrow_Throw with e.
  - destruct Hout as (e & Hrun). by apply try_rethrow_Throw with e.
  - destruct Hout as (e & Hrun). by apply try_rethrow_Throw with e.
Qed.

Lemma getPortfolio_fails_only_on_address_or_chain_witness :
  getPortfolio (deployment NOW sol_at_10 None no_quotes) WALLET stale_memory_world
  = (Throw (Error "Failed to get portfolio"), stale_memory_world).
Proof.
  apply (getPortfolio_fails_only_on_address_or_chain
           (deployment NOW sol_at_10 None no_quotes) WALLET stale_memory_world).
  reflexivity.
Defined.

(** A portfolio is valued afresh, the database accepts its snapshot, and
    the snapshots of the wallet already in the table are older than the
    write.  Then every call for the wallet made less than five minutes
    after the write, with a query that answers, serves that snapshot as
    its columns keep it -- the total as the NUMERIC(20, 8) column gives
    it back, the tokens as the JSONB column gives them back -- without
    a change to the world, whatever the chain, the price origin and the
    other collaborators do by then. *)
Theorem getPortfolio_served_again_within_five_minutes {N} `{JsNumber N}
  (E E' : Env N) (walletAddress : string) (w : World N) (p : Portfolio N)
  (w1 : World N) :
  portfolio_cache_hit E w walletAddress = false ->
  getPortfolio E walletAddress w = (Normal p, w1) ->
  insert_portfolio_cache_ok E
    {| pc_wallet_address := walletAddress;
       pc_total_value := totalValue p;
       pc_tokens := tokens p;
       pc_created_at := new_Date E |} = true ->
  (forall c, In c (portfolio_cache w) -> pc_wallet_address c = walletAddress ->
             pc_created_at c < new_Date E) ->
  select_portfolio_cache_ok E' walletAddress = true ->
  Date_now E' - new_Date E < 5 * 60 * 1000 ->
  getPortfolio E' walletAddress w1
  = (Normal {| totalValue := NUMERIC_20_8 E (totalValue p);
               tokens := map (JSONB_token E) (tokens p) |},
     w1).
Proof.
  intros Hmiss Hrun Haccepted Holder Hanswers Hsoon.
  rewrite getPortfolio_cache_miss in Hrun by done.
  apply try_rethrow_inv_Normal in Hrun.
  apply getPortfolio_fresh_world in Hrun as Hcache. rewrite Haccepted in Hcache.
  assert (Hsel :
    select_portfolio_cache walletAddress (portfolio_cache w1)
    = Some {| pc_wallet_address := walletAddress;
              pc_total_value := NUMERIC_20_8 E (totalValue p);
              pc_tokens := map (JSONB_token E) (tokens p);
              pc_created_at := new_Date E |}).
  { rewrite Hcache. unfold select_portfolio_cache.
    rewrite List.filter_app. simpl. rewrite String.eqb_refl.
    apply latest_by_split; [|intros x []].
    intros x Hx. simpl. apply List.filter_In in Hx as [Hx Hwallet].
    apply String.eqb_eq in Hwallet. by apply Holder. }
  unfold getPortfolio, try_catch, bind, gets, ret, cachedPortfolio.
  rewrite Hanswers, Hsel. cbn beta iota.
  cbn [pc_created_at pc_total_value pc_tokens].
  by destruct (Date_now E' - new_Date E <? 5 * 60 * 1000) eqn:Hlt; [|lia].
Qed.

Lemma getPortfolio_served_again_within_five_minutes_witness :
  exists p w1,
    getPortfolio (deployment NOW sol_at_10 (Some two_accounts) no_quotes)
      WALLET empty_world = (Normal p, w1)
    /\ totalValue p = 7%float
    /\ getPortfolio (deployment (NOW + 299999) origin_down None no_quotes)
         WALLET w1 = (Normal p, w1).
Proof.
  destruct (getPortfolio (deployment NOW sol_at_10 (Some two_accounts) no_quotes)
              WALLET empty_world) as [[p|e] w1] eqn:Hrun.
  - exists p, w1. split; [reflexivity|].
    pose proof Hrun as Hvalue. vm_compute in Hvalue. injection Hvalue as <- <-.
    split; [reflexivity|].
    rewrite (getPortfolio_served_again_within_five_minutes
               (deployment NOW sol_at_10 (Some two_accounts) no_quotes)
               (deployment (NOW + 299999) origin_down None no_quotes)
               WALLET empty_world _ _ eq_refl Hrun eq_refl
               ltac:(intros c []) eq_refl ltac:(vm_compute; reflexivity)).
    reflexivity.
  - vm_compute in Hrun. discriminate Hrun.
Defined.

(** ** Dust tokens *)

(** The dust listing and the liquidation agree on what dust is.  With
    a threshold that is left out or truthy, [getDustTokens] returns the
    holdings of the portfolio valued below the threshold, in the
    portfolio's order; and a holding other than the target token is
    selected by a simulated liquidation that excludes dust at that
    threshold exactly when the listing does not show it. *)
Theorem getDustTokens_complement_of_selection {N} `{JsNumber N} (E : Env N)
  (walletAddress : string) (minimum : option N) (target : string)
  (slippage : option N) (w : World N) (dust : list (TokenInfo N)) (w1 : World N) :
  match minimum with Some m => num_truthy m = true | None => True end ->
  getDustTokens E walletAddress minimum w = (Normal dust, w1) ->
  exists portfolio,
    getPortfolio E walletAddress w = (Normal portfolio, w1)
    /\ dust
       = List.filter (fun token => num_lt (value token) (default lit_1 minimum))
           (tokens portfolio)
    /\ forall token,
         In token (tokens portfolio) -> mint token <> target ->
         (In token
            (simulateLiquidation_tokensToLiquidate
               {| targetToken := target; includeDust := false;
                  minTokenValueUsd := minimum; slippageBps := slippage |}
               portfolio)
          <-> ~ In token dust).
Proof.
  intros Hmin Hrun. unfold getDustTokens in Hrun.
  apply try_rethrow_inv_Normal in Hrun.
  apply bind_inv_Normal in Hrun as (portfolio & w2 & Hp & Hrun).
  unfold ret in Hrun. injection Hrun as <- <-.
  exists portfolio. split; [done|]. split; [done|].
  intros token Hin Hne.
  rewrite tokensToLiquidate_same, tokensToLiquidate_spec, !List.filter_In. simpl.
  assert (Hd : or_default minimum lit_1 = default lit_1 minimum).
  { unfold or_default. destruct minimum as [m|]; [|done]. by rewrite Hmin. }
  rewrite Hd.
  destruct (String.eqb_spec (mint token) target) as [?|_]; [done|]. simpl.
  destruct (num_lt (value token) (default lit_1 minimum)); simpl.
  - split; [intros [_ ?]; done | intros Hnot; exfalso; by apply Hnot].
  - split; [intros _ [_ ?]; done | done].
Qed.

Lemma getDustTokens_complement_of_selection_witness :
  exists dust,
    getDustTokens (deployment NOW sol_at_10 (Some two_accounts) no_quotes)
      WALLET (Some 3%float) empty_world
    = (Normal dust, (getPortfolio
                       (deployment NOW sol_at_10 (Some two_accounts) no_quotes)
                       WALLET empty_world).2)
    /\ map mint dust = [USDC].
Proof.
  destruct (getDustTokens (deployment NOW sol_at_10 (Some two_accounts) no_quotes)
              WALLET (Some 3%float) empty_world) as [[dust|e] w1] eqn:Hrun.
  - assert (Htruthy : num_truthy 3%float = true) by (vm_compute; reflexivity).
    destruct (getDustTokens_complement_of_selection
                (deployment NOW sol_at_10 (Some two_accounts) no_quotes)
                WALLET (Some 3%float) BONK None empty_world dust w1 Htruthy Hrun)
      as (portfolio & Hp & Hdust & _).
    exists dust. rewrite Hp. split; [reflexivity|].
    rewrite Hdust. vm_compute in Hp. injection Hp as <- _. vm_compute. reflexivity.
  - vm_compute in Hrun. discriminate Hrun.
Defined.

(** ** Jupiter service: batch swap *)

Section BatchSwap.
Context {N : Type} `{JsNumber N} (E : Env N).

Lemma getTokenAccounts_inv (walletAddress : string) (w : World N)
  (accounts : list (ParsedTokenAccount N)) (w1 : World N) :
  getTokenAccounts E walletAddress w = (Normal accounts, w1) ->
  w1 = w /\ isPublicKey E walletAddress = true
  /\ getParsedTokenAccountsByOwner E walletAddress = Some accounts.
Proof.
  unfold getTokenAccounts. intros Hrun. apply try_rethrow_inv_Normal in Hrun.
  apply bind_inv_Normal in Hrun as (publicKey & w2 & Hkey & Hrun).
  apply new_PublicKey_inv in Hkey as (-> & -> & Hkey).
  unfold call, ret, throw in Hrun.
  destruct (getParsedTokenAccountsByOwner E walletAddress); [|discriminate].
  by injection Hrun as <- <-.
Qed.

Lemma Promise_all_getQuote_inv (params : JupiterBatchSwapParams N)
  (accounts : list (ParsedTokenAccount N)) (w : World N)
  (quotes : list (JupiterQuoteResponse N)) (w1 : World N) :
  Promise_all
    (fun account =>
       getQuote E (info_mint account) (batch_targetMint params)
         (account_raw_amount E account) (batch_slippageBps params))
    accounts w = (Normal quotes, w1) ->
  w1 = w /\
  Forall2 (fun account quote =>
             jupiter_quote_api E (batch_quote_request E params account) = Some quote)
    accounts quotes.
Proof.
  revert quotes w1. induction accounts as [|account rest IH]; intros quotes w1; simpl.
  - unfold ret. intros Hr. injection Hr as <- <-. by split.
  - intros Hr. apply bind_inv_Normal in Hr as (quote & w2 & Hq & Hr).
    apply getQuote_inv in Hq as [-> Hq].
    apply bind_inv_Normal in Hr as (quotes' & w3 & Hrest & Hr).
    apply IH in Hrest as [-> Hall].
    unfold ret in Hr. injection Hr as <- <-. split; [done|]. by constructor.
Qed.

Lemma Promise_all_createSwapTransaction_inv (params : JupiterBatchSwapParams N)
  (accounts : list (ParsedTokenAccount N)) (w : World N)
  (swaps : list (JupiterQuoteResponse N * list TransactionInstruction))
  (w1 : World N) :
  Promise_all
    (fun account =>
       createSwapTransaction E (batch_walletAddress params) (info_mint account)
         (batch_targetMint params) (account_raw_amount E account)
         (batch_slippageBps params))
    accounts w = (Normal swaps, w1) ->
  w1 = w /\
  concat (map snd swaps) = map (fun _ => jupiter_instruction) accounts.
Proof.
  revert swaps w1. induction accounts as [|account rest IH]; intros swaps w1; simpl.
  - unfold ret. intros Hr. injection Hr as <- <-. by split.
  - intros Hr. apply bind_inv_Normal in Hr as (swap & w2 & Hswap & Hr).
    apply createSwapTransaction_inv in Hswap as [-> Hswap].
    apply bind_inv_Normal in Hr as (swaps' & w3 & Hrest & Hr).
    apply IH in Hrest as [-> Hall].
    unfold ret in Hr. injection Hr as <- <-. split; [done|].
    simpl. rewrite Hall. simpl in Hswap. by rewrite Hswap.
Qed.

End BatchSwap.

(** What a batch swap that completes returns, and that it leaves the
    world as it was: the accounts swapped are the wallet's accounts of
    the requested mints with a positive amount, in chain order; the
    quotes are the collaborator's answers for them; there is one fixed
    Jupiter instruction per swapped account; the route is the first
    quote; and the total output is the exact integer sum of the quotes'
    [outAmount]. *)
Theorem createBatchSwapTransaction_shape {N} `{JsNumber N} (E : Env N)
  (params : JupiterBatchSwapParams N) (w : World N)
  (r : JupiterBatchSwapResponse N) (w1 : World N) :
  createBatchSwapTransaction E params w = (Normal r, w1) ->
  w1 = w /\
  exists tokenAccounts quotes,
    getParsedTokenAccountsByOwner E (batch_walletAddress params) = Some tokenAccounts
    /\ Forall2 (fun account quote =>
                  jupiter_quote_api E (batch_quote_request E params account)
                  = Some quote)
         (accountsToSwap params tokenAccounts) quotes
    /\ batch_route r = head quotes
    /\ batch_instructions r
       = map (fun _ => jupiter_instruction) (accountsToSwap params tokenAccounts)
    /\ batch_total quotes = Some (batch_totalOutputAmount r).
Proof.
  unfold createBatchSwapTransaction. intros Hrun. apply try_rethrow_inv_Normal in Hrun.
  apply bind_inv_Normal in Hrun as (tokenAccounts & w2 & Hacc & Hrun).
  apply getTokenAccounts_inv in Hacc as (-> & _ & Hacc).
  apply bind_inv_Normal in Hrun as (quotes & w3 & Hquotes & Hrun).
  apply Promise_all_getQuote_inv in Hquotes as [-> Hquotes].
  apply bind_inv_Normal in Hrun as (swaps & w4 & Hswaps & Hrun).
  apply Promise_all_createSwapTransaction_inv in Hswaps as [-> Hswaps].
  apply bind_inv_Normal in Hrun as (total & w5 & Htotal & Hrun).
  unfold call, ret, throw in Htotal, Hrun.
  destruct (batch_total quotes) as [z|] eqn:Hz; [|discriminate].
  injection Htotal as <- <-. injection Hrun as <- <-.
  split; [done|]. exists tokenAccounts, quotes. by repeat split.
Qed.

Lemma createBatchSwapTransaction_shape_witness :
  exists r,
    createBatchSwapTransaction
      (deployment NOW sol_at_10 (Some two_accounts) quotes_695)
      {| batch_walletAddress := WALLET; batch_tokenMints := [USDC; SOL];
         batch_targetMint := BONK; batch_slippageBps := None |}
      empty_world = (Normal r, empty_world)
    /\ batch_totalOutputAmount r = 695000
    /\ length (batch_instructions r) = 2%nat.
Proof.
  destruct (createBatchSwapTransaction
              (deployment NOW sol_at_10 (Some two_accounts) quotes_695)
              {| batch_walletAddress := WALLET; batch_tokenMints := [USDC; SOL];
                 batch_targetMint := BONK; batch_slippageBps := None |}
              empty_world) as [[r|e] w1] eqn:Hrun.
  - destruct (createBatchSwapTransaction_shape _ _ _ _ _ Hrun)
      as (-> & tokenAccounts & quotes & Hacc & _ & _ & Hinstr & _).
    exists r. split; [reflexivity|].
    vm_compute in Hrun. injection Hrun as <-. split; reflexivity.
  - vm_compute in Hrun. discriminate Hrun.
Defined.

(** A batch swap with nothing to swap succeeds: when the wallet has no
    account of the requested mints with a positive amount, the result
    has no route, no instruction and a total of 0 (where the planner,
    with an empty selection, fails). *)
Theorem createBatchSwapTransaction_nothing_to_swap {N} `{JsNumber N} (E : Env N)
  (params : JupiterBatchSwapParams N) (w : World N)
  (tokenAccounts : list (ParsedTokenAccount N)) :
  isPublicKey E (batch_walletAddress params) = true ->
  getParsedTokenAccountsByOwner E (batch_walletAddress params) = Some tokenAccounts ->
  accountsToSwap params tokenAccounts = [] ->
  createBatchSwapTransaction E params w
  = (Normal {| batch_route := None; batch_instructions := [];
               batch_totalOutputAmount := 0 |}, w).
Proof.
  intros Hkey Hacc Hnone.
  unfold createBatchSwapTransaction, getTokenAccounts, new_PublicKey, try_catch, bind,
    call, ret.
  rewrite Hkey. cbn beta iota. rewrite Hacc. cbn beta iota. by rewrite Hnone.
Qed.

Lemma createBatchSwapTransaction_nothing_to_swap_witness :
  createBatchSwapTransaction
    (deployment NOW sol_at_10 (Some two_accounts) no_quotes)
    {| batch_walletAddress := WALLET; batch_tokenMints := [BONK];
       batch_targetMint := USDC; batch_slippageBps := None |}
    empty_world
  = (Normal {| batch_route := None; batch_instructions := [];
               batch_totalOutputAmount := 0 |}, empty_world).
Proof.
  apply (createBatchSwapTransaction_nothing_to_swap
           (deployment NOW sol_at_10 (Some two_accounts) no_quotes)
           {| batch_walletAddress := WALLET; batch_tokenMints := [BONK];
              batch_targetMint := USDC; batch_slippageBps := None |}
           empty_world two_accounts); reflexivity.
Defined.

(** ** Transaction service: what the table holds *)

(** The outcomes of [getTransactionDetails]: a row the query gives is
    returned as it is; otherwise the table changes only when the chain
    shows a Porg transaction and the database accepts its row, by the
    upsert of the row under the fee payer. *)
Lemma getTransactionDetails_outcome (db : Supabase) (now : Z)
  (connection_getTransaction : string -> option (option ParsedTransactionWithMeta))
  (transactionId : string) (rows : list TransactionRow) :
  (exists r,
     dbTransaction db transactionId rows = Some r
     /\ getTransactionDetails db now connection_getTransaction transactionId rows
        = (Normal (Some (mapDbTransactionToTransactionDetails r)), rows))
  \/ (dbTransaction db transactionId rows = None
      /\ ((exists e,
             getTransactionDetails db now connection_getTransaction transactionId rows
             = (Throw e, rows))
          \/ getTransactionDetails db now connection_getTransaction transactionId rows
             = (Normal None, rows)
          \/ (exists d,
                getTransactionDetails db now connection_getTransaction transactionId rows
                = (Normal (Some d), rows)
                /\ id d = transactionId /\ type d = UNKNOWN)
          \/ (exists d payer,
                getTransactionDetails db now connection_getTransaction transactionId rows
                = (Normal (Some d),
                   if upsert_transactions_ok db (row_of now d payer)
                   then upsert_transactions
                          (stored_transaction db (row_of now d payer)) rows
                   else rows)
                /\ id d = transactionId
                /\ (type d = LIQUIDATE \/ type d = LIQUIDATE_AND_BRIDGE)))).
Proof.
  unfold getTransactionDetails, try_catch.
  rewrite (bind_Normal (gets (fun rows => rows)) _ rows rows rows eq_refl).
  destruct (dbTransaction db transactionId rows) as [r|] eqn:Hsel.
  - left. by exists r.
  - right. split; [done|].
    destruct (connection_getTransaction transactionId) as [[transaction|]|].
    + rewrite (bind_Normal (call (Some (Some transaction)) _) _ rows _ rows eq_refl).
      destruct (negb (isPorgTransaction transaction)).
      * right. right. left. by eexists.
      * destruct (head (message_accountKeys transaction)) as [payer|].
        -- right. right. right. eexists _, payer.
           rewrite (bind_Normal (call (Some payer) _) _ rows _ rows eq_refl).
           rewrite (bind_Normal _ _ _ _ _ (saveTransactionToDb_outcome _ _ _ _ _)).
           split; [reflexivity|]. split; [done|].
           apply parsePorgTransaction_type.
        -- left. by eexists.
    + rewrite (bind_Normal (call (Some None) _) _ rows _ rows eq_refl). right. by left.
    + left. by eexists.
Qed.

Lemma upsert_transactions_porg_rows (row : TransactionRow) (rows : list TransactionRow) :
  row_type row = LIQUIDATE \/ row_type row = LIQUIDATE_AND_BRIDGE ->
  porg_rows rows -> porg_rows (upsert_transactions row rows).
Proof.
  unfold porg_rows. intros Hrow. induction rows as [|r rows IH];
    cbn [upsert_transactions]; intros Hrows.
  - by constructor.
  - apply Forall_cons in Hrows as [Hr Hrows].
    destruct (String.eqb (signature r) (signature row)); constructor; auto.
Qed.

(** [getTransactionDetails] keeps the table sound: the primary key
    stays unique, every stored row stays a liquidation (an "unknown"
    transaction is returned but never stored), and the rows of the other
    signatures are left exactly as they were. *)
Theorem getTransactionDetails_keeps_table_sound (db : Supabase) (now : Z)
  (connection_getTransaction : string -> option (option ParsedTransactionWithMeta))
  (transactionId : string) (rows : list TransactionRow) :
  NoDup (signatures rows) ->
  porg_rows rows ->
  NoDup (signatures
           (getTransactionDetails db now connection_getTransaction transactionId rows).2)
  /\ porg_rows
       (getTransactionDetails db now connection_getTransaction transactionId rows).2
  /\ other_rows transactionId
       (getTransactionDetails db now connection_getTransaction transactionId rows).2
     = other_rows transactionId rows.
Proof.
  intros Hkey Hporg.
  destruct (getTransactionDetails_outcome db now connection_getTransaction
              transactionId rows)
    as [(r & _ & ->)|[_ [(e & ->)|[->|[(d & -> & _)|(d & payer & -> & Hid & Htype)]]]]];
    simpl; try done.
  destruct (upsert_transactions_ok db (row_of now d payer)); [|done].
  split; [by apply upsert_transactions_NoDup|].
  split; [by apply upsert_transactions_porg_rows|].
  rewrite <- Hid.
  apply (upsert_transactions_other_rows (stored_transaction db (row_of now d payer))).
Qed.

Lemma getTransactionDetails_keeps_table_sound_witness :
  NoDup (signatures
           (getTransactionDetails answering_db NOW chain_with_liquidation SIGNATURE []).2)
  /\ porg_rows
       (getTransactionDetails answering_db NOW chain_with_liquidation SIGNATURE []).2
  /\ length (getTransactionDetails answering_db NOW chain_with_liquidation SIGNATURE []).2
     = 1%nat.
Proof.
  destruct (getTransactionDetails_keeps_table_sound answering_db NOW
              chain_with_liquidation SIGNATURE [] (NoDup_nil_2 (A := string))
              (Forall_nil_2 _))
    as (Hkey & Hporg & _).
  split; [exact Hkey|]. split; [exact Hporg|]. reflexivity.
Defined.

(** ** Transaction service: history *)

Lemma insert_by_created_at_Permutation (r : TransactionRow) (l : list TransactionRow) :
  insert_by_created_at r l ≡ₚ r :: l.
Proof.
  induction l as [|b l IH]; simpl; [done|].
  destruct (created_at r <? created_at b); [|done].
  rewrite IH. apply Permutation_swap.
Qed.

Lemma order_by_created_at_desc_Permutation (rows : list TransactionRow) :
  order_by_created_at_desc rows ≡ₚ rows.
Proof.
  unfold order_by_created_at_desc. induction rows as [|r rows IH]; simpl; [done|].
  by rewrite insert_by_created_at_Permutation, IH.
Qed.

(** The rows of a page are rows of the wallet. *)
Lemma select_history_In (walletAddress : string) (limit : nat) (lt : option Z)
  (rows : list TransactionRow) (r : TransactionRow) :
  r ∈ select_history walletAddress limit lt rows ->
  In r rows /\ wallet_address r = walletAddress.
Proof.
  unfold select_history. intros Hr. apply subseteq_take in Hr.
  rewrite order_by_created_at_desc_Permutation in Hr.
  apply list_elem_of_In, List.filter_In in Hr as [Hr Hw].
  split; [done|]. apply andb_true_iff in Hw as [Hw _]. by apply String.eqb_eq.
Qed.

(** With a query that answers and a full page in the table, the
    history is the page. *)
Lemma getTransactionHistory_from_table (db : Supabase) (clock : string -> Z * Z)
  (isPublicKey : string -> bool)
  (connection_getSignaturesForAddress :
     string -> nat -> option string -> option (list string))
  (connection_getTransaction : string -> option (option ParsedTransactionWithMeta))
  (walletAddress : string) (limit : option nat) (before : option string)
  (rows : list TransactionRow) :
  select_history_ok db walletAddress = true ->
  full_page_stored db walletAddress limit before rows = true ->
  getTransactionHistory db clock isPublicKey connection_getSignaturesForAddress
    connection_getTransaction walletAddress limit before rows
  = (Normal
       {| transactions :=
            map mapDbTransactionToTransactionDetails
              (stored_page db walletAddress limit before rows);
          hasMore := true |}, rows).
Proof.
  unfold full_page_stored, stored_page, cursor_row. intros Hanswers Hfull.
  unfold getTransactionHistory, try_catch, bind, gets, ret.
  cbn beta iota zeta. rewrite Hanswers. cbn beta iota. rewrite Hfull. cbn beta iota.
  do 3 f_equal. rewrite length_map. apply Nat.eqb_eq.
  apply Nat.leb_le in Hfull. apply Nat.le_antisymm; [|done].
  unfold select_history. rewrite length_take. lia.
Qed.

(** With a query that comes back with an error, the history fails and
    the table is left as it is. *)
Lemma getTransactionHistory_query_error (db : Supabase) (clock : string -> Z * Z)
  (isPublicKey : string -> bool)
  (connection_getSignaturesForAddress :
     string -> nat -> option string -> option (list string))
  (connection_getTransaction : string -> option (option ParsedTransactionWithMeta))
  (walletAddress : string) (limit : option nat) (before : option string)
  (rows : list TransactionRow) :
  select_history_ok db walletAddress = false ->
  getTransactionHistory db clock isPublicKey connection_getSignaturesForAddress
    connection_getTransaction walletAddress limit before rows
  = (Throw (Error "Failed to get transaction history"), rows).
Proof.
  intros Herror.
  unfold getTransactionHistory, try_catch, bind, gets, ret, throw.
  cbn beta iota zeta. by rewrite Herror.
Qed.

(** When the table holds a full page for the query and the query
    answers, the history is answered from the table alone -- the chain
    is not consulted and the table is not changed -- with exactly
    [limit] transactions, and [hasMore] is true whether or not the
    wallet has further transactions.  When the query comes back with an
    error, the call fails with the error of the operation, whatever the
    table holds. *)
Theorem getTransactionHistory_full_page_always_has_more (db : Supabase)
  (clock : string -> Z * Z) (isPublicKey : string -> bool)
  (connection_getSignaturesForAddress :
     string -> nat -> option string -> option (list string))
  (connection_getTransaction : string -> option (option ParsedTransactionWithMeta))
  (walletAddress : string) (limit : option nat) (before : option string)
  (rows : list TransactionRow) :
  full_page_stored db walletAddress limit before rows = true ->
  (select_history_ok db walletAddress = true ->
   exists history,
     getTransactionHistory db clock isPublicKey connection_getSignaturesForAddress
       connection_getTransaction walletAddress limit before rows
     = (Normal history, rows)
     /\ length (transactions history) = default 10%nat limit
     /\ hasMore history = true
     /\ Forall (fun d => exists r, In r rows /\ wallet_address r = walletAddress
                                   /\ d = mapDbTransactionToTransactionDetails r)
          (transactions history))
  /\ (select_history_ok db walletAddress = false ->
      getTransactionHistory db clock isPublicKey connection_getSignaturesForAddress
        connection_getTransaction walletAddress limit before rows
      = (Throw (Error "Failed to get transaction history"), rows)).
Proof.
  intros Hfull. split; [|by apply getTransactionHistory_query_error].
  intros Hanswers.
  eexists. split; [by apply getTransactionHistory_from_table|].
  cbn [transactions hasMore]. split; [|split; [done|]].
  - rewrite length_map. unfold full_page_stored in Hfull. apply Nat.leb_le in Hfull.
    apply Nat.le_antisymm; [|done]. unfold stored_page, select_history.
    rewrite length_take. lia.
  - apply Forall_map, Forall_forall. intros r Hr. exists r.
    split; [|split; [|done]].
    + by apply select_history_In in Hr as [Hr _].
    + by apply select_history_In in Hr as [_ Hr].
Qed.

Lemma getTransactionHistory_full_page_always_has_more_witness :
  (exists history,
     getTransactionHistory answering_db (fun _ => (NOW, NOW)) PublicKey_accepts
       chain_down_signatures chain_down WALLET (Some 2%nat) None two_stored_rows
     = (Normal history, two_stored_rows)
     /\ length (transactions history) = 2%nat
     /\ hasMore history = true)
  /\ getTransactionHistory unreachable_db (fun _ => (NOW, NOW)) PublicKey_accepts
       chain_down_signatures chain_down WALLET (Some 2%nat) None two_stored_rows
     = (Throw (Error "Failed to get transaction history"), two_stored_rows).
Proof.
  split.
  - destruct (proj1 (getTransactionHistory_full_page_always_has_more
                       answering_db (fun _ => (NOW, NOW)) PublicKey_accepts
                       chain_down_signatures chain_down WALLET (Some 2%nat) None
                       two_stored_rows eq_refl) eq_refl)
      as (history & Hrun & Hlen & Hmore & _).
    by exists history.
  - exact (proj2 (getTransactionHistory_full_page_always_has_more
                    unreachable_db (fun _ => (NOW, NOW)) PublicKey_accepts
                    chain_down_signatures chain_down WALLET (Some 2%nat) None
                    two_stored_rows eq_refl) eq_refl).
Defined.

(** A cursor that is not stored is ignored by the query on the table:
    when the table holds a full first page, asking for the page before
    a signature the table does not know returns the first page. *)
Theorem getTransactionHistory_unknown_cursor_ignored (db : Supabase)
  (clock : string -> Z * Z) (isPublicKey : string -> bool)
  (connection_getSignaturesForAddress :
     string -> nat -> option string -> option (list string))
  (connection_getTransaction : string -> option (option ParsedTransactionWithMeta))
  (walletAddress : string) (limit : option nat) (before : string)
  (rows : list TransactionRow) :
  select_transaction before rows = None ->
  full_page_stored db walletAddress limit None rows = true ->
  getTransactionHistory db clock isPublicKey connection_getSignaturesForAddress
    connection_getTransaction walletAddress limit (Some before) rows
  = getTransactionHistory db clock isPublicKey connection_getSignaturesForAddress
      connection_getTransaction walletAddress limit None rows.
Proof.
  intros Hunknown Hfull.
  assert (Hcursor : cursor_row db (Some before) rows = cursor_row db None rows).
  { unfold cursor_row. destruct (string_truthy before); [|done]. simpl.
    rewrite Hunknown. by destruct (select_created_at_ok db before). }
  assert (Hfull' : full_page_stored db walletAddress limit (Some before) rows = true).
  { unfold full_page_stored, stored_page in *. by rewrite Hcursor. }
  destruct (select_history_ok db walletAddress) eqn:Hanswers.
  - rewrite !getTransactionHistory_from_table by done.
    unfold stored_page. by rewrite Hcursor.
  - by rewrite !getTransactionHistory_query_error.
Qed.

Lemma getTransactionHistory_unknown_cursor_ignored_witness :
  getTransactionHistory answering_db (fun _ => (NOW, NOW)) PublicKey_accepts
    chain_down_signatures chain_down WALLET (Some 1%nat) (Some SIGNATURE_2)
    [row_of (NOW - 120000) liquidation_details WALLET]
  = getTransactionHistory answering_db (fun _ => (NOW, NOW)) PublicKey_accepts
      chain_down_signatures chain_down WALLET (Some 1%nat) None
      [row_of (NOW - 120000) liquidation_details WALLET].
Proof.
  apply (getTransactionHistory_unknown_cursor_ignored answering_db
           (fun _ => (NOW, NOW)) PublicKey_accepts
           chain_down_signatures chain_down WALLET (Some 1%nat) SIGNATURE_2
           [row_of (NOW - 120000) liquidation_details WALLET]); reflexivity.
Defined.

Lemma select_transaction_signature (transactionId : string)
  (rows : list TransactionRow) (r : TransactionRow) :
  select_transaction transactionId rows = Some r ->
  In r rows /\ signature r = transactionId.
Proof.
  unfold select_transaction.
  destruct (List.filter _ rows) as [|r0 [|r1 l]] eqn:Hf; try discriminate.
  intros [= ->].
  assert (Hin : In r (List.filter (fun r => String.eqb (signature r) transactionId) rows))
    by (rewrite Hf; by left).
  apply List.filter_In in Hin as [Hin Heq]. split; [done|]. by apply String.eqb_eq.
Qed.

Lemma dbTransaction_signature (db : Supabase) (transactionId : string)
  (rows : list TransactionRow) (r : TransactionRow) :
  dbTransaction db transactionId rows = Some r ->
  In r rows /\ signature r = transactionId.
Proof.
  unfold dbTransaction. destruct (select_transaction_ok db transactionId); [|done].
  apply select_transaction_signature.
Qed.

Lemma upsert_transactions_In_other (row r : TransactionRow) (rows : list TransactionRow) :
  In r rows -> signature r <> signature row -> In r (upsert_transactions row rows).
Proof.
  intros Hin Hne. induction rows as [|x rows IH]; [done|].
  cbn [upsert_transactions].
  destruct (String.eqb_spec (signature x) (signature row)) as [Heq|_].
  - destruct Hin as [->|Hin]; [done | by right].
  - destruct Hin as [->|Hin]; [by left | right; by apply IH].
Qed.

Lemma upsert_transactions_In (row : TransactionRow) (rows : list TransactionRow) :
  In row (upsert_transactions row rows).
Proof.
  induction rows as [|x rows IH]; cbn [upsert_transactions]; [by left|].
  destruct (String.eqb (signature x) (signature row)); [by left | by right].
Qed.

Lemma stored_under_upsert (db : Supabase) (walletAddress : string) (now : Z)
  (d : TransactionDetails) (rows : list TransactionRow) :
  stored_under walletAddress (id d)
    (upsert_transactions (stored_transaction db (row_of now d walletAddress)) rows).
Proof.
  exists (stored_transaction db (row_of now d walletAddress)).
  split; [apply upsert_transactions_In | done].
Qed.

(** The callback of the history for one signature: the table is left
    alone, or the transaction returned is a liquidation of that
    signature, saved under the queried wallet after [getTransactionDetails]
    saved it, or not, under its fee payer; each save changes the table
    when the database accepts it. *)
Lemma history_entry_outcome (db : Supabase) (now now' : Z)
  (connection_getTransaction : string -> option (option ParsedTransactionWithMeta))
  (walletAddress sig : string) (rows : list TransactionRow)
  (res : option TransactionDetails) (rows1 : list TransactionRow) :
  history_entry db now now' connection_getTransaction walletAddress sig rows
  = (Normal res, rows1) ->
  (rows1 = rows
   /\ match res with Some d => type d = UNKNOWN | None => True end)
  \/ exists d rows',
       res = Some d /\ type d <> UNKNOWN /\ id d = sig
       /\ rows1
          = (if upsert_transactions_ok db (row_of now' d walletAddress)
             then upsert_transactions
                    (stored_transaction db (row_of now' d walletAddress)) rows'
             else rows')
       /\ (rows' = rows
           \/ exists payer,
                rows' = if upsert_transactions_ok db (row_of now d payer)
                        then upsert_transactions
                               (stored_transaction db (row_of now d payer)) rows
                        else rows).
Proof.
  unfold history_entry. intros Hrun.
  apply bind_inv_Normal in Hrun as (txDetails & rows2 & Hdetails & Hrun).
  destruct (getTransactionDetails_outcome db now connection_getTransaction sig rows)
    as [(r & Hsel & Hr)|[Hsel [(e & Hr)|[Hr|[(d & Hr & Hid & Htype)
                                            |(d & payer & Hr & Hid & Htype)]]]]];
    rewrite Hr in Hdetails; try discriminate; injection Hdetails as <- <-.
  - destruct (bool_decide (type (mapDbTransactionToTransactionDetails r) = UNKNOWN))
      eqn:Hu; cbn [negb] in Hrun.
    + apply bool_decide_eq_true in Hu. unfold ret in Hrun. injection Hrun as <- <-.
      left. by split.
    + apply bool_decide_eq_false in Hu.
      rewrite (bind_Normal _ _ _ _ _ (saveTransactionToDb_outcome _ _ _ _ _)) in Hrun.
      unfold ret in Hrun. injection Hrun as <- <-.
      right. eexists _, rows. split; [done|]. split; [done|].
      split; [by apply dbTransaction_signature in Hsel as [_ ?]|].
      split; [done|]. by left.
  - unfold ret in Hrun. injection Hrun as <- <-. left. by split.
  - rewrite Htype in Hrun. unfold ret in Hrun. simpl in Hrun.
    injection Hrun as <- <-. left. by split.
  - assert (Hu : bool_decide (type d = UNKNOWN) = false).
    { apply bool_decide_eq_false. by destruct Htype as [-> | ->]. }
    rewrite Hu in Hrun. cbn [negb] in Hrun.
    rewrite (bind_Normal _ _ _ _ _ (saveTransactionToDb_outcome _ _ _ _ _)) in Hrun.
    unfold ret in Hrun. injection Hrun as <- <-.
    right. eexists _, _. split; [done|].
    split; [by apply bool_decide_eq_false in Hu|]. split; [done|].
    split; [done|]. right. by exists payer.
Qed.

Lemma history_entry_NoDup (db : Supabase) (now now' : Z)
  (connection_getTransaction : string -> option (option ParsedTransactionWithMeta))
  (walletAddress sig : string) (rows : list TransactionRow)
  (res : option TransactionDetails) (rows1 : list TransactionRow) :
  history_entry db now now' connection_getTransaction walletAddress sig rows
  = (Normal res, rows1) ->
  NoDup (signatures rows) -> NoDup (signatures rows1).
Proof.
  intros Hrun Hkey.
  apply history_entry_outcome in Hrun
    as [[-> _]|(d & rows' & _ & _ & _ & -> & Hrows')]; [done|].
  assert (Hkey' : NoDup (signatures rows')).
  { destruct Hrows' as [->|(payer & ->)]; [done|].
    destruct (upsert_transactions_ok db _); [|done].
    by apply upsert_transactions_NoDup. }
  destruct (upsert_transactions_ok db _); [|done].
  by apply upsert_transactions_NoDup.
Qed.

(** Over a database that accepts the writes, a later callback keeps
    what an earlier one stored. *)
Lemma history_entry_stored_under (db : Supabase) (now now' : Z)
  (connection_getTransaction : string -> option (option ParsedTransactionWithMeta))
  (walletAddress sig : string) (rows : list TransactionRow)
  (res : option TransactionDetails) (rows1 : list TransactionRow)
  (sig0 : string) :
  (forall row, upsert_transactions_ok db row = true) ->
  history_entry db now now' connection_getTransaction walletAddress sig rows
  = (Normal res, rows1) ->
  stored_under walletAddress sig0 rows -> stored_under walletAddress sig0 rows1.
Proof.
  intros Haccepts Hrun (r & Hin & Hsig & Hwallet).
  apply history_entry_outcome in Hrun
    as [[-> _]|(d & rows' & _ & _ & Hid & -> & Hrows')]; [by exists r|].
  rewrite Haccepts.
  destruct (String.eqb_spec sig sig0) as [Heq|Hne].
  - rewrite <- Heq, <- Hid. apply stored_under_upsert.
  - exists r. split; [|done].
    apply upsert_transactions_In_other; [|simpl; congruence].
    destruct Hrows' as [->|(payer & ->)]; [done|]. rewrite Haccepts.
    apply upsert_transactions_In_other; [done | simpl; congruence].
Qed.

Lemma history_entries_NoDup (db : Supabase) (clock : string -> Z * Z)
  (connection_getTransaction : string -> option (option ParsedTransactionWithMeta))
  (walletAddress : string) (sigs : list string) (rows : list TransactionRow)
  (results : list (option TransactionDetails)) (rows1 : list TransactionRow) :
  Promise_all
    (fun sig =>
       history_entry db (fst (clock sig)) (snd (clock sig)) connection_getTransaction
         walletAddress sig)
    sigs rows = (Normal results, rows1) ->
  NoDup (signatures rows) -> NoDup (signatures rows1).
Proof.
  revert rows results. induction sigs as [|sig sigs IH]; intros rows results; simpl.
  - unfold ret. intros Hr. by injection Hr as <- <-.
  - intros Hr Hkey. apply bind_inv_Normal in Hr as (res & rows2 & Hentry & Hr).
    apply bind_inv_Normal in Hr as (results' & rows3 & Hrest & Hr).
    unfold ret in Hr. injection Hr as <- <-.
    apply (IH rows2 results' Hrest).
    by apply (history_entry_NoDup _ _ _ _ _ _ _ _ _ Hentry).
Qed.

Lemma history_entries_stored_under (db : Supabase) (clock : string -> Z * Z)
  (connection_getTransaction : string -> option (option ParsedTransactionWithMeta))
  (walletAddress : string) (sigs : list string) (rows : list TransactionRow)
  (results : list (option TransactionDetails)) (rows1 : list TransactionRow)
  (sig0 : string) :
  (forall row, upsert_transactions_ok db row = true) ->
  Promise_all
    (fun sig =>
       history_entry db (fst (clock sig)) (snd (clock sig)) connection_getTransaction
         walletAddress sig)
    sigs rows = (Normal results, rows1) ->
  stored_under walletAddress sig0 rows ->
  stored_under walletAddress sig0 rows1.
Proof.
  intros Haccepts.
  revert rows results. induction sigs as [|sig sigs IH]; intros rows results; simpl.
  - unfold ret. intros Hr. by injection Hr as <- <-.
  - intros Hr Hd0. apply bind_inv_Normal in Hr as (res & rows2 & Hentry & Hr).
    apply bind_inv_Normal in Hr as (results' & rows3 & Hrest & Hr).
    unfold ret in Hr. injection Hr as <- <-.
    apply (IH rows2 results' Hrest).
    by apply (history_entry_stored_under _ _ _ _ _ _ _ _ _ _ Haccepts Hentry).
Qed.

Lemma history_entries_spec (db : Supabase) (clock : string -> Z * Z)
  (connection_getTransaction : string -> option (option ParsedTransactionWithMeta))
  (walletAddress : string) (sigs : list string) (rows : list TransactionRow)
  (results : list (option TransactionDetails)) (rows1 : list TransactionRow) :
  (forall row, upsert_transactions_ok db row = true) ->
  Promise_all
    (fun sig =>
       history_entry db (fst (clock sig)) (snd (clock sig)) connection_getTransaction
         walletAddress sig)
    sigs rows = (Normal results, rows1) ->
  Forall (fun res =>
            match res with
            | Some d => type d <> UNKNOWN -> stored_under walletAddress (id d) rows1
            | None => True
            end) results.
Proof.
  intros Haccepts.
  revert rows results. induction sigs as [|sig sigs IH]; intros rows results; simpl.
  - unfold ret. intros Hr. by injection Hr as <- <-.
  - intros Hr. apply bind_inv_Normal in Hr as (res & rows2 & Hentry & Hr).
    apply bind_inv_Normal in Hr as (results' & rows3 & Hrest & Hr).
    unfold ret in Hr. injection Hr as <- <-.
    constructor; [|by apply (IH rows2 results' Hrest)].
    destruct res as [d|]; [|done]. intros Hporg.
    apply (history_entries_stored_under _ _ _ _ _ _ _ _ _ Haccepts Hrest).
    apply history_entry_outcome in Hentry
      as [[_ Hu]|(d' & rows' & [= <-] & _ & _ & -> & _)]; [done|].
    rewrite Haccepts. apply stored_under_upsert.
Qed.

(** Over a database that accepts the writes, every transaction a
    history returns has, when the call returns, a row under the queried
    wallet -- also a transaction fetched from the chain that another
    wallet paid for, which [getTransactionDetails] first stores under
    its fee payer.  Over any database the primary key of the table
    stays unique, and no transaction returned from the chain is of type
    "unknown". *)
Theorem getTransactionHistory_stores_under_queried_wallet (db : Supabase)
  (clock : string -> Z * Z) (isPublicKey : string -> bool)
  (connection_getSignaturesForAddress :
     string -> nat -> option string -> option (list string))
  (connection_getTransaction : string -> option (option ParsedTransactionWithMeta))
  (walletAddress : string) (limit : option nat) (before : option string)
  (rows : list TransactionRow) (history : TransactionHistory)
  (rows1 : list TransactionRow) :
  NoDup (signatures rows) ->
  getTransactionHistory db clock isPublicKey connection_getSignaturesForAddress
    connection_getTransaction walletAddress limit before rows
  = (Normal history, rows1) ->
  NoDup (signatures rows1)
  /\ ((forall row, upsert_transactions_ok db row = true) ->
      Forall (fun d => stored_under walletAddress (id d) rows1) (transactions history))
  /\ (full_page_stored db walletAddress limit before rows = false ->
      Forall (fun d => type d <> UNKNOWN) (transactions history)).
Proof.
  intros Hkey Hrun.
  destruct (select_history_ok db walletAddress) eqn:Hanswers;
    [|by rewrite getTransactionHistory_query_error in Hrun].
  destruct (full_page_stored db walletAddress limit before rows) eqn:Hfull.
  - rewrite getTransactionHistory_from_table in Hrun by done.
    injection Hrun as <- <-. split; [done|]. split; [|done]. intros _.
    cbn [transactions]. apply Forall_map, Forall_forall. intros r Hr.
    apply select_history_In in Hr as [Hin Hw]. by exists r.
  - unfold full_page_stored, stored_page, cursor_row in Hfull.
    unfold getTransactionHistory in Hrun.
    apply try_rethrow_inv_Normal in Hrun.
    unfold bind at 1 in Hrun. unfold gets at 1 in Hrun. cbn beta iota zeta in Hrun.
    rewrite Hanswers in Hrun.
    unfold bind at 1 in Hrun. unfold ret at 1 in Hrun. cbn beta iota in Hrun.
    rewrite Hfull in Hrun.
    apply bind_inv_Normal in Hrun as (publicKey & rows2 & Hpk & Hrun).
    assert (rows2 = rows) as ->.
    { unfold ret, throw in Hpk. destruct (isPublicKey walletAddress); [|discriminate].
      by injection Hpk as _ <-. }
    apply bind_inv_Normal in Hrun as (before' & rows2 & Hbefore & Hrun).
    assert (rows2 = rows) as ->.
    { unfold ret, throw in Hbefore.
      destruct before as [b|]; [destruct (string_truthy b);
        [destruct (isPublicKey b); [|discriminate]|]|];
        by injection Hbefore as _ <-. }
    apply bind_inv_Normal in Hrun as (sigs & rows2 & Hsigs & Hrun).
    assert (rows2 = rows) as ->.
    { unfold call, ret, throw in Hsigs.
      destruct (connection_getSignaturesForAddress _ _ _); [|discriminate].
      by injection Hsigs as _ <-. }
    apply bind_inv_Normal in Hrun as (results & rows2 & Hloop & Hrun).
    unfold ret in Hrun. injection Hrun as <- <-.
    split; [by apply (history_entries_NoDup _ _ _ _ _ _ _ _ Hloop)|].
    cbn [transactions].
    split; [intros Haccepts|intros _]; apply Forall_forall; intros d Hd;
      apply list_elem_of_omap in Hd as (res & Hres & Hd);
      destruct res as [d'|]; try discriminate;
      destruct (bool_decide (type d' = UNKNOWN)) eqn:Hu; try discriminate;
      injection Hd as <-; apply bool_decide_eq_false in Hu.
    + pose proof (history_entries_spec _ _ _ _ _ _ _ _ Haccepts Hloop) as Hall.
      rewrite Forall_forall in Hall. by apply (Hall (Some d') Hres).
    + done.
Qed.

Lemma getTransactionHistory_stores_under_queried_wallet_witness :
  exists history rows1,
    getTransactionHistory roomy_db (fun _ => (NOW, NOW + 1)) PublicKey_accepts
      chain_one_signature chain_paid_by_other WALLET None None []
    = (Normal history, rows1)
    /\ map id (transactions history) = [SIGNATURE]
    /\ map wallet_address rows1 = [WALLET]
    /\ Forall (fun d => stored_under WALLET (id d) rows1) (transactions history).
Proof.
  destruct (getTransactionHistory roomy_db (fun _ => (NOW, NOW + 1)) PublicKey_accepts
              chain_one_signature chain_paid_by_other WALLET None None [])
    as [[history|e] rows1] eqn:Hrun.
  - destruct (getTransactionHistory_stores_under_queried_wallet roomy_db
                (fun _ => (NOW, NOW + 1)) PublicKey_accepts
                chain_one_signature chain_paid_by_other WALLET None None []
                history rows1 (NoDup_nil_2 (A := string)) Hrun)
      as (_ & Hstored & _).
    exists history, rows1. split; [reflexivity|].
    pose proof (Hstored (fun _ => eq_refl)) as Hunder.
    vm_compute in Hrun. injection Hrun as <- <-.
    split; [reflexivity|]. split; [reflexivity|]. exact Hunder.
  - vm_compute in Hrun. discriminate Hrun.
Defined.

(** ** Token metadata *)

Section TokenMetadataFacts.
Import TokenMetadataUtil.

(** The lookup, case by case; it never throws. *)
Lemma getTokenMetadata_outcome (db : MetadataTable) (now : Z)
  (token_registry : string -> option (TokenMetadata float)) (mint : string)
  (w : MetadataWorld) :
  getTokenMetadata db now token_registry mint w
  = match tokenMetadataCache w !! mint with
    | Some metadata => (Normal metadata, w)
    | None =>
        match cachedToken db mint (token_metadata w) with
        | Some cachedToken =>
            let metadata :=
              {| md_symbol := tm_symbol cachedToken;
                 md_name := tm_name cachedToken;
                 md_icon := tm_icon cachedToken;
                 md_decimals := of_INTEGER (tm_decimals cachedToken) |} in
            (Normal metadata, (set_tokenMetadataCache mint metadata w).2)
        | None =>
            match token_registry mint with
            | Some response =>
                let metadata :=
                  {| md_symbol := md_symbol response;
                     md_name := md_name response;
                     md_icon := md_icon response;
                     md_decimals := md_decimals response |} in
                (Normal metadata,
                 (set_tokenMetadataCache mint metadata
                    (insert_token_metadata db now mint metadata
                       {| tokenMetadataCache := tokenMetadataCache w;
                          token_metadata := token_metadata w;
                          registry_calls := registry_calls w ++ [mint] |}).2).2)
            | None =>
                (Normal defaultMetadata,
                 {| tokenMetadataCache := tokenMetadataCache w;
                    token_metadata := token_metadata w;
                    registry_calls := registry_calls w ++ [mint] |})
            end
        end
    end.
Proof.
  unfold getTokenMetadata, try_catch, bind, gets, axios_get_registry, call, modify,
    ret, throw.
  cbn beta iota.
  destruct (tokenMetadataCache w !! mint); [done|].
  destruct (cachedToken db mint (token_metadata w)); [done|].
  cbn [token_metadata].
  by destruct (token_registry mint).
Qed.

(** A registry failure is not remembered.  When the token is unknown and
    the registry fails, the lookup returns the default metadata
    ("UNKNOWN", 9 decimals) and leaves the in-memory cache and the table
    as they were; so the next lookup of the token asks the registry
    again. *)
Theorem getTokenMetadata_registry_failure_not_cached (db : MetadataTable)
  (now now' : Z) (token_registry : string -> option (TokenMetadata float))
  (mint : string) (w : MetadataWorld) :
  metadata_known db w mint = false ->
  token_registry mint = None ->
  exists w1,
    getTokenMetadata db now token_registry mint w = (Normal defaultMetadata, w1)
    /\ tokenMetadataCache w1 = tokenMetadataCache w
    /\ token_metadata w1 = token_metadata w
    /\ registry_calls w1 = registry_calls w ++ [mint]
    /\ registry_calls (getTokenMetadata db now' token_registry mint w1).2
       = registry_calls w ++ [mint; mint].
Proof.
  unfold metadata_known. intros Hunknown Hdown.
  apply orb_false_iff in Hunknown as [Hmem Hrow].
  apply bool_decide_eq_false in Hmem. apply bool_decide_eq_false in Hrow.
  rewrite <- eq_None_not_Some in Hmem. rewrite <- eq_None_not_Some in Hrow.
  eexists. split; [|split; [|split; [|split]]].
  - rewrite getTokenMetadata_outcome, Hmem, Hrow, Hdown. reflexivity.
  - reflexivity.
  - reflexivity.
  - reflexivity.
  - rewrite getTokenMetadata_outcome. cbn [tokenMetadataCache token_metadata].
    rewrite Hmem, Hrow, Hdown. cbn [snd registry_calls].
    by rewrite <- app_assoc.
Qed.

(** Metadata is resolved once.  When the token is known (it is in
    memory, or the query on the table answers with its row), or the
    registry answers, the lookup completes with metadata that every
    later lookup of the token returns from memory, leaving the world as
    it is -- whatever the database, the registry and the clock are by
    then. *)
Theorem getTokenMetadata_resolved_once (db : MetadataTable) (now : Z)
  (token_registry : string -> option (TokenMetadata float)) (mint : string)
  (w : MetadataWorld) :
  metadata_known db w mint = true \/ is_Some (token_registry mint) ->
  exists metadata w1,
    getTokenMetadata db now token_registry mint w = (Normal metadata, w1)
    /\ forall db' now' token_registry',
         getTokenMetadata db' now' token_registry' mint w1 = (Normal metadata, w1).
Proof.
  intros Hknown. rewrite getTokenMetadata_outcome.
  destruct (tokenMetadataCache w !! mint) as [metadata|] eqn:Hmem.
  { exists metadata, w. split; [done|]. intros db' now' token_registry'.
    by rewrite getTokenMetadata_outcome, Hmem. }
  destruct (cachedToken db mint (token_metadata w)) as [row|] eqn:Hrow.
  { eexists _, _. split; [reflexivity|]. intros db' now' token_registry'.
    rewrite getTokenMetadata_outcome. cbn [set_tokenMetadataCache modify snd
      tokenMetadataCache].
    by rewrite lookup_insert_eq. }
  destruct (token_registry mint) as [response|] eqn:Hreg.
  { eexists _, _. split; [reflexivity|]. intros db' now' token_registry'.
    rewrite getTokenMetadata_outcome. cbn [set_tokenMetadataCache modify snd
      tokenMetadataCache].
    by rewrite lookup_insert_eq. }
  exfalso. destruct Hknown as [Hknown|[? ?]]; [|done].
  unfold metadata_known in Hknown. rewrite Hmem, Hrow in Hknown.
  apply orb_true_iff in Hknown as [Hk|Hk]; apply bool_decide_eq_true in Hk;
    by destruct Hk.
Qed.

(** The lookup never throws, and the registry is asked exactly when
    the token is unknown -- it is not in memory, and the query on the
    table comes back with an error or without its row: one request is
    logged in that case and none otherwise. *)
Theorem getTokenMetadata_registry_called_iff_unknown (db : MetadataTable) (now : Z)
  (token_registry : string -> option (TokenMetadata float)) (mint : string)
  (w : MetadataWorld) :
  (exists metadata,
     (getTokenMetadata db now token_registry mint w).1 = Normal metadata)
  /\ registry_calls (getTokenMetadata db now token_registry mint w).2
     = (if metadata_known db w mint then registry_calls w
        else registry_calls w ++ [mint])
  /\ (metadata_known db w mint = true <->
      is_Some (tokenMetadataCache w !! mint)
      \/ (select_token_metadata_ok db mint = true
          /\ is_Some (select_token_metadata mint (token_metadata w)))).
Proof.
  split; [|split].
  - rewrite getTokenMetadata_outcome.
    destruct (tokenMetadataCache w !! mint); [by eexists|].
    destruct (cachedToken db mint (token_metadata w)); [by eexists|].
    destruct (token_registry mint); by eexists.
  - rewrite getTokenMetadata_outcome. unfold metadata_known.
    destruct (tokenMetadataCache w !! mint) as [metadata|] eqn:Hmem; [done|].
    destruct (cachedToken db mint (token_metadata w)) as [row|] eqn:Hrow; [done|].
    cbn [orb bool_decide].
    destruct (token_registry mint) as [response|]; [|done].
    unfold insert_token_metadata, set_tokenMetadataCache, modify. cbn [snd].
    destruct (to_INTEGER _); [|done]. cbn [token_metadata].
    by destruct (_ || _).
  - unfold metadata_known, cachedToken. rewrite orb_true_iff, !bool_decide_eq_true.
    destruct (select_token_metadata_ok db mint).
    + split; (intros [?|?]; [by left | right]); [by split | by destruct H].
    + split; (intros [?|?]; [by left |]).
      * by destruct H as [? ?].
      * by destruct H as [? ?].
Qed.

End TokenMetadataFacts.

Lemma getTokenMetadata_registry_failure_not_cached_witness :
  exists w1,
    TokenMetadataUtil.getTokenMetadata answering_metadata_table NOW registry_down BONK
      empty_metadata_world
    = (Normal TokenMetadataUtil.defaultMetadata, w1)
    /\ TokenMetadataUtil.registry_calls
         (TokenMetadataUtil.getTokenMetadata answering_metadata_table (NOW + 1000)
            registry_down BONK w1).2
       = [BONK; BONK].
Proof.
  destruct (getTokenMetadata_registry_failure_not_cached answering_metadata_table
              NOW (NOW + 1000) registry_down BONK empty_metadata_world eq_refl eq_refl)
    as (w1 & Hrun & _ & _ & _ & Hagain).
  exists w1. split; [exact Hrun | exact Hagain].
Defined.

Lemma getTokenMetadata_registry_called_iff_unknown_witness :
  TokenMetadataUtil.registry_calls
    (TokenMetadataUtil.getTokenMetadata unreachable_metadata_table NOW
       registry_with_usdc USDC empty_metadata_world).2
  = [USDC].
Proof.
  rewrite (proj1 (proj2 (getTokenMetadata_registry_called_iff_unknown
                           unreachable_metadata_table NOW registry_with_usdc USDC
                           empty_metadata_world))).
  reflexivity.
Defined.

Lemma getTokenMetadata_resolved_once_witness :
  exists metadata w1,
    TokenMetadataUtil.getTokenMetadata answering_metadata_table NOW registry_with_usdc
      USDC empty_metadata_world
    = (Normal metadata, w1)
    /\ TokenMetadataUtil.getTokenMetadata unreachable_metadata_table (NOW + 86400000)
         registry_down USDC w1
       = (Normal metadata, w1).
Proof.
  destruct (getTokenMetadata_resolved_once answering_metadata_table NOW
              registry_with_usdc USDC empty_metadata_world
              (or_intror (mk_is_Some _ _ eq_refl)))
    as (metadata & w1 & Hrun & Hlater).
  exists metadata, w1. split; [exact Hrun | apply Hlater].
Defined.

(** ** Connection *)




(** ** Public keys and signatures *)

Lemma base58_class_digit (c : ascii) :
  base58_class c = true -> exists d, base58_digit c = Some d /\ 0 <= d < 58.
Proof.
  destruct c as [b0 b1 b2 b3 b4 b5 b6 b7].
  destruct b0, b1, b2, b3, b4, b5, b6, b7; vm_compute; intros Hc;
    try discriminate Hc; (eexists; split; [reflexivity|split; [discriminate|reflexivity]]).
Qed.

Lemma base58_digits_class (s : string) :
  forallb base58_class (list_ascii_of_string s) = true ->
  exists ds,
    base58_digits s = Some ds /\ length ds = String.length s
    /\ Forall (fun d => 0 <= d < 58) ds.
Proof.
  induction s as [|c s IH]; cbn [list_ascii_of_string forallb base58_digits String.length].
  - intros _. exists []. by repeat split.
  - intros Hall. apply andb_true_iff in Hall as [Hc Hall].
    destruct (base58_class_digit c Hc) as (d & Hd & Hrange).
    destruct (IH Hall) as (ds & Hds & Hlen & Hranges).
    exists (d :: ds). rewrite Hd, Hds. simpl. split; [done|].
    split; [by rewrite Hlen | by constructor].
Qed.

Lemma base58_fold_ge (ds : list Z) (acc : Z) :
  0 <= acc -> Forall (fun d => 0 <= d < 58) ds ->
  acc * 58 ^ Z.of_nat (length ds) <= fold_left (fun acc d => acc * 58 + d) ds acc.
Proof.
  revert acc. induction ds as [|d ds IH]; intros acc Hacc Hds; simpl fold_left.
  - simpl. lia.
  - apply Forall_cons in Hds as [Hd Hds].
    etrans; [|apply IH; [lia | done]].
    rewrite length_cons, Nat2Z.inj_succ, Z.pow_succ_r by lia.
    assert (0 <= 58 ^ Z.of_nat (length ds)) by (apply Z.pow_nonneg; lia).
    nia.
Qed.

(** A string with at least 56 digits after its leading '1's decodes to
    at least 35 bytes. *)
Lemma byte_length_long (ds : list Z) :
  Forall (fun d => 0 <= d < 58) ds ->
  (56 <= length ds - leading_zeros ds)%nat ->
  (35 <= byte_length (base58_value ds))%nat.
Proof.
  unfold base58_value.
  induction ds as [|d ds IH]; intros Hds Hlen; [simpl in Hlen; lia|].
  apply Forall_cons in Hds as [Hd Hds]. cbn [leading_zeros] in Hlen.
  destruct (d =? 0) eqn:Hz.
  - apply Z.eqb_eq in Hz. subst d. simpl fold_left.
    replace (0 * 58 + 0) with 0 by lia. apply IH; [done|].
    simpl in Hlen. lia.
  - apply Z.eqb_neq in Hz. simpl fold_left. simpl in Hlen.
    replace (0 * 58 + d) with d by lia.
    pose proof (base58_fold_ge ds d ltac:(lia) Hds) as Hge.
    assert (Hpow : 58 ^ 55 <= 58 ^ Z.of_nat (length ds))
      by (apply Z.pow_le_mono_r; lia).
    assert (Hbig : 2 ^ 275 <= 58 ^ 55) by (apply Z.leb_le; vm_compute; reflexivity).
    assert (Hv : 2 ^ 275 <= fold_left (fun acc d => acc * 58 + d) ds d) by nia.
    unfold byte_length.
    assert (0 < 2 ^ 275) by (apply Z.pow_pos_nonneg; lia).
    destruct (_ <=? 0) eqn:Hpos; [apply Z.leb_le in Hpos; lia|].
    apply Z.log2_le_mono in Hv. rewrite Z.log2_pow2 in Hv by lia.
    assert (34 <= Z.log2 (fold_left (fun acc d => acc * 58 + d) ds d) / 8).
    { change 34 with (275 / 8). apply Z.div_le_mono; lia. }
    lia.
Qed.

(** No string passes for both: what [validateTransactionSignature]
    accepts, [new PublicKey] rejects. *)
Lemma signature_not_a_public_key (s : string) :
  validateTransactionSignature s = true -> PublicKey_accepts s = false.
Proof.
  unfold validateTransactionSignature, PublicKey_accepts, bs58_decode_length.
  intros Hvalid. apply andb_true_iff in Hvalid as [Hlen Hclass].
  apply Nat.eqb_eq in Hlen.
  destruct (base58_digits_class s Hclass) as (ds & -> & Hlen' & Hranges). simpl.
  apply Nat.eqb_neq.
  destruct (le_lt_dec 56 (length ds - leading_zeros ds)) as [Hlong|Hshort].
  - pose proof (byte_length_long ds Hranges Hlong). lia.
  - lia.
Qed.

Lemma signature_truthy (s : string) :
  validateTransactionSignature s = true -> string_truthy s = true.
Proof.
  unfold validateTransactionSignature. intros Hvalid.
  apply andb_true_iff in Hvalid as [Hlen _]. by destruct s.
Qed.

(** The history cannot be paged from the chain.  The cursor the
    controller lets through is a signature of 88 base-58 characters,
    and the service gives it to [new PublicKey], which takes 32 bytes:
    whenever the table does not hold a full page before the cursor, the
    call fails, for every wallet and every chain, leaving the table as
    it was. *)
Theorem getTransactionHistory_cursor_fails_off_table (db : Supabase)
  (clock : string -> Z * Z)
  (connection_getSignaturesForAddress :
     string -> nat -> option string -> option (list string))
  (connection_getTransaction : string -> option (option ParsedTransactionWithMeta))
  (walletAddress : string) (limit : option nat) (before : string)
  (rows : list TransactionRow) :
  validateTransactionSignature before = true ->
  full_page_stored db walletAddress limit (Some before) rows = false ->
  getTransactionHistory db clock PublicKey_accepts connection_getSignaturesForAddress
    connection_getTransaction walletAddress limit (Some before) rows
  = (Throw (Error "Failed to get transaction history"), rows).
Proof.
  intros Hvalid Hfull.
  destruct (select_history_ok db walletAddress) eqn:Hanswers;
    [|by apply getTransactionHistory_query_error].
  pose proof (signature_not_a_public_key before Hvalid) as Hkey.
  pose proof (signature_truthy before Hvalid) as Htruthy.
  unfold full_page_stored, stored_page, cursor_row in Hfull. rewrite Htruthy in Hfull.
  unfold getTransactionHistory. rewrite Htruthy.
  unfold try_catch, bind, gets, ret, throw. cbn beta iota zeta.
  rewrite Hanswers. cbn beta iota.
  rewrite Hfull, Hkey. by destruct (PublicKey_accepts walletAddress).
Qed.

Lemma getTransactionHistory_cursor_fails_off_table_witness :
  PublicKey_accepts WALLET = true
  /\ getTransactionHistory answering_db (fun _ => (NOW, NOW)) PublicKey_accepts
       chain_one_signature chain_with_liquidation WALLET (Some 2%nat)
       (Some SIGNATURE_2) two_stored_rows
     = (Throw (Error "Failed to get transaction history"), two_stored_rows).
Proof.
  split; [vm_compute; reflexivity|].
  apply (getTransactionHistory_cursor_fails_off_table answering_db
           (fun _ => (NOW, NOW)) chain_one_signature chain_with_liquidation
           WALLET (Some 2%nat) SIGNATURE_2 two_stored_rows).
  - vm_compute. reflexivity.
  - vm_compute. reflexivity.
Defined.

(** ** The bridge *)

Lemma Wormhole_program_id_rejected :
  PublicKey_accepts "worm2ZoG2kUd4vFXhvjh93UUH596ayRfgQ2MgjNMTth" = true
  /\ PublicKey_accepts "wormDTUJ6AWPNvk59vGQbDvGJmqbDTdgWgAqcLBCgUb" = true
  /\ PublicKey_accepts "WormT3McKhFJ2RkiGpdw9GKvqEciMFk3oMZad44k7uGN" = false.
Proof. repeat split; vm_compute; reflexivity. Qed.

Lemma getWormholeAccounts_throws {N} (E : Env N) (w : World N) :
  web3_keys E ->
  getWormholeAccounts E w = (Throw (Error "Invalid public key input"), w).
Proof.
  intros Hkeys. destruct Wormhole_program_id_rejected as (H1 & H2 & H3).
  unfold getWormholeAccounts, new_PublicKey, bind, ret, throw.
  by rewrite !Hkeys, H1, H2, H3.
Qed.

Lemma createBridgeTransaction_body_throws {N} (E : Env N)
  (params : WormholeBridgeParams) (w : World N) :
  web3_keys E ->
  createBridgeTransaction E params w
  = (Throw (Error "Failed to create bridge transaction"), w).
Proof.
  intros Hkeys. unfold createBridgeTransaction.
  unfold try_catch, new_PublicKey, bind, call, ret, throw.
  destruct (isPublicKey E (wb_walletAddress params)); [|done].
  destruct (isPublicKey E (wb_tokenMint params)); [|done].
  destruct (getTokenAccountsByMint E _ _) as [[|account rest]|]; [done| |done].
  by rewrite (getWormholeAccounts_throws E w Hkeys).
Qed.

(** A bridge transaction is never created: the third of the Wormhole
    addresses of the service decodes to 33 bytes, so building the
    instruction throws, and every call -- for every wallet, token and
    chain state -- fails with the error of the operation, leaving the
    world as it was. *)
Theorem createBridgeTransaction_never_completes {N} (E : Env N)
  (params : WormholeBridgeParams) (w : World N) :
  web3_keys E ->
  PublicKey_accepts "WormT3McKhFJ2RkiGpdw9GKvqEciMFk3oMZad44k7uGN" = false
  /\ createBridgeTransaction E params w
     = (Throw (Error "Failed to create bridge transaction"), w).
Proof.
  intros Hkeys. split; [apply Wormhole_program_id_rejected|].
  by apply createBridgeTransaction_body_throws.
Qed.

Lemma createBridgeTransaction_never_completes_witness :
  createBridgeTransaction
    (deployment NOW sol_at_10 (Some two_accounts) quotes_695)
    {| wb_walletAddress := WALLET; wb_tokenMint := USDC; wb_amount := "0";
       wb_targetChain := "ethereum";
       wb_recipientAddress := "0x1234567890123456789012345678901234567890" |}
    empty_world
  = (Throw (Error "Failed to create bridge transaction"), empty_world).
Proof.
  apply (createBridgeTransaction_never_completes
           (deployment NOW sol_at_10 (Some two_accounts) quotes_695)
           {| wb_walletAddress := WALLET; wb_tokenMint := USDC; wb_amount := "0";
              wb_targetChain := "ethereum";
              wb_recipientAddress := "0x1234567890123456789012345678901234567890" |}
           empty_world).
  intros s. reflexivity.
Defined.

(** Hence a liquidation with a bridge is never created either: whether
    or not the liquidation itself can be planned, the call fails with
    the error of the operation. *)
Theorem createLiquidateWithBridgeTransaction_never_completes {N} `{JsNumber N}
  (E : Env N) (walletAddress : string) (options : LiquidateOptions N)
  (bridgeOptions : BridgeOptions) (w : World N) :
  web3_keys E ->
  exists w1,
    createLiquidateWithBridgeTransaction E walletAddress options bridgeOptions w
    = (Throw (Error "Failed to create liquidation with bridge transaction"), w1).
Proof.
  intros Hkeys. unfold createLiquidateWithBridgeTransaction.
  destruct (createLiquidateTransaction E walletAddress options w) as [[plan|e] w1] eqn:Hplan.
  - exists w1. apply try_rethrow_Throw with (Error "Failed to create bridge transaction").
    rewrite (bind_Normal _ _ _ _ _ Hplan).
    unfold bind. by rewrite createBridgeTransaction_body_throws.
  - exists w1. apply try_rethrow_Throw with e. unfold bind. by rewrite Hplan.
Qed.

Lemma createLiquidateWithBridgeTransaction_never_completes_witness :
  exists w1,
    createLiquidateWithBridgeTransaction
      (deployment NOW sol_at_10 (Some two_accounts) quotes_695)
      WALLET into_bonk
      {| bo_targetChain := "ethereum";
         bo_recipientAddress := "0x1234567890123456789012345678901234567890" |}
      empty_world
    = (Throw (Error "Failed to create liquidation with bridge transaction"), w1).
Proof.
  apply (createLiquidateWithBridgeTransaction_never_completes
           (deployment NOW sol_at_10 (Some two_accounts) quotes_695)
           WALLET into_bonk
           {| bo_targetChain := "ethereum";
              bo_recipientAddress := "0x1234567890123456789012345678901234567890" |}
           empty_world).
  intros s. reflexivity.
Defined.

(** A liquidation is never planned.  The address that
    [getPorgStateAccount] builds its [PublicKey] from decodes to 33
    bytes, where the constructor takes 32: the batch instruction is
    never built, and every call of the planner -- for every wallet,
    every options and every state of the chain and of the quote
    collaborator -- fails with the error of the operation. *)
Theorem createLiquidateTransaction_never_completes {N} `{JsNumber N} (E : Env N)
  (walletAddress : string) (options : LiquidateOptions N) (w : World N) :
  web3_keys E ->
  bs58_decode_length "PorgState11111111111111111111111111111111111" = Some 33%nat
  /\ (getPorgStateAccount E w).1 = Throw (Error "Invalid public key input")
  /\ exists w1,
       createLiquidateTransaction E walletAddress options w
       = (Throw (Error "Failed to create liquidation transaction"), w1).
Proof.
  intros Hkeys.
  assert (Hstate : isPublicKey E "PorgState11111111111111111111111111111111111" = false).
  { rewrite Hkeys. vm_compute. reflexivity. }
  split; [vm_compute; reflexivity|]. split.
  - unfold getPorgStateAccount, new_PublicKey. by rewrite Hstate.
  - destruct (createLiquidateTransaction E walletAddress options w)
      as [[tx|e] w1] eqn:Hrun.
    + by apply createLiquidateTransaction_not_Normal in Hrun.
    + exists w1. by rewrite (createLiquidateTransaction_Throw E _ _ _ _ _ Hrun).
Qed.

Lemma createLiquidateTransaction_never_completes_witness :
  exists w1,
    createLiquidateTransaction
      (deployment NOW sol_at_10 (Some two_accounts) quotes_695)
      WALLET into_bonk empty_world
    = (Throw (Error "Failed to create liquidation transaction"), w1).
Proof.
  apply (createLiquidateTransaction_never_completes
           (deployment NOW sol_at_10 (Some two_accounts) quotes_695)
           WALLET into_bonk empty_world).
  intros s. reflexivity.
Defined.
